(** * The skill evaluation commands, embedded in Rocq

    A shallow embedding of the evaluation commands [test_skill_activation],
    [test_response_quality], [run_activation_tests] and [run_quality_tests]
    (the remote module in [src/lib/server/eval-db-path.ts]; line numbers in
    the comments below are lines of that file) and of the storage commands
    [create_test_run], [update_test_run], [store_activation_result] and
    [store_quality_result] (the module in [src/lib/evals/test-cases.ts]);
    then of the top level of the server hooks and of the two versions of the
    evaluation page that start these commands.

    JavaScript strings are [string]; integral numbers (token counts,
    milliseconds) are [Z]; the other numbers (costs, averages) are exact
    rationals [Qc], so the rounding of IEEE doubles is not part of the model.
    A [try]/[catch] is the [try_catch] of a small state-and-exception monad
    whose state survives a throw, as the variables declared outside a [try]
    block do. *)

From stdpp Require Import base option list strings gmap numbers pretty.
From Stdlib Require Import QArith Qcanon Qround.

Local Open Scope Z_scope.

(* ================================================================== *)
(** ** JavaScript values, coercions and string methods *)
(* ================================================================== *)

(** The double quote character, as a one-character string. *)
Definition dquote : string := String (Ascii.ascii_of_nat 34) "".

(** The scalars that occur as fields of a tool input. *)
Inductive JsValue :=
| VUndefined
| VNull
| VBool (b : bool)
| VNumber (n : Z)
| VString (s : string).

(** [String(v)]. *)
Definition js_String (v : JsValue) : string :=
  match v with
  | VUndefined => "undefined"
  | VNull => "null"
  | VBool true => "true"
  | VBool false => "false"
  | VNumber n => pretty n
  | VString s => s
  end.

(** Truthiness of a [string | null | undefined]: a present, non-empty string. *)
Definition truthy (s : option string) : bool :=
  match s with
  | Some s => negb (String.eqb s "")
  | None => false
  end.

(** [s || d] for a [string | null | undefined] [s]. *)
Definition or_string (s : option string) (d : string) : string :=
  if truthy s then default d s else d.

(** [n || 0] for a [number | null | undefined] [n]. *)
Definition or_zero (n : option Z) : Z := default 0 n.

(** [String.prototype.toLowerCase], on the ASCII letters; other characters
    are left as they are. *)
Definition lower_ascii (c : Ascii.ascii) : Ascii.ascii :=
  let n := Ascii.nat_of_ascii c in
  if ((65 <=? n) && (n <=? 90))%nat then Ascii.ascii_of_nat (n + 32) else c.

Fixpoint toLowerCase (s : string) : string :=
  match s with
  | EmptyString => EmptyString
  | String c s' => String (lower_ascii c) (toLowerCase s')
  end.

(** [s.includes(sub)]: [sub] occurs in [s] at some position. *)
Fixpoint includes (s sub : string) : bool :=
  String.prefix sub s ||
  match s with
  | EmptyString => false
  | String _ s' => includes s' sub
  end.

(** [s.substring(start, end)] for [start <= end]. *)
Definition substring (s : string) (start end_ : nat) : string :=
  String.substring start (end_ - start) s.

(** [xs.join(sep)]. *)
Definition join (xs : list string) (sep : string) : string :=
  String.concat sep xs.

(** A boolean in a template literal. *)
Definition show_bool (b : bool) : string := if b then "true" else "false".

(** A [string | null] in a template literal. *)
Definition show_nullable (s : option string) : string := default "null" s.

(** [x.toFixed(4)] (for magnitudes below 10^21): the nearest multiple of
    10^-4, the larger one on a tie, written with four decimals. *)
Definition pad4 (n : Z) : string :=
  let ds := pretty n in
  String.concat "" (replicate (4 - String.length ds) "0") +:+ ds.

Definition toFixed4 (x : Qc) : string :=
  let neg := bool_decide (x < 0)%Qc in
  let a := if neg then (- x)%Qc else x in
  let n := Qfloor (a * Qc_of_Z 10000 + Qc_of_Z 1 / Qc_of_Z 2)%Qc in
  (if neg then "-" else "") +:+ pretty (n `div` 10000) +:+ "." +:+ pad4 (n `mod` 10000).

(* ================================================================== *)
(** ** Exceptions and the command monad *)
(* ================================================================== *)

(** What a [catch (error)] clause can receive: an [Error] with its message,
    or any other thrown value. *)
Inductive Thrown :=
| ThrownError (message : string)
| ThrownOther.

(** [error instanceof Error ? error.message : 'Unknown error']. *)
Definition error_text (error : Thrown) : string :=
  match error with
  | ThrownError message => message
  | ThrownOther => "Unknown error"
  end.

Inductive Outcome (A : Type) :=
| Returned (a : A)
| Threw (error : Thrown).
Arguments Returned {A} a.
Arguments Threw {A} error.

(** A computation over a mutable state [S] that returns or throws; the state
    reached when it throws is kept. *)
Definition M (S A : Type) : Type := S → Outcome A * S.

#[global] Instance M_ret {S} : MRet (M S) := λ A a s, (Returned a, s).

#[global] Instance M_bind {S} : MBind (M S) := λ A B f m s,
  match m s with
  | (Returned a, s') => f a s'
  | (Threw e, s') => (Threw e, s')
  end.

Definition throw {S A} (e : Thrown) : M S A := λ s, (Threw e, s).

Definition try_catch {S A} (body : M S A) (handler : Thrown → M S A) : M S A :=
  λ s, match body s with
       | (Returned a, s') => (Returned a, s')
       | (Threw e, s') => handler e s'
       end.

Definition get {S} : M S S := λ s, (Returned s, s).
Definition modify {S} (f : S → S) : M S unit := λ s, (Returned (), f s).

(** An outcome computed without touching the state. *)
Definition lift_outcome {S A} (o : Outcome A) : M S A := λ s, (o, s).

(** [for (const x of xs) body(x)]. *)
Fixpoint for_of {S A} (xs : list A) (body : A → M S unit) : M S unit :=
  match xs with
  | [] => mret ()
  | x :: xs' => body x;; for_of xs' body
  end.

(* ================================================================== *)
(** ** Messages of the agent SDK *)
(* ================================================================== *)

(** [block.input] of a tool use: an object with its fields, or anything else
    ([null], a primitive). *)
Inductive ToolInput :=
| InputObject (fields : gmap string JsValue)
| InputOther (v : JsValue).

Inductive ContentBlock :=
| TextBlock (text : string)
| ToolUseBlock (name : string) (input : ToolInput)
| OtherBlock (type : string).

(** [message.message.usage] of an assistant message. *)
Module MsgUsage.
Record t := mk {
  input_tokens : option Z;
  output_tokens : option Z;
  cache_creation_input_tokens : option Z;
  cache_read_input_tokens : option Z;
  thinking_tokens : option Z;
}.
End MsgUsage.

(** [message.message.content]: an array of blocks, or not an array. *)
Inductive Content :=
| ContentArray (blocks : list ContentBlock)
| ContentString (s : string).

Inductive SDKMessage :=
| AssistantMessage (usage : option MsgUsage.t) (content : Content)
| OtherMessage (type : string).

Definition message_type (message : SDKMessage) : string :=
  match message with
  | AssistantMessage _ _ => "assistant"
  | OtherMessage type => type
  end.

(** The async iterable that [query()] returns: it yields messages one at a
    time and ends, or throws when the next message is asked for. A call that
    fails before the first message is [StreamThrow] at the head. *)
Inductive AgentStream :=
| StreamDone
| StreamYield (message : SDKMessage) (rest : AgentStream)
| StreamThrow (error : Thrown).

(** What the outside world does during one test command: the agent's reply
    and the two readings of the clock. *)
Record Invocation := {
  reply : AgentStream;
  start_time : Z;
  end_time : Z;
}.

(* ================================================================== *)
(** ** Test cases and results *)
(* ================================================================== *)

Inductive SkillName :=
| svelte5_runes
| sveltekit_data_flow
| sveltekit_structure
| sveltekit_remote_functions.

Definition skill_name (s : SkillName) : string :=
  match s with
  | svelte5_runes => "svelte5-runes"
  | sveltekit_data_flow => "sveltekit-data-flow"
  | sveltekit_structure => "sveltekit-structure"
  | sveltekit_remote_functions => "sveltekit-remote-functions"
  end.

(** Modelled from the spec: [UsageData] of [evals/metrics-tracker] is not
    under src/; the five accumulators of the message interpreter. *)
Module UsageData.
Record t := mk {
  input_tokens : Z;
  output_tokens : Z;
  cache_creation_tokens : Z;
  cache_read_tokens : Z;
  thinking_tokens : Z;
}.
End UsageData.

Module Metrics.
Record t := mk {
  input_tokens : Z;
  output_tokens : Z;
  cache_creation_tokens : Z;
  cache_read_tokens : Z;
  thinking_tokens : option Z;
  total_tokens : Z;
  latency_ms : Z;
  estimated_cost_usd : Qc;
}.
End Metrics.

(** The value validated by [activation_test_schema]. *)
Module ActivationTestCase.
Record t := mk {
  id : string;
  query : string;
  expected_skill : SkillName;
  should_activate : bool;
  description : string;
  model : option string;
}.
End ActivationTestCase.

(** The value validated by [quality_test_schema]. *)
Module QualityTestCase.
Record t := mk {
  id : string;
  skill : SkillName;
  query : string;
  expected_facts : option (list string);
  must_not_contain : option (list string);
  description : string;
  model : option string;
}.
End QualityTestCase.

Module ActivationTestResult.
Record t := mk {
  test_id : string;
  passed : bool;
  expected_skill : string;
  activated_skill : option string;
  error : option string;
  logs : list string;
  metrics : option Metrics.t;
}.
End ActivationTestResult.

Module QualityTestResult.
Record t := mk {
  test_id : string;
  passed : bool;
  missing_facts : list string;
  forbidden_content : list string;
  response_preview : string;
  response_full_text : option string;
  error : option string;
  logs : list string;
  metrics : option Metrics.t;
}.
End QualityTestResult.

(* ================================================================== *)
(** ** The database handle and the collaborators outside src/ *)
(* ================================================================== *)

(** A value bound to a statement parameter. *)
Inductive SqlValue :=
| SqlNull
| SqlInteger (n : Z)
| SqlReal (x : Qc)
| SqlText (s : string).

(** The statements the storage commands prepare. *)
Inductive Sql :=
| INSERT_test_runs
| UPDATE_test_runs
| INSERT_activation_results
| INSERT_quality_results
| INSERT_missing_facts
| INSERT_forbidden_content
| INSERT_test_logs (test_type : string).

(** One call on the shared handle: [db.prepare(sql)] or [stmt.run(...params)]. *)
Inductive DbOp :=
| Prepare (sql : Sql)
| Run (sql : Sql) (params : list SqlValue).

(** The storage side of the world: the calls made on the handle so far, in
    order, and how many identifiers and clock readings were drawn. *)
Record Db := {
  ops : list DbOp;
  uuids : nat;
  ticks : nat;
}.

(** Modelled from the spec: a row of [skill_versions], as
    [store_skill_versions] of [evals/skill-version-storage.remote] (not under
    src/) returns them. *)
Module SkillVersion.
Record t := mk {
  id : string;
  skill_name : string;
  content_hash : string;
}.
End SkillVersion.

(** Everything the commands use and src/ does not define: the two metric
    helpers, the two skill-version commands, and the behaviour of the outside
    world (agent, identifiers, clock, failures of the database). *)
Record Env := {
  (** [calculate_total_tokens(usage)] of [evals/metrics-tracker]. *)
  calculate_total_tokens : UsageData.t → Outcome Z;
  (** [calculate_cost(usage, model)] of [evals/cost-calculator]. *)
  calculate_cost : UsageData.t → string → Outcome Qc;
  (** [store_skill_versions(undefined)], its [versions]. *)
  store_skill_versions : M Db (list SkillVersion.t);
  (** [link_test_run_to_skill_versions({test_run_id, skill_version_ids})]. *)
  link_test_run_to_skill_versions : string → list string → M Db unit;
  (** The world during the test of the [i]-th case of a batch. *)
  agent : nat → Invocation;
  (** The [n]-th [randomUUID()] and the [n]-th [Date.now()] of the storage
      commands. *)
  uuid_source : nat → string;
  clock : nat → Z;
  (** Whether the [n]-th call on the database handle throws. *)
  db_fault : nat → option Thrown;
}.

(* ================================================================== *)
(** ** The message interpreter and the two test commands *)
(* ================================================================== *)

Definition default_model : string := "claude-sonnet-4-5-20250929".

(** [const logs = []; const log = (msg) => { console.log(msg); logs.push(msg) }]:
    the state of a test command is its [logs] array. *)
Definition log (msg : string) : M (list string) unit :=
  modify (λ logs, logs ++ [msg]).

(** The command called with a fresh [logs]. *)
Definition run_command {A} (body : M (list string) A) : Outcome A := (body []).1.

Definition usage_zero : UsageData.t := UsageData.mk 0 0 0 0 0.

(** The update of [usage] by one message: lines 162-175 and 304-317. *)
Definition add_message_usage (usage : UsageData.t) (message : SDKMessage) : UsageData.t :=
  match message with
  | AssistantMessage (Some msg_usage) _ =>
      UsageData.mk
        (UsageData.input_tokens usage + or_zero (MsgUsage.input_tokens msg_usage))
        (UsageData.output_tokens usage + or_zero (MsgUsage.output_tokens msg_usage))
        (UsageData.cache_creation_tokens usage
         + or_zero (MsgUsage.cache_creation_input_tokens msg_usage))
        (UsageData.cache_read_tokens usage
         + or_zero (MsgUsage.cache_read_input_tokens msg_usage))
        (match MsgUsage.thinking_tokens msg_usage with
         | Some thinking =>
             if thinking =? 0 then UsageData.thinking_tokens usage
             else UsageData.thinking_tokens usage + thinking
         | None => UsageData.thinking_tokens usage
         end)
  | _ => usage
  end.

(** The test of lines 187-193 on a block: [block.input.skill] when the block
    is a tool use named [Skill] whose input is an object with a [skill]
    field. *)
Definition skill_field (block : ContentBlock) : option JsValue :=
  match block with
  | ToolUseBlock name (InputObject fields) =>
      if String.eqb name "Skill" then fields !! "skill" else None
  | _ => None
  end.

(** [for (const block of content)] of the activation path, with its [break]. *)
Fixpoint scan_blocks (content : list ContentBlock) (activated_skill : option string)
  : M (list string) (option string) :=
  match content with
  | [] => mret activated_skill
  | block :: rest =>
      match block with
      | ToolUseBlock name _ => log ("[ACTIVATION TEST] Tool use detected: " +:+ name)
      | _ => mret ()
      end;;
      match skill_field block with
      | Some skill =>
          let activated_skill := js_String skill in
          log ("[ACTIVATION TEST] Skill activated: " +:+ activated_skill);;
          mret (Some activated_skill)
      | None => scan_blocks rest activated_skill
      end
  end.

(** [for await (const message of query_result)] of the activation path. *)
Fixpoint for_await_activation (query_result : AgentStream)
    (activated_skill : option string) (usage : UsageData.t)
  : M (list string) (option string * UsageData.t) :=
  match query_result with
  | StreamDone => mret (activated_skill, usage)
  | StreamThrow error => throw error
  | StreamYield message rest =>
      log ("[ACTIVATION TEST] Message type: " +:+ message_type message);;
      let usage := add_message_usage usage message in
      match message with
      | AssistantMessage _ content =>
          activated_skill ←
            match content with
            | ContentArray blocks => scan_blocks blocks activated_skill
            | ContentString _ => mret activated_skill
            end;
          if truthy activated_skill then mret (activated_skill, usage)
          else for_await_activation rest activated_skill usage
      | OtherMessage _ => for_await_activation rest activated_skill usage
      end
  end.

(** [for (const block of content)] of the quality path. *)
Fixpoint collect_text (content : list ContentBlock) (response_text : string)
  : M (list string) string :=
  match content with
  | [] => mret response_text
  | TextBlock text :: rest =>
      let response_text := response_text +:+ text in
      log ("[QUALITY TEST] Got text response (" +:+ pretty (String.length text)
           +:+ " chars)");;
      collect_text rest response_text
  | _ :: rest => collect_text rest response_text
  end.

(** [for await (const message of query_result)] of the quality path. *)
Fixpoint for_await_quality (query_result : AgentStream)
    (response_text : string) (usage : UsageData.t)
  : M (list string) (string * UsageData.t) :=
  match query_result with
  | StreamDone => mret (response_text, usage)
  | StreamThrow error => throw error
  | StreamYield message rest =>
      log ("[QUALITY TEST] Message type: " +:+ message_type message);;
      let usage := add_message_usage usage message in
      match message with
      | AssistantMessage _ (ContentArray blocks) =>
          response_text ← collect_text blocks response_text;
          for_await_quality rest response_text usage
      | _ => for_await_quality rest response_text usage
      end
  end.

(** The loop of lines 337-343: [missing_facts.push(fact)] for each fact the
    response does not contain. *)
Fixpoint check_expected_facts (response_text : string) (expected_facts : list string)
    (missing_facts : list string) : list string :=
  match expected_facts with
  | [] => missing_facts
  | fact :: rest =>
      if negb (includes (toLowerCase response_text) (toLowerCase fact))
      then check_expected_facts response_text rest (missing_facts ++ [fact])
      else check_expected_facts response_text rest missing_facts
  end.

(** The loop of lines 349-357: [forbidden_content.push(forbidden)] for each
    forbidden string the response contains. *)
Fixpoint check_must_not_contain (response_text : string) (must_not_contain : list string)
    (forbidden_content : list string) : list string :=
  match must_not_contain with
  | [] => forbidden_content
  | forbidden :: rest =>
      if includes (toLowerCase response_text) (toLowerCase forbidden)
      then check_must_not_contain response_text rest (forbidden_content ++ [forbidden])
      else check_must_not_contain response_text rest forbidden_content
  end.

Section Commands.
Context (E : Env).

Definition activation_body (test_case : ActivationTestCase.t) (world : Invocation)
  : M (list string) ActivationTestResult.t :=
  let model := or_string (ActivationTestCase.model test_case) default_model in
  log ("[ACTIVATION TEST] Starting: " +:+ ActivationTestCase.id test_case);;
  log ("[ACTIVATION TEST] Using model: " +:+ model);;
  log ("[ACTIVATION TEST] Query: " +:+ dquote +:+ ActivationTestCase.query test_case
       +:+ dquote);;
  try_catch
    (let start_time := start_time world in
     log "[ACTIVATION TEST] Calling Claude Agent SDK...";;
     let query_result := reply world in
     log "[ACTIVATION TEST] Processing messages...";;
     '(activated_skill, usage) ← for_await_activation query_result None usage_zero;
     let passed :=
       bool_decide (activated_skill
                    = Some (skill_name (ActivationTestCase.expected_skill test_case)))
       && ActivationTestCase.should_activate test_case in
     let latency_ms := end_time world - start_time in
     total_tokens ← lift_outcome (calculate_total_tokens E usage);
     estimated_cost_usd ← lift_outcome (calculate_cost E usage model);
     log ("[ACTIVATION TEST] " +:+ ActivationTestCase.id test_case
          +:+ " - Expected: "
          +:+ skill_name (ActivationTestCase.expected_skill test_case)
          +:+ ", Got: " +:+ show_nullable activated_skill
          +:+ ", Passed: " +:+ show_bool passed);;
     log ("[ACTIVATION TEST] Metrics - Tokens: " +:+ pretty total_tokens
          +:+ ", Latency: " +:+ pretty latency_ms +:+ "ms, Cost: $"
          +:+ toFixed4 estimated_cost_usd);;
     logs ← get;
     mret {| ActivationTestResult.test_id := ActivationTestCase.id test_case;
             ActivationTestResult.passed := passed;
             ActivationTestResult.expected_skill :=
               skill_name (ActivationTestCase.expected_skill test_case);
             ActivationTestResult.activated_skill := activated_skill;
             ActivationTestResult.error := None;
             ActivationTestResult.logs := logs;
             ActivationTestResult.metrics := Some {|
               Metrics.input_tokens := UsageData.input_tokens usage;
               Metrics.output_tokens := UsageData.output_tokens usage;
               Metrics.cache_creation_tokens := UsageData.cache_creation_tokens usage;
               Metrics.cache_read_tokens := UsageData.cache_read_tokens usage;
               Metrics.thinking_tokens := Some (UsageData.thinking_tokens usage);
               Metrics.total_tokens := total_tokens;
               Metrics.latency_ms := latency_ms;
               Metrics.estimated_cost_usd := estimated_cost_usd |} |})
    (λ error,
     let errorMsg := error_text error in
     log ("[ACTIVATION TEST] Error in " +:+ ActivationTestCase.id test_case +:+ ": "
          +:+ errorMsg);;
     logs ← get;
     mret {| ActivationTestResult.test_id := ActivationTestCase.id test_case;
             ActivationTestResult.passed := false;
             ActivationTestResult.expected_skill :=
               skill_name (ActivationTestCase.expected_skill test_case);
             ActivationTestResult.activated_skill := None;
             ActivationTestResult.error := Some errorMsg;
             ActivationTestResult.logs := logs;
             ActivationTestResult.metrics := None |}).

(** Test skill activation - verify correct skill triggers for query. *)
Definition test_skill_activation (test_case : ActivationTestCase.t) (world : Invocation)
  : Outcome ActivationTestResult.t :=
  run_command (activation_body test_case world).

Definition quality_body (test_case : QualityTestCase.t) (world : Invocation)
  : M (list string) QualityTestResult.t :=
  let model := or_string (QualityTestCase.model test_case) default_model in
  log ("[QUALITY TEST] Starting: " +:+ QualityTestCase.id test_case);;
  log ("[QUALITY TEST] Using model: " +:+ model);;
  log ("[QUALITY TEST] Query: " +:+ dquote +:+ QualityTestCase.query test_case
       +:+ dquote);;
  try_catch
    (let start_time := start_time world in
     log "[QUALITY TEST] Calling Claude Agent SDK...";;
     let query_result := reply world in
     log "[QUALITY TEST] Processing messages...";;
     '(response_text, usage) ← for_await_quality query_result "" usage_zero;
     let missing_facts :=
       match QualityTestCase.expected_facts test_case with
       | Some expected_facts => check_expected_facts response_text expected_facts []
       | None => []
       end in
     let forbidden_content :=
       match QualityTestCase.must_not_contain test_case with
       | Some must_not_contain =>
           check_must_not_contain response_text must_not_contain []
       | None => []
       end in
     let passed :=
       bool_decide (length missing_facts = 0%nat)
       && bool_decide (length forbidden_content = 0%nat) in
     let latency_ms := end_time world - start_time in
     total_tokens ← lift_outcome (calculate_total_tokens E usage);
     estimated_cost_usd ← lift_outcome (calculate_cost E usage model);
     log ("[QUALITY TEST] " +:+ QualityTestCase.id test_case +:+ " - Passed: "
          +:+ show_bool passed);;
     (if bool_decide (0 < length missing_facts)%nat
      then log ("[QUALITY TEST] Missing facts: " +:+ join missing_facts ", ")
      else mret ());;
     (if bool_decide (0 < length forbidden_content)%nat
      then log ("[QUALITY TEST] Forbidden content found: "
                +:+ join forbidden_content ", ")
      else mret ());;
     log ("[QUALITY TEST] Metrics - Tokens: " +:+ pretty total_tokens
          +:+ ", Latency: " +:+ pretty latency_ms +:+ "ms, Cost: $"
          +:+ toFixed4 estimated_cost_usd);;
     logs ← get;
     mret {| QualityTestResult.test_id := QualityTestCase.id test_case;
             QualityTestResult.passed := passed;
             QualityTestResult.missing_facts := missing_facts;
             QualityTestResult.forbidden_content := forbidden_content;
             QualityTestResult.response_preview := substring response_text 0 200;
             QualityTestResult.response_full_text := Some response_text;
             QualityTestResult.error := None;
             QualityTestResult.logs := logs;
             QualityTestResult.metrics := Some {|
               Metrics.input_tokens := UsageData.input_tokens usage;
               Metrics.output_tokens := UsageData.output_tokens usage;
               Metrics.cache_creation_tokens := UsageData.cache_creation_tokens usage;
               Metrics.cache_read_tokens := UsageData.cache_read_tokens usage;
               Metrics.thinking_tokens := Some (UsageData.thinking_tokens usage);
               Metrics.total_tokens := total_tokens;
               Metrics.latency_ms := latency_ms;
               Metrics.estimated_cost_usd := estimated_cost_usd |} |})
    (λ error,
     let errorMsg := error_text error in
     log ("[QUALITY TEST] Error in " +:+ QualityTestCase.id test_case +:+ ": "
          +:+ errorMsg);;
     logs ← get;
     mret {| QualityTestResult.test_id := QualityTestCase.id test_case;
             QualityTestResult.passed := false;
             QualityTestResult.missing_facts := [];
             QualityTestResult.forbidden_content := [];
             QualityTestResult.response_preview := "";
             QualityTestResult.response_full_text := None;
             QualityTestResult.error := Some errorMsg;
             QualityTestResult.logs := logs;
             QualityTestResult.metrics := None |}).

(** Test response quality - verify responses contain expected facts. *)
Definition test_response_quality (test_case : QualityTestCase.t) (world : Invocation)
  : Outcome QualityTestResult.t :=
  run_command (quality_body test_case world).

End Commands.

(* ================================================================== *)
(** ** The storage commands *)
(* ================================================================== *)

Inductive TestType := activation | quality | anti_pattern.

Definition test_type_name (t : TestType) : string :=
  match t with
  | activation => "activation"
  | quality => "quality"
  | anti_pattern => "anti-pattern"
  end.

(** [s || null] for a [string | null | undefined] [s]. *)
Definition text_or_null (s : option string) : SqlValue :=
  if truthy s then SqlText (default "" s) else SqlNull.

(** A [string | null] bound as it is. *)
Definition nullable_text (s : option string) : SqlValue :=
  match s with
  | Some s => SqlText s
  | None => SqlNull
  end.

(** [n || null] for a [number | undefined] [n]. *)
Definition integer_or_null (n : option Z) : SqlValue :=
  match n with
  | Some n => if n =? 0 then SqlNull else SqlInteger n
  | None => SqlNull
  end.

Definition real_or_null (x : option Qc) : SqlValue :=
  match x with
  | Some x => if bool_decide (x = 0%Qc) then SqlNull else SqlReal x
  | None => SqlNull
  end.

Definition sql_bool (b : bool) : SqlValue := SqlInteger (if b then 1 else 0).

(** The arguments of [update_test_run] other than [run_id]. *)
Module RunUpdate.
Record t := mk {
  passed_tests : Z;
  failed_tests : Z;
  total_input_tokens : Z;
  total_output_tokens : Z;
  total_cache_read_tokens : Z;
  total_latency_ms : Z;
  total_cost_usd : Qc;
  avg_latency_ms : Qc;
}.
End RunUpdate.

(** The seven metric parameters both result inserts end with. *)
Definition metric_params (metrics : option Metrics.t) : list SqlValue :=
  [ integer_or_null (Metrics.input_tokens <$> metrics);
    integer_or_null (Metrics.output_tokens <$> metrics);
    integer_or_null (Metrics.cache_creation_tokens <$> metrics);
    integer_or_null (Metrics.cache_read_tokens <$> metrics);
    integer_or_null (metrics ≫= Metrics.thinking_tokens);
    integer_or_null (Metrics.latency_ms <$> metrics);
    real_or_null (Metrics.estimated_cost_usd <$> metrics) ].

Section Storage.
Context (E : Env).

(** A call on the handle: recorded, then it returns or throws as the world
    decides. *)
Definition db_call (op : DbOp) : M Db unit := λ db,
  let db' := {| ops := ops db ++ [op]; uuids := uuids db; ticks := ticks db |} in
  match db_fault E (length (ops db)) with
  | Some error => (Threw error, db')
  | None => (Returned (), db')
  end.

Definition prepare (sql : Sql) : M Db Sql := db_call (Prepare sql);; mret sql.
Definition run (stmt : Sql) (params : list SqlValue) : M Db unit :=
  db_call (Run stmt params).

Definition randomUUID : M Db string := λ db,
  (Returned (uuid_source E (uuids db)),
   {| ops := ops db; uuids := S (uuids db); ticks := ticks db |}).

Definition Date_now : M Db Z := λ db,
  (Returned (clock E (ticks db)),
   {| ops := ops db; uuids := uuids db; ticks := S (ticks db) |}).

(** Create a new test run record. *)
Definition create_test_run (model : string) (git_commit_hash : option string)
    (test_type : TestType) (total_tests : Z) : M Db string :=
  run_id ← randomUUID;
  now ← Date_now;
  stmt ← prepare INSERT_test_runs;
  run stmt [ SqlText run_id; SqlInteger now; SqlText model;
             text_or_null git_commit_hash; SqlInteger total_tests;
             SqlText (test_type_name test_type); SqlInteger now ];;
  mret run_id.

(** Update test run with final results. *)
Definition update_test_run (run_id : string) (u : RunUpdate.t) : M Db unit :=
  stmt ← prepare UPDATE_test_runs;
  run stmt [ SqlInteger (RunUpdate.passed_tests u);
             SqlInteger (RunUpdate.failed_tests u);
             SqlInteger (RunUpdate.total_input_tokens u);
             SqlInteger (RunUpdate.total_output_tokens u);
             SqlInteger (RunUpdate.total_cache_read_tokens u);
             SqlInteger (RunUpdate.total_latency_ms u);
             SqlReal (RunUpdate.total_cost_usd u);
             SqlReal (RunUpdate.avg_latency_ms u);
             SqlText run_id ].

(** The loop that stores the logs of a result, lines 645-654 and 740-749
    of the storage module. *)
Definition store_logs (test_type : string) (result_id : string) (logs : list string)
  : M Db unit :=
  if bool_decide (0 < length logs)%nat then
    log_stmt ← prepare (INSERT_test_logs test_type);
    for_of logs (λ log,
      now ← Date_now;
      run log_stmt [ SqlText result_id; SqlText log; SqlInteger now ])
  else mret ().

(** Store activation test result. *)
Definition store_activation_result (run_id : string) (r : ActivationTestResult.t)
    (query : option string) (should_activate : option bool)
    (test_case_source session_context : option string) : M Db unit :=
  result_id ← randomUUID;
  stmt ← prepare INSERT_activation_results;
  now ← Date_now;
  run stmt ([ SqlText result_id; SqlText run_id;
              SqlText (ActivationTestResult.test_id r);
              SqlText (or_string query "");
              SqlText (ActivationTestResult.expected_skill r);
              nullable_text (ActivationTestResult.activated_skill r);
              match should_activate with
              | Some should_activate => sql_bool should_activate
              | None => SqlInteger 1
              end;
              sql_bool (ActivationTestResult.passed r);
              text_or_null (ActivationTestResult.error r);
              SqlText (or_string test_case_source "synthetic");
              text_or_null session_context ]
            ++ metric_params (ActivationTestResult.metrics r)
            ++ [ SqlInteger now ]);;
  store_logs "activation" result_id (ActivationTestResult.logs r).

(** Store quality test result. *)
Definition store_quality_result (run_id : string) (r : QualityTestResult.t)
    (query skill : string) (response_full_text : option string)
    (test_case_source session_context : option string) : M Db unit :=
  result_id ← randomUUID;
  stmt ← prepare INSERT_quality_results;
  now ← Date_now;
  run stmt ([ SqlText result_id; SqlText run_id;
              SqlText (QualityTestResult.test_id r);
              SqlText skill; SqlText query;
              SqlText (QualityTestResult.response_preview r);
              text_or_null response_full_text;
              sql_bool (QualityTestResult.passed r);
              text_or_null (QualityTestResult.error r);
              SqlText (or_string test_case_source "synthetic");
              text_or_null session_context ]
            ++ metric_params (QualityTestResult.metrics r)
            ++ [ SqlInteger now ]);;
  (if bool_decide (0 < length (QualityTestResult.missing_facts r))%nat then
     fact_stmt ← prepare INSERT_missing_facts;
     for_of (QualityTestResult.missing_facts r) (λ fact,
       run fact_stmt [ SqlText result_id; SqlText fact ])
   else mret ());;
  (if bool_decide (0 < length (QualityTestResult.forbidden_content r))%nat then
     content_stmt ← prepare INSERT_forbidden_content;
     for_of (QualityTestResult.forbidden_content r) (λ content,
       run content_stmt [ SqlText result_id; SqlText content ])
   else mret ());;
  store_logs "quality" result_id (QualityTestResult.logs r).

End Storage.

(* ================================================================== *)
(** ** The batch commands *)
(* ================================================================== *)

(** A command that declares [let x = init] and runs [body], which may assign
    to [x]; the value of [x] afterwards is returned with the result. *)
Definition with_local {S L A} (init : L) (body : M (S * L) A) : M S (A * L) := λ s,
  match body (s, init) with
  | (Returned a, (s', x)) => (Returned (a, x), s')
  | (Threw error, (s', _)) => (Threw error, s')
  end.

(** A command of the enclosing scope, run where a local variable is declared. *)
Definition outer {S L A} (m : M S A) : M (S * L) A := λ '(s, x),
  match m s with
  | (o, s') => (o, (s', x))
  end.

Definition assign {S L} (v : L) : M (S * L) unit := modify (λ '(s, _), (s, v)).

(** The accumulators of lines 466-471 and 595-600. *)
Module Totals.
Record t := mk {
  total_input_tokens : Z;
  total_output_tokens : Z;
  total_cache_read_tokens : Z;
  total_latency_ms : Z;
  total_cost_usd : Qc;
  passed_count : Z;
}.
End Totals.

Definition totals_zero : Totals.t := Totals.mk 0 0 0 0 0%Qc 0.

(** Lines 497-504 and 627-634: the update of the accumulators by one result. *)
Definition aggregate (totals : Totals.t) (metrics : option Metrics.t) (passed : bool)
  : Totals.t :=
  let totals :=
    match metrics with
    | Some metrics =>
        Totals.mk
          (Totals.total_input_tokens totals + Metrics.input_tokens metrics)
          (Totals.total_output_tokens totals + Metrics.output_tokens metrics)
          (Totals.total_cache_read_tokens totals + Metrics.cache_read_tokens metrics)
          (Totals.total_latency_ms totals + Metrics.latency_ms metrics)
          (Totals.total_cost_usd totals + Metrics.estimated_cost_usd metrics)%Qc
          (Totals.passed_count totals)
    | None => totals
    end in
  if passed then
    Totals.mk (Totals.total_input_tokens totals) (Totals.total_output_tokens totals)
      (Totals.total_cache_read_tokens totals) (Totals.total_latency_ms totals)
      (Totals.total_cost_usd totals) (Totals.passed_count totals + 1)
  else totals.

(** Lines 508-512 and 638-642, and the argument of [update_test_run]. *)
Definition final_update (total_tests : nat) (totals : Totals.t) : RunUpdate.t :=
  let failed_count := Z.of_nat total_tests - Totals.passed_count totals in
  let avg_latency_ms :=
    if bool_decide (0 < total_tests)%nat
    then (Qc_of_Z (Totals.total_latency_ms totals) / Qc_of_Z (Z.of_nat total_tests))%Qc
    else 0%Qc in
  {| RunUpdate.passed_tests := Totals.passed_count totals;
     RunUpdate.failed_tests := failed_count;
     RunUpdate.total_input_tokens := Totals.total_input_tokens totals;
     RunUpdate.total_output_tokens := Totals.total_output_tokens totals;
     RunUpdate.total_cache_read_tokens := Totals.total_cache_read_tokens totals;
     RunUpdate.total_latency_ms := Totals.total_latency_ms totals;
     RunUpdate.total_cost_usd := Totals.total_cost_usd totals;
     RunUpdate.avg_latency_ms := avg_latency_ms |}.

(** [if (run_id) { try { await write } catch (error) { console.error(...) } }]:
    the guard around every write of the batch commands. *)
Definition if_bound {S} (run_id : option string) (write : string → M S unit) : M S unit :=
  if truthy run_id
  then try_catch (write (default "" run_id)) (λ error, mret ())
  else mret ().

Section Batches.
Context (E : Env).

(** Lines 430-462 and 559-591, which differ in [test_type] only:
    [let run_id = null; try { ... } catch (error) { ... }]. The value of
    [run_id] after the block is returned. *)
Definition initialise_storage (test_type : TestType) (first_model : option string)
    (total_tests : nat) : M Db (option string) :=
  '(_, run_id) ← with_local (None : option string)
    (try_catch
       (versions ← outer (store_skill_versions E);
        let model := or_string first_model default_model in
        id ← outer (create_test_run E model None test_type (Z.of_nat total_tests));
        assign (Some id);;
        outer (link_test_run_to_skill_versions E id (SkillVersion.id <$> versions)))
       (λ error, mret ()));
  mret run_id.

(** Lines 514-536 and 644-666. *)
Definition finalise_storage (run_id : option string) (u : RunUpdate.t) : M Db unit :=
  if_bound run_id (λ run_id, update_test_run E run_id u).

(** The loop of lines 473-505, from index [i] on. *)
Fixpoint activation_loop (run_id : option string)
    (test_cases : list ActivationTestCase.t) (i : nat)
    (results : list ActivationTestResult.t) (totals : Totals.t)
  : M Db (list ActivationTestResult.t * Totals.t) :=
  match test_cases with
  | [] => mret (results, totals)
  | test_case :: rest =>
      result ← lift_outcome (test_skill_activation E test_case (agent E i));
      let results := results ++ [result] in
      if_bound run_id (λ run_id,
        store_activation_result E run_id result
          (Some (ActivationTestCase.query test_case))
          (Some (ActivationTestCase.should_activate test_case)) None None);;
      let totals :=
        aggregate totals (ActivationTestResult.metrics result)
          (ActivationTestResult.passed result) in
      activation_loop run_id rest (S i) results totals
  end.

(** [run_activation_tests] with the values of its finalization returned
    beside the results. *)
Definition run_activation_batch (test_cases : list ActivationTestCase.t)
  : M Db (list ActivationTestResult.t * RunUpdate.t) :=
  run_id ← initialise_storage activation
              (head test_cases ≫= ActivationTestCase.model) (length test_cases);
  '(results, totals) ← activation_loop run_id test_cases 0 [] totals_zero;
  let u := final_update (length test_cases) totals in
  finalise_storage run_id u;;
  mret (results, u).

(** Run multiple activation tests in sequence. *)
Definition run_activation_tests (test_cases : list ActivationTestCase.t)
  : M Db (list ActivationTestResult.t) :=
  '(results, _) ← run_activation_batch test_cases;
  mret results.

(** The loop of lines 602-635, from index [i] on. *)
Fixpoint quality_loop (run_id : option string)
    (test_cases : list QualityTestCase.t) (i : nat)
    (results : list QualityTestResult.t) (totals : Totals.t)
  : M Db (list QualityTestResult.t * Totals.t) :=
  match test_cases with
  | [] => mret (results, totals)
  | test_case :: rest =>
      result ← lift_outcome (test_response_quality E test_case (agent E i));
      let results := results ++ [result] in
      if_bound run_id (λ run_id,
        store_quality_result E run_id result
          (QualityTestCase.query test_case)
          (skill_name (QualityTestCase.skill test_case))
          (QualityTestResult.response_full_text result) None None);;
      let totals :=
        aggregate totals (QualityTestResult.metrics result)
          (QualityTestResult.passed result) in
      quality_loop run_id rest (S i) results totals
  end.

Definition run_quality_batch (test_cases : list QualityTestCase.t)
  : M Db (list QualityTestResult.t * RunUpdate.t) :=
  run_id ← initialise_storage quality
              (head test_cases ≫= QualityTestCase.model) (length test_cases);
  '(results, totals) ← quality_loop run_id test_cases 0 [] totals_zero;
  let u := final_update (length test_cases) totals in
  finalise_storage run_id u;;
  mret (results, u).

(** Run multiple quality tests in sequence. *)
Definition run_quality_tests (test_cases : list QualityTestCase.t)
  : M Db (list QualityTestResult.t) :=
  '(results, _) ← run_quality_batch test_cases;
  mret results.

End Batches.

(* ================================================================== *)
(** ** The start-up of the server *)
(* ================================================================== *)

(** What the start-up reads of an error it catches: [error.message] and
    [error.code], each a string when it is there. *)
Module StartupError.
Record t := mk {
  message : option string;
  code : option string;
}.
End StartupError.






(* ================================================================== *)
(** ** The evaluation page *)
(* ================================================================== *)

(** The state of the page that its two functions [run_all_activation_tests]
    and [run_all_quality_tests] read or write; the two selections belong to
    the second version of the page. *)
Module Page.
Record t := mk {
  activation_results : list ActivationTestResult.t;
  quality_results : list QualityTestResult.t;
  is_running : bool;
  current_test : string;
  current_logs : list string;
  selected_model : string;
  selected_activation_tests : list string;
  selected_quality_tests : list string;
}.

Definition set_activation_results (results : list ActivationTestResult.t) (page : t) : t :=
  mk results (quality_results page) (is_running page) (current_test page)
     (current_logs page) (selected_model page) (selected_activation_tests page)
     (selected_quality_tests page).

Definition set_quality_results (results : list QualityTestResult.t) (page : t) : t :=
  mk (activation_results page) results (is_running page) (current_test page)
     (current_logs page) (selected_model page) (selected_activation_tests page)
     (selected_quality_tests page).

Definition set_is_running (running : bool) (page : t) : t :=
  mk (activation_results page) (quality_results page) running (current_test page)
     (current_logs page) (selected_model page) (selected_activation_tests page)
     (selected_quality_tests page).

Definition set_current_test (text : string) (page : t) : t :=
  mk (activation_results page) (quality_results page) (is_running page) text
     (current_logs page) (selected_model page) (selected_activation_tests page)
     (selected_quality_tests page).

Definition set_current_logs (logs : list string) (page : t) : t :=
  mk (activation_results page) (quality_results page) (is_running page)
     (current_test page) logs (selected_model page) (selected_activation_tests page)
     (selected_quality_tests page).
End Page.

(** [{...t, model}] for a case of each catalog. *)
Definition activation_with_model (model : string) (t : ActivationTestCase.t)
  : ActivationTestCase.t :=
  {| ActivationTestCase.id := ActivationTestCase.id t;
     ActivationTestCase.query := ActivationTestCase.query t;
     ActivationTestCase.expected_skill := ActivationTestCase.expected_skill t;
     ActivationTestCase.should_activate := ActivationTestCase.should_activate t;
     ActivationTestCase.description := ActivationTestCase.description t;
     ActivationTestCase.model := Some model |}.

Definition quality_with_model (model : string) (t : QualityTestCase.t)
  : QualityTestCase.t :=
  {| QualityTestCase.id := QualityTestCase.id t;
     QualityTestCase.skill := QualityTestCase.skill t;
     QualityTestCase.query := QualityTestCase.query t;
     QualityTestCase.expected_facts := QualityTestCase.expected_facts t;
     QualityTestCase.must_not_contain := QualityTestCase.must_not_contain t;
     QualityTestCase.description := QualityTestCase.description t;
     QualityTestCase.model := Some model |}.

(** The first version of the page: the tests of a catalog are run one by
    one from the page. [template error] is the text of [`${error}`]; the
    [i]-th call of a test command meets the world [agent E i]. *)
Module PerTestPage.
Section PerTestPage.
Context (E : Env) (template : Thrown → string).
Context (activation_tests : list ActivationTestCase.t).
Context (qualityTests : list QualityTestCase.t).

(** [for (let i = ...; i < activation_tests.length; i++)], from index [i] on. *)
Fixpoint for_each_activation_test (tests : list ActivationTestCase.t) (i : nat)
    (page : Page.t) : Page.t :=
  match tests with
  | [] => page
  | test :: rest =>
      let page :=
        Page.set_current_test
          ("Running activation test " +:+ pretty (i + 1)%nat +:+ "/"
           +:+ pretty (length activation_tests) +:+ ": " +:+ ActivationTestCase.id test)
          page in
      let page :=
        match test_skill_activation E
                (activation_with_model (Page.selected_model page) test) (agent E i) with
        | Returned result =>
            let page :=
              Page.set_activation_results (Page.activation_results page ++ [result])
                page in
            Page.set_current_logs
              (Page.current_logs page ++ ActivationTestResult.logs result) page
        | Threw error =>
            Page.set_current_logs
              (Page.current_logs page ++ ["Error: " +:+ template error]) page
        end in
      for_each_activation_test rest (S i) page
  end.

Definition run_all_activation_tests (page : Page.t) : Page.t :=
  let page := Page.set_is_running true page in
  let page := Page.set_activation_results [] page in
  let page := Page.set_current_logs [] page in
  let page := for_each_activation_test activation_tests 0 page in
  let page := Page.set_is_running false page in
  Page.set_current_test "" page.

Fixpoint for_each_quality_test (tests : list QualityTestCase.t) (i : nat)
    (page : Page.t) : Page.t :=
  match tests with
  | [] => page
  | test :: rest =>
      let page :=
        Page.set_current_test
          ("Running quality test " +:+ pretty (i + 1)%nat +:+ "/"
           +:+ pretty (length qualityTests) +:+ ": " +:+ QualityTestCase.id test)
          page in
      let page :=
        match test_response_quality E
                (quality_with_model (Page.selected_model page) test) (agent E i) with
        | Returned result =>
            let page :=
              Page.set_quality_results (Page.quality_results page ++ [result]) page in
            Page.set_current_logs
              (Page.current_logs page ++ QualityTestResult.logs result) page
        | Threw error =>
            Page.set_current_logs
              (Page.current_logs page ++ ["Error: " +:+ template error]) page
        end in
      for_each_quality_test rest (S i) page
  end.

Definition run_all_quality_tests (page : Page.t) : Page.t :=
  let page := Page.set_is_running true page in
  let page := Page.set_quality_results [] page in
  let page := Page.set_current_logs [] page in
  let page := for_each_quality_test qualityTests 0 page in
  let page := Page.set_is_running false page in
  Page.set_current_test "" page.

End PerTestPage.
End PerTestPage.

(** [selected.length > 0 ? tests.filter((t) => selected.includes(t.id)) : tests]. *)
Definition tests_to_run {C} (id : C → string) (selected : list string) (tests : list C)
  : list C :=
  if bool_decide (0 < length selected)%nat
  then List.filter (λ t, existsb (String.eqb (id t)) selected) tests
  else tests.

(** The second version of the page: the selected tests are handed to the
    batch command. *)
Module BatchPage.
Section BatchPage.
Context (E : Env) (template : Thrown → string).
Context (activation_tests : list ActivationTestCase.t).
Context (qualityTests : list QualityTestCase.t).

Definition run_all_activation_tests (page : Page.t) : M Db Page.t :=
  let page := Page.set_is_running true page in
  let page := Page.set_activation_results [] page in
  let page := Page.set_current_logs [] page in
  let tests_to_run :=
    tests_to_run ActivationTestCase.id (Page.selected_activation_tests page)
      activation_tests in
  let page :=
    Page.set_current_test
      ("Running " +:+ pretty (length tests_to_run) +:+ " activation tests...") page in
  page ← try_catch
    (results ← run_activation_tests E
                 (activation_with_model (Page.selected_model page) <$> tests_to_run);
     let page := Page.set_activation_results results page in
     mret (Page.set_current_logs (concat (ActivationTestResult.logs <$> results)) page))
    (λ error, mret (Page.set_current_logs ["Error: " +:+ template error] page));
  let page := Page.set_is_running false page in
  mret (Page.set_current_test "" page).

Definition run_all_quality_tests (page : Page.t) : M Db Page.t :=
  let page := Page.set_is_running true page in
  let page := Page.set_quality_results [] page in
  let page := Page.set_current_logs [] page in
  let tests_to_run :=
    tests_to_run QualityTestCase.id (Page.selected_quality_tests page) qualityTests in
  let page :=
    Page.set_current_test
      ("Running " +:+ pretty (length tests_to_run) +:+ " quality tests...") page in
  page ← try_catch
    (results ← run_quality_tests E
                 (quality_with_model (Page.selected_model page) <$> tests_to_run);
     let page := Page.set_quality_results results page in
     mret (Page.set_current_logs (concat (QualityTestResult.logs <$> results)) page))
    (λ error, mret (Page.set_current_logs ["Error: " +:+ template error] page));
  let page := Page.set_is_running false page in
  mret (Page.set_current_test "" page).

End BatchPage.
End BatchPage.

(* ================================================================== *)
(** ** A concrete world for the examples *)
(* ================================================================== *)

(** Modelled from the spec: [calculate_total_tokens] of
    [evals/metrics-tracker] is not under src/; the sum of the four billed
    counters. *)
Definition spec_total_tokens (usage : UsageData.t) : Outcome Z :=
  Returned (UsageData.input_tokens usage + UsageData.output_tokens usage
            + UsageData.cache_creation_tokens usage + UsageData.cache_read_tokens usage).

(** Modelled from the spec: [calculate_cost] of [evals/cost-calculator] is
    not under src/; the rates of the spec's scenario (per million tokens: 3,
    15 and 0.3, and 3.75 for a cache write) for the default model, and a
    loud failure for any other model. *)
Definition spec_cost (usage : UsageData.t) (model : string) : Outcome Qc :=
  if String.eqb model default_model then
    Returned ((Qc_of_Z (UsageData.input_tokens usage) * Qc_of_Z 3
               + Qc_of_Z (UsageData.output_tokens usage) * Qc_of_Z 15
               + Qc_of_Z (UsageData.cache_read_tokens usage) * Qc_of_Z 3 / Qc_of_Z 10
               + Qc_of_Z (UsageData.cache_creation_tokens usage) * Qc_of_Z 15 / Qc_of_Z 4)
              / Qc_of_Z 1000000)%Qc
  else Threw (ThrownError ("Unknown model: " +:+ model)).

(** A world whose storage works: two skill versions are stored, identifiers
    are [run-0], [run-1], ..., the clock of the storage commands reads
    [1000 + n], and every test is answered by [answer]. *)
Definition working_world (answer : nat → Invocation) : Env :=
  {| calculate_total_tokens := spec_total_tokens;
     calculate_cost := spec_cost;
     store_skill_versions :=
       mret [ SkillVersion.mk "v1" "svelte5-runes" "h1";
              SkillVersion.mk "v2" "sveltekit-structure" "h2" ];
     link_test_run_to_skill_versions := λ _ _, mret ();
     agent := answer;
     uuid_source := λ n, "run-" +:+ pretty n;
     clock := λ n, 1000 + Z.of_nat n;
     db_fault := λ _, None |}.

Definition empty_db : Db := {| ops := []; uuids := 0; ticks := 0 |}.

(** An assistant message that reports 10 input and 5 output tokens. *)
Definition assistant (blocks : list ContentBlock) : SDKMessage :=
  AssistantMessage (Some (MsgUsage.mk (Some 10) (Some 5) None None None))
    (ContentArray blocks).

(** A tool use [Skill] with input [{skill: name}]. *)
Definition skill_use (name : string) : ContentBlock :=
  ToolUseBlock "Skill" (InputObject {[ "skill" := VString name ]}).

(** An invocation that lasts 42 ms. *)
Definition invocation (stream : AgentStream) : Invocation :=
  {| reply := stream; start_time := 5; end_time := 47 |}.

(** The agent answers with one text and ends. *)
Definition answers (text : string) : Invocation :=
  invocation (StreamYield (assistant [TextBlock text]) StreamDone).

(** The agent yields a partial answer and the connection is lost. *)
Definition breaks_after (text : string) : Invocation :=
  invocation (StreamYield (assistant [TextBlock text])
                (StreamThrow (ThrownError "connection lost"))).

(** The quality case of the spec's scenarios. *)
Definition onclick_case : QualityTestCase.t :=
  {| QualityTestCase.id := "runes-events";
     QualityTestCase.skill := svelte5_runes;
     QualityTestCase.query := "How do I handle a click?";
     QualityTestCase.expected_facts := Some ["onclick"];
     QualityTestCase.must_not_contain := Some ["on:click"];
     QualityTestCase.description := "event handlers";
     QualityTestCase.model := None |}.

(** An activation case that expects [svelte5-runes]. *)
Definition runes_case : ActivationTestCase.t :=
  {| ActivationTestCase.id := "runes-state";
     ActivationTestCase.query := "How do I use $state?";
     ActivationTestCase.expected_skill := svelte5_runes;
     ActivationTestCase.should_activate := true;
     ActivationTestCase.description := "state rune";
     ActivationTestCase.model := None |}.

(** The agent names a skill by the empty string, then the expected skill. *)
Definition empty_then_runes : Invocation :=
  invocation (StreamYield (assistant [skill_use ""])
                (StreamYield (assistant [skill_use "svelte5-runes"]) StreamDone)).

(** The agent names a skill by the empty string and the connection is lost. *)
Definition empty_then_lost : Invocation :=
  invocation (StreamYield (assistant [skill_use ""])
                (StreamThrow (ThrownError "connection lost"))).

(** The agent names a skill by the empty string and ends. *)
Definition empty_only : Invocation :=
  invocation (StreamYield (assistant [skill_use ""]) StreamDone).

(** The working world, except that linking the run to the skill versions
    throws. *)
Definition linking_fails (answer : nat → Invocation) : Env :=
  {| calculate_total_tokens := spec_total_tokens;
     calculate_cost := spec_cost;
     store_skill_versions := store_skill_versions (working_world answer);
     link_test_run_to_skill_versions := λ _ _,
       throw (ThrownError "no such table: test_run_skill_versions");
     agent := answer;
     uuid_source := uuid_source (working_world answer);
     clock := clock (working_world answer);
     db_fault := λ _, None |}.

(** The agent names the expected skill at once. *)
Definition names_runes : Invocation :=
  invocation (StreamYield (assistant [skill_use "svelte5-runes"]) StreamDone).

(** The agent fails on the first case of a batch and names the expected
    skill on the others. *)
Definition flaky (i : nat) : Invocation :=
  match i with
  | O => breaks_after "Let me check"
  | S _ => names_runes
  end.

(** Metrics that are all zero. *)
Definition zero_metrics : Metrics.t :=
  {| Metrics.input_tokens := 0;
     Metrics.output_tokens := 0;
     Metrics.cache_creation_tokens := 0;
     Metrics.cache_read_tokens := 0;
     Metrics.thinking_tokens := Some 0;
     Metrics.total_tokens := 0;
     Metrics.latency_ms := 0;
     Metrics.estimated_cost_usd := 0%Qc |}.

(** The working world, except that the third call on the handle fails: in
    a batch, the statement that inserts the first result cannot be
    prepared. *)
Definition third_call_fails (answer : nat → Invocation) : Env :=
  {| calculate_total_tokens := spec_total_tokens;
     calculate_cost := spec_cost;
     store_skill_versions := store_skill_versions (working_world answer);
     link_test_run_to_skill_versions :=
       link_test_run_to_skill_versions (working_world answer);
     agent := answer;
     uuid_source := uuid_source (working_world answer);
     clock := clock (working_world answer);
     db_fault := λ n, if (n =? 2)%nat then Some (ThrownError "database is locked")
                      else None |}.

(** The working world, except that every call on the handle fails. *)
Definition broken_database (answer : nat → Invocation) : Env :=
  {| calculate_total_tokens := spec_total_tokens;
     calculate_cost := spec_cost;
     store_skill_versions := store_skill_versions (working_world answer);
     link_test_run_to_skill_versions :=
       link_test_run_to_skill_versions (working_world answer);
     agent := answer;
     uuid_source := uuid_source (working_world answer);
     clock := clock (working_world answer);
     db_fault := λ _, Some (ThrownError "unable to open database file") |}.

(** A quality result with a missing fact, a forbidden content and two lines
    of log. *)
Definition failed_quality_result : QualityTestResult.t :=
  {| QualityTestResult.test_id := "runes-events";
     QualityTestResult.passed := false;
     QualityTestResult.missing_facts := ["onclick"];
     QualityTestResult.forbidden_content := ["on:click"];
     QualityTestResult.response_preview := "Use on:click";
     QualityTestResult.response_full_text := Some "Use on:click";
     QualityTestResult.error := None;
     QualityTestResult.logs := ["first line"; "second line"];
     QualityTestResult.metrics := None |}.

(** A quality case that forbids the empty string. *)
Definition forbids_empty_case : QualityTestCase.t :=
  {| QualityTestCase.id := "forbids-empty";
     QualityTestCase.skill := svelte5_runes;
     QualityTestCase.query := "How do I handle a click?";
     QualityTestCase.expected_facts := Some [""; "onclick"];
     QualityTestCase.must_not_contain := Some [""];
     QualityTestCase.description := "empty strings";
     QualityTestCase.model := None |}.

(** An activation case that expects [sveltekit-structure]. *)
Definition structure_case : ActivationTestCase.t :=
  {| ActivationTestCase.id := "structure-routes";
     ActivationTestCase.query := "Where do I put my routes?";
     ActivationTestCase.expected_skill := sveltekit_structure;
     ActivationTestCase.should_activate := true;
     ActivationTestCase.description := "routes";
     ActivationTestCase.model := Some "claude-opus-4-1-20250805" |}.

(** A page on which the default model is selected, with a selection of
    activation tests that names one test of the catalog twice and a test
    the catalog does not hold, and with no quality test selected. *)
Definition example_page : Page.t :=
  {| Page.activation_results := [];
     Page.quality_results := [];
     Page.is_running := false;
     Page.current_test := "";
     Page.current_logs := ["a line of an earlier run"];
     Page.selected_model := default_model;
     Page.selected_activation_tests :=
       ["structure-routes"; "no-such-test"; "structure-routes"];
     Page.selected_quality_tests := [] |}.

(** [`${error}`] for the errors of the examples. *)
Definition example_template (error : Thrown) : string :=
  match error with
  | ThrownError message => "Error: " +:+ message
  | ThrownOther => "[object Object]"
  end.


(* ================================================================== *)
(** ** Specification-side definitions *)
(* ================================================================== *)

(** The stream that yields [messages] and goes on as [rest]. *)
Fixpoint yield_all (messages : list SDKMessage) (rest : AgentStream) : AgentStream :=
  match messages with
  | [] => rest
  | message :: messages' => StreamYield message (yield_all messages' rest)
  end.

(** The messages a stream yields before it ends or throws, and how it ends. *)
Fixpoint yielded (stream : AgentStream) : list SDKMessage :=
  match stream with
  | StreamYield message rest => message :: yielded rest
  | _ => []
  end.

Fixpoint stream_end (stream : AgentStream) : option Thrown :=
  match stream with
  | StreamDone => None
  | StreamYield _ rest => stream_end rest
  | StreamThrow error => Some error
  end.

(** The text of the text blocks of a message, an assistant message with an
    array of blocks, in order. *)
Definition block_text (block : ContentBlock) : string :=
  match block with
  | TextBlock text => text
  | _ => ""
  end.

(** The strings of a list, one after the other. *)
Definition concat_all (xs : list string) : string := foldr String.append "" xs.

Definition message_text (message : SDKMessage) : string :=
  match message with
  | AssistantMessage _ (ContentArray blocks) => concat_all (block_text <$> blocks)
  | _ => ""
  end.

(** The response text accumulated over a list of messages. *)
Definition accumulated_text (messages : list SDKMessage) : string :=
  concat_all (message_text <$> messages).

(** The usage counters accumulated over a list of messages. *)
Definition accumulated_usage (messages : list SDKMessage) : UsageData.t :=
  foldl add_message_usage usage_zero messages.

(** The skill named by the first block of a message that is a [Skill] tool
    use with a [skill] field. *)
Definition message_skill (message : SDKMessage) : option string :=
  match message with
  | AssistantMessage _ (ContentArray blocks) =>
      js_String <$> head (omap skill_field blocks)
  | _ => None
  end.

(** The log lines both commands start with, up to the loop over the messages. *)
Definition activation_header (test_case : ActivationTestCase.t) : list string :=
  [ "[ACTIVATION TEST] Starting: " +:+ ActivationTestCase.id test_case;
    "[ACTIVATION TEST] Using model: "
      +:+ or_string (ActivationTestCase.model test_case) default_model;
    "[ACTIVATION TEST] Query: " +:+ dquote +:+ ActivationTestCase.query test_case
      +:+ dquote;
    "[ACTIVATION TEST] Calling Claude Agent SDK...";
    "[ACTIVATION TEST] Processing messages..." ].

Definition quality_header (test_case : QualityTestCase.t) : list string :=
  [ "[QUALITY TEST] Starting: " +:+ QualityTestCase.id test_case;
    "[QUALITY TEST] Using model: "
      +:+ or_string (QualityTestCase.model test_case) default_model;
    "[QUALITY TEST] Query: " +:+ dquote +:+ QualityTestCase.query test_case +:+ dquote;
    "[QUALITY TEST] Calling Claude Agent SDK...";
    "[QUALITY TEST] Processing messages..." ].

(** The result of the [catch] clause of each command, given the lines logged
    before the error. *)
Definition activation_error_result (test_case : ActivationTestCase.t) (error : Thrown)
    (logged : list string) : ActivationTestResult.t :=
  {| ActivationTestResult.test_id := ActivationTestCase.id test_case;
     ActivationTestResult.passed := false;
     ActivationTestResult.expected_skill :=
       skill_name (ActivationTestCase.expected_skill test_case);
     ActivationTestResult.activated_skill := None;
     ActivationTestResult.error := Some (error_text error);
     ActivationTestResult.logs :=
       logged ++ [ "[ACTIVATION TEST] Error in " +:+ ActivationTestCase.id test_case
                   +:+ ": " +:+ error_text error ];
     ActivationTestResult.metrics := None |}.

Definition quality_error_result (test_case : QualityTestCase.t) (error : Thrown)
    (logged : list string) : QualityTestResult.t :=
  {| QualityTestResult.test_id := QualityTestCase.id test_case;
     QualityTestResult.passed := false;
     QualityTestResult.missing_facts := [];
     QualityTestResult.forbidden_content := [];
     QualityTestResult.response_preview := "";
     QualityTestResult.response_full_text := None;
     QualityTestResult.error := Some (error_text error);
     QualityTestResult.logs :=
       logged ++ [ "[QUALITY TEST] Error in " +:+ QualityTestCase.id test_case
                   +:+ ": " +:+ error_text error ];
     QualityTestResult.metrics := None |}.

(** The result each command returns when nothing throws, given what the loop
    over the messages and the two metric helpers returned. *)
Definition activation_passed (test_case : ActivationTestCase.t)
    (activated_skill : option string) : bool :=
  bool_decide (activated_skill
               = Some (skill_name (ActivationTestCase.expected_skill test_case)))
  && ActivationTestCase.should_activate test_case.

Definition metrics_of (usage : UsageData.t) (total_tokens latency_ms : Z)
    (estimated_cost_usd : Qc) : Metrics.t :=
  {| Metrics.input_tokens := UsageData.input_tokens usage;
     Metrics.output_tokens := UsageData.output_tokens usage;
     Metrics.cache_creation_tokens := UsageData.cache_creation_tokens usage;
     Metrics.cache_read_tokens := UsageData.cache_read_tokens usage;
     Metrics.thinking_tokens := Some (UsageData.thinking_tokens usage);
     Metrics.total_tokens := total_tokens;
     Metrics.latency_ms := latency_ms;
     Metrics.estimated_cost_usd := estimated_cost_usd |}.

Definition activation_success_result (test_case : ActivationTestCase.t)
    (world : Invocation) (activated_skill : option string) (usage : UsageData.t)
    (total_tokens : Z) (estimated_cost_usd : Qc) (logged : list string)
  : ActivationTestResult.t :=
  let latency_ms := end_time world - start_time world in
  {| ActivationTestResult.test_id := ActivationTestCase.id test_case;
     ActivationTestResult.passed := activation_passed test_case activated_skill;
     ActivationTestResult.expected_skill :=
       skill_name (ActivationTestCase.expected_skill test_case);
     ActivationTestResult.activated_skill := activated_skill;
     ActivationTestResult.error := None;
     ActivationTestResult.logs :=
       logged
       ++ [ "[ACTIVATION TEST] " +:+ ActivationTestCase.id test_case
            +:+ " - Expected: "
            +:+ skill_name (ActivationTestCase.expected_skill test_case)
            +:+ ", Got: " +:+ show_nullable activated_skill
            +:+ ", Passed: " +:+ show_bool (activation_passed test_case activated_skill);
            "[ACTIVATION TEST] Metrics - Tokens: " +:+ pretty total_tokens
            +:+ ", Latency: " +:+ pretty latency_ms +:+ "ms, Cost: $"
            +:+ toFixed4 estimated_cost_usd ];
     ActivationTestResult.metrics :=
       Some (metrics_of usage total_tokens latency_ms estimated_cost_usd) |}.

(** The facts of [expected_facts] the response lacks and the strings of
    [must_not_contain] it holds, in the order of the test case. *)
Definition lacks (response_text fact : string) : bool :=
  negb (includes (toLowerCase response_text) (toLowerCase fact)).

Definition holds (response_text forbidden : string) : bool :=
  includes (toLowerCase response_text) (toLowerCase forbidden).

Definition missing_of (test_case : QualityTestCase.t) (response_text : string)
  : list string :=
  List.filter (lacks response_text) (default [] (QualityTestCase.expected_facts test_case)).

Definition forbidden_of (test_case : QualityTestCase.t) (response_text : string)
  : list string :=
  List.filter (holds response_text)
    (default [] (QualityTestCase.must_not_contain test_case)).

Definition quality_passed (test_case : QualityTestCase.t) (response_text : string)
  : bool :=
  bool_decide (length (missing_of test_case response_text) = 0%nat)
  && bool_decide (length (forbidden_of test_case response_text) = 0%nat).

Definition quality_success_result (test_case : QualityTestCase.t) (world : Invocation)
    (response_text : string) (usage : UsageData.t) (total_tokens : Z)
    (estimated_cost_usd : Qc) (logged : list string) : QualityTestResult.t :=
  let latency_ms := end_time world - start_time world in
  let missing_facts := missing_of test_case response_text in
  let forbidden_content := forbidden_of test_case response_text in
  {| QualityTestResult.test_id := QualityTestCase.id test_case;
     QualityTestResult.passed := quality_passed test_case response_text;
     QualityTestResult.missing_facts := missing_facts;
     QualityTestResult.forbidden_content := forbidden_content;
     QualityTestResult.response_preview := substring response_text 0 200;
     QualityTestResult.response_full_text := Some response_text;
     QualityTestResult.error := None;
     QualityTestResult.logs :=
       logged
       ++ [ "[QUALITY TEST] " +:+ QualityTestCase.id test_case +:+ " - Passed: "
            +:+ show_bool (quality_passed test_case response_text) ]
       ++ (if bool_decide (0 < length missing_facts)%nat
           then [ "[QUALITY TEST] Missing facts: " +:+ join missing_facts ", " ]
           else [])
       ++ (if bool_decide (0 < length forbidden_content)%nat
           then [ "[QUALITY TEST] Forbidden content found: "
                  +:+ join forbidden_content ", " ]
           else [])
       ++ [ "[QUALITY TEST] Metrics - Tokens: " +:+ pretty total_tokens
            +:+ ", Latency: " +:+ pretty latency_ms +:+ "ms, Cost: $"
            +:+ toFixed4 estimated_cost_usd ];
     QualityTestResult.metrics :=
       Some (metrics_of usage total_tokens latency_ms estimated_cost_usd) |}.

(** What [test_response_quality] returns, given the lines it logged before
    the result was built: the result of the [catch] clause when the stream or
    a metric helper throws, the result of the [try] block otherwise. *)
Definition quality_outcome (E : Env) (test_case : QualityTestCase.t)
    (world : Invocation) (logged : list string) : QualityTestResult.t :=
  match stream_end (reply world) with
  | Some error => quality_error_result test_case error logged
  | None =>
      let response_text := accumulated_text (yielded (reply world)) in
      let usage := accumulated_usage (yielded (reply world)) in
      match calculate_total_tokens E usage with
      | Threw error => quality_error_result test_case error logged
      | Returned total_tokens =>
          match calculate_cost E usage
                  (or_string (QualityTestCase.model test_case) default_model) with
          | Threw error => quality_error_result test_case error logged
          | Returned estimated_cost_usd =>
              quality_success_result test_case world response_text usage
                total_tokens estimated_cost_usd logged
          end
      end
  end.

(** What a result contributes to the accumulators of a batch. *)
Definition activation_score (r : ActivationTestResult.t) : option Metrics.t * bool :=
  (ActivationTestResult.metrics r, ActivationTestResult.passed r).

Definition quality_score (r : QualityTestResult.t) : option Metrics.t * bool :=
  (QualityTestResult.metrics r, QualityTestResult.passed r).

Definition aggregate_all (totals : Totals.t) (scores : list (option Metrics.t * bool))
  : Totals.t :=
  foldl (λ totals score, aggregate totals score.1 score.2) totals scores.

(** The number of results that passed and the sum of the latencies of the
    results that carry metrics. *)
Definition passed_among (scores : list (option Metrics.t * bool)) : Z :=
  Z.of_nat (length (List.filter snd scores)).

Definition latency_among (scores : list (option Metrics.t * bool)) : Z :=
  foldr (λ score sum, from_option Metrics.latency_ms 0 score.1 + sum) 0 scores.

(** The results of a batch from index [i] on: one per case and in the order
    of the cases, the [k]-th being what the test command returns for the
    [k]-th case in the world of index [i + k]. *)
Definition activation_results_of (E : Env) (i : nat)
    (test_cases : list ActivationTestCase.t) (results : list ActivationTestResult.t)
  : Prop :=
  length results = length test_cases
  ∧ ∀ k test_case, test_cases !! k = Some test_case →
      ∃ r, results !! k = Some r
           ∧ test_skill_activation E test_case (agent E (i + k)) = Returned r.

Definition quality_results_of (E : Env) (i : nat)
    (test_cases : list QualityTestCase.t) (results : list QualityTestResult.t)
  : Prop :=
  length results = length test_cases
  ∧ ∀ k test_case, test_cases !! k = Some test_case →
      ∃ r, results !! k = Some r
           ∧ test_response_quality E test_case (agent E (i + k)) = Returned r.

#[global] Instance Sql_eq_dec : EqDecision Sql.
Proof. solve_decision. Defined.

(** The parameters of the runs of statement [sql] among the calls [calls]. *)
Definition runs_of (sql : Sql) (calls : list DbOp) : list (list SqlValue) :=
  omap (λ op, match op with
              | Run stmt params => if bool_decide (stmt = sql) then Some params else None
              | Prepare _ => None
              end) calls.

(** The calls made on the handle by a command started in [db]. *)
Definition calls_of {A} (command : M Db A) (db : Db) : list DbOp :=
  drop (length (ops db)) (ops (command db).2).

(** The lines of a log that report a message taken from the stream. *)
Definition messages_logged (logs : list string) : nat :=
  length (List.filter (String.prefix "[ACTIVATION TEST] Message type: ") logs).

(** A result with its metrics replaced. *)
Definition activation_with_metrics (r : ActivationTestResult.t)
    (metrics : option Metrics.t) : ActivationTestResult.t :=
  {| ActivationTestResult.test_id := ActivationTestResult.test_id r;
     ActivationTestResult.passed := ActivationTestResult.passed r;
     ActivationTestResult.expected_skill := ActivationTestResult.expected_skill r;
     ActivationTestResult.activated_skill := ActivationTestResult.activated_skill r;
     ActivationTestResult.error := ActivationTestResult.error r;
     ActivationTestResult.logs := ActivationTestResult.logs r;
     ActivationTestResult.metrics := metrics |}.

Definition quality_with_metrics (r : QualityTestResult.t)
    (metrics : option Metrics.t) : QualityTestResult.t :=
  {| QualityTestResult.test_id := QualityTestResult.test_id r;
     QualityTestResult.passed := QualityTestResult.passed r;
     QualityTestResult.missing_facts := QualityTestResult.missing_facts r;
     QualityTestResult.forbidden_content := QualityTestResult.forbidden_content r;
     QualityTestResult.response_preview := QualityTestResult.response_preview r;
     QualityTestResult.response_full_text := QualityTestResult.response_full_text r;
     QualityTestResult.error := QualityTestResult.error r;
     QualityTestResult.logs := QualityTestResult.logs r;
     QualityTestResult.metrics := metrics |}.

(** The value of [activated_skill] after a message: the skill the message
    names, if it names one, and the value before otherwise. *)
Definition after_message (activated_skill : option string) (message : SDKMessage)
  : option string :=
  match message_skill message with
  | Some skill => Some skill
  | None => activated_skill
  end.

(** A command of the storage only adds calls to those made so far. *)
Definition appends {A} (command : M Db A) : Prop :=
  ∀ db, ∃ more, ops (command db).2 = ops db ++ more.

(** The usage record of a message, when it is an assistant message that
    carries one. *)
Definition message_usage (message : SDKMessage) : option MsgUsage.t :=
  match message with
  | AssistantMessage usage _ => usage
  | OtherMessage _ => None
  end.

(** The sum, over a list of messages, of one counter of their usage records;
    a message without usage and a record without the counter count as 0. *)
Definition reported (counter : MsgUsage.t → option Z) (messages : list SDKMessage) : Z :=
  foldr (λ message sum,
           from_option (λ usage, or_zero (counter usage)) 0 (message_usage message) + sum)
        0 messages.

(** The usage whose five counters are the sums of what the messages report. *)
Definition reported_usage (messages : list SDKMessage) : UsageData.t :=
  {| UsageData.input_tokens := reported MsgUsage.input_tokens messages;
     UsageData.output_tokens := reported MsgUsage.output_tokens messages;
     UsageData.cache_creation_tokens :=
       reported MsgUsage.cache_creation_input_tokens messages;
     UsageData.cache_read_tokens := reported MsgUsage.cache_read_input_tokens messages;
     UsageData.thinking_tokens := reported MsgUsage.thinking_tokens messages |}.

(** The messages the loop of the activation path takes from a stream: all
    of them up to and including the first that names a skill by a non-empty
    string. *)
Fixpoint consumed (stream : AgentStream) : list SDKMessage :=
  match stream with
  | StreamYield message rest =>
      if truthy (message_skill message) then [message] else message :: consumed rest
  | _ => []
  end.

(** The error that loop meets: the one the stream throws, unless a message
    before names a skill by a non-empty string. *)
Fixpoint failure_met (stream : AgentStream) : option Thrown :=
  match stream with
  | StreamDone => None
  | StreamThrow error => Some error
  | StreamYield message rest =>
      if truthy (message_skill message) then None else failure_met rest
  end.

(** The first non-empty skill name a stream yields in a [Skill] tool use that
    is the first of its message. *)
Fixpoint first_named (stream : AgentStream) : option string :=
  match stream with
  | StreamYield message rest =>
      if truthy (message_skill message) then message_skill message
      else first_named rest
  | _ => None
  end.

(** The stream with only what the loop of the activation path takes from it:
    nothing after the first message that names a skill by a non-empty
    string. *)
Fixpoint cut_at_activation (stream : AgentStream) : AgentStream :=
  match stream with
  | StreamYield message rest =>
      if truthy (message_skill message) then StreamYield message StreamDone
      else StreamYield message (cut_at_activation rest)
  | _ => stream
  end.

(** A world whose database does not fail: no call on the handle throws. *)
Definition fault_free (E : Env) : Prop := ∀ n, db_fault E n = None.

(** The rows written for the lines of a log: the clock is read once per
    line, from reading [tick] on. *)
Fixpoint log_rows (E : Env) (result_id : string) (tick : nat) (logs : list string)
  : list (list SqlValue) :=
  match logs with
  | [] => []
  | log :: logs =>
      [ SqlText result_id; SqlText log; SqlInteger (clock E tick) ]
      :: log_rows E result_id (S tick) logs
  end.

(** The rows written for a list of missing facts or of forbidden contents. *)
Definition item_rows (result_id : string) (items : list string) : list (list SqlValue) :=
  (λ item, [ SqlText result_id; SqlText item ]) <$> items.

(** The calls that insert [rows] with one statement: none when there is no
    row, and otherwise the statement is prepared once and run once per row. *)
Definition insert_calls (sql : Sql) (rows : list (list SqlValue)) : list DbOp :=
  match rows with
  | [] => []
  | _ => Prepare sql :: (Run sql <$> rows)
  end.

(** A command of the storage stops at the first call that fails: when it
    returns, none of its calls failed; when it throws, it throws the error
    of its last call, and no call before failed. *)
Definition stops_at_fault (E : Env) {A} (command : M Db A) : Prop :=
  ∀ db, ∃ calls,
    ops (command db).2 = ops db ++ calls
    ∧ match (command db).1 with
      | Returned _ =>
          ∀ k, (k < length calls)%nat → db_fault E (length (ops db) + k) = None
      | Threw error =>
          ∃ k, length calls = S k
               ∧ db_fault E (length (ops db) + k) = Some error
               ∧ ∀ j, (j < k)%nat → db_fault E (length (ops db) + j) = None
      end.

(** The columns of a row of [activation_results] between the identifier of
    the row and its time of creation, as a batch stores the result [r] of
    the case [test_case]. *)
Definition activation_columns (run_id : string) (test_case : ActivationTestCase.t)
    (r : ActivationTestResult.t) : list SqlValue :=
  [ SqlText run_id;
    SqlText (ActivationTestCase.id test_case);
    SqlText (ActivationTestCase.query test_case);
    SqlText (ActivationTestResult.expected_skill r);
    nullable_text (ActivationTestResult.activated_skill r);
    sql_bool (ActivationTestCase.should_activate test_case);
    sql_bool (ActivationTestResult.passed r);
    text_or_null (ActivationTestResult.error r);
    SqlText "synthetic";
    SqlNull ]
  ++ metric_params (ActivationTestResult.metrics r).

(** The same for a row of [quality_results]. *)
Definition quality_columns (run_id : string) (test_case : QualityTestCase.t)
    (r : QualityTestResult.t) : list SqlValue :=
  [ SqlText run_id;
    SqlText (QualityTestCase.id test_case);
    SqlText (skill_name (QualityTestCase.skill test_case));
    SqlText (QualityTestCase.query test_case);
    SqlText (QualityTestResult.response_preview r);
    text_or_null (QualityTestResult.response_full_text r);
    sql_bool (QualityTestResult.passed r);
    text_or_null (QualityTestResult.error r);
    SqlText "synthetic";
    SqlNull ]
  ++ metric_params (QualityTestResult.metrics r).

(** The rows of results of a batch, without their time of creation: the
    [k]-th is keyed by the identifier drawn [k] draws after number [uuid]. *)
Fixpoint result_rows {C R} (E : Env) (columns : C → R → list SqlValue) (uuid : nat)
    (test_cases : list C) (results : list R) : list (list SqlValue) :=
  match test_cases, results with
  | test_case :: test_cases, r :: results =>
      (SqlText (uuid_source E uuid) :: columns test_case r)
      :: result_rows E columns (S uuid) test_cases results
  | _, _ => []
  end.

(** The rows of a child table of a batch: the items of the [k]-th result are
    keyed by the identifier of its row. *)
Fixpoint child_rows {R} (E : Env) (items : R → list string) (uuid : nat)
    (results : list R) : list (list SqlValue) :=
  match results with
  | [] => []
  | r :: results =>
      item_rows (uuid_source E uuid) (items r) ++ child_rows E items (S uuid) results
  end.

(** The parameters of the update of a run. *)
Definition update_params (u : RunUpdate.t) (run_id : string) : list SqlValue :=
  [ SqlInteger (RunUpdate.passed_tests u);
    SqlInteger (RunUpdate.failed_tests u);
    SqlInteger (RunUpdate.total_input_tokens u);
    SqlInteger (RunUpdate.total_output_tokens u);
    SqlInteger (RunUpdate.total_cache_read_tokens u);
    SqlInteger (RunUpdate.total_latency_ms u);
    SqlReal (RunUpdate.total_cost_usd u);
    SqlReal (RunUpdate.avg_latency_ms u);
    SqlText run_id ].

(** How many times statement [sql] is prepared among the calls. *)
Definition attempts (sql : Sql) (calls : list DbOp) : nat :=
  length (List.filter (λ op, match op with
                             | Prepare stmt => bool_decide (stmt = sql)
                             | Run _ _ => false
                             end) calls).

(** A call that prepares the insert into a child table, or that runs a
    statement. *)
Definition child_call (op : DbOp) : Prop :=
  match op with
  | Prepare (INSERT_missing_facts | INSERT_forbidden_content | INSERT_test_logs _) => True
  | Prepare _ => False
  | Run _ _ => True
  end.

(** A command of the storage only adds calls, all of which satisfy [P]. *)
Definition calls_satisfy (P : DbOp → Prop) {A} (command : M Db A) : Prop :=
  ∀ db, ∃ calls, ops (command db).2 = ops db ++ calls ∧ Forall P calls.

(** The sum of one counter, and of the cost, over the results of a batch
    that carry metrics. *)
Definition total_among (counter : Metrics.t → Z)
    (scores : list (option Metrics.t * bool)) : Z :=
  foldr (λ score sum, from_option counter 0 score.1 + sum) 0 scores.

Definition cost_among (scores : list (option Metrics.t * bool)) : Qc :=
  foldr (λ score sum, (from_option Metrics.estimated_cost_usd 0 score.1 + sum)%Qc)
        0%Qc scores.


(** The identifiers of a catalog that a selection keeps: all of them when
    nothing is selected, and otherwise those that occur in the selection, in
    the order of the catalog. *)
Definition selected_ids (selected : list string) (ids : list string) : list string :=
  if bool_decide (selected = []) then ids
  else List.filter (λ id, bool_decide (id ∈ selected)) ids.

(* ================================================================== *)
(** ** Tactics *)
(* ================================================================== *)

(** Unfolds the operations of the command monad. *)
Ltac unfold_monad :=
  cbv [mbind M_bind mret M_ret try_catch throw get modify lift_outcome log
       with_local outer assign].

(** Replaces the result [r] of an evaluation [Hr : command = Returned r] at a
    concrete input by its value. *)
Ltac evaluate_result Hr r :=
  let Hc := fresh "Hc" in
  pose proof Hr as Hc; vm_compute in Hc; injection Hc as Hc; subst r.

(* ================================================================== *)
(** ** Strings *)
(* ================================================================== *)

Lemma append_cons (c : Ascii.ascii) (s t : string) :
  String c s +:+ t = String c (s +:+ t).
Proof. reflexivity. Qed.

Lemma append_nil_l (t : string) : "" +:+ t = t.
Proof. reflexivity. Qed.

Lemma append_nil_r (s : string) : s +:+ "" = s.
Proof. induction s as [|c s IH]; [done|]. by rewrite append_cons, IH. Qed.

Lemma append_assoc (s1 s2 s3 : string) : (s1 +:+ s2) +:+ s3 = s1 +:+ (s2 +:+ s3).
Proof. induction s1 as [|c s1 IH]; [done|]. by rewrite !append_cons, IH. Qed.

(** [String.prefix p s] holds exactly when [s] starts with [p]. *)
Lemma prefix_spec (p s : string) : String.prefix p s = true ↔ ∃ t, s = p +:+ t.
Proof.
  revert s. induction p as [|c p IH]; intros s; cbn [String.prefix].
  - destruct s; split; eauto.
  - destruct s as [|d s]; [split; [done|by intros [t ?]]|].
    cbn [String.prefix]. destruct (Ascii.ascii_dec c d) as [->|Hne].
    + rewrite IH. split; intros [t Ht]; exists t; rewrite ?append_cons in *; congruence.
    + split; [done|]. intros [t Ht]. rewrite append_cons in Ht. congruence.
Qed.

(** [includes s sub] holds exactly when [sub] occurs in [s]. *)
Lemma includes_spec (s sub : string) :
  includes s sub = true ↔ ∃ before after, s = before +:+ sub +:+ after.
Proof.
  induction s as [|c s IH]; cbn [includes]; rewrite orb_true_iff, prefix_spec.
  - split.
    + intros [[t Ht]|?]; [|done]. by exists "", t.
    + intros (before & after & H). left. exists after.
      destruct before; [done|discriminate].
  - rewrite IH. split.
    + intros [[t Ht]|(before & after & Ht)].
      * by exists "", t.
      * exists (String c before), after. by rewrite append_cons, Ht.
    + intros ([|d before] & after & H).
      * left. by exists after.
      * right. exists before, after. rewrite append_cons in H. congruence.
Qed.

(** [s.substring(0, n)] is the prefix of [s] of length [min n (length s)]. *)
Lemma substring_0_prefix (s : string) (n : nat) :
  ∃ rest, s = substring s 0 n +:+ rest.
Proof.
  unfold substring. rewrite Nat.sub_0_r. revert s.
  induction n as [|n IH]; intros s.
  - exists s. by destruct s.
  - destruct s as [|c s]; [by exists ""|].
    destruct (IH s) as [rest Hrest]. exists rest.
    cbn [String.substring]. by rewrite append_cons, <- Hrest.
Qed.

Lemma substring_0_length (s : string) (n : nat) :
  String.length (substring s 0 n) = (n `min` String.length s)%nat.
Proof.
  unfold substring. rewrite Nat.sub_0_r. revert s.
  induction n as [|n IH]; intros s; [by destruct s|].
  destruct s as [|c s]; [done|]. cbn. by rewrite IH.
Qed.

(* ================================================================== *)
(** ** The two test commands, case by case *)
(* ================================================================== *)

Section CommandFacts.
Context (E : Env).

(** When the loop over the messages throws, the command returns the result
    of its [catch] clause. *)
Lemma activation_threw test_case world error logged :
  for_await_activation (reply world) None usage_zero (activation_header test_case)
  = (Threw error, logged) →
  test_skill_activation E test_case world
  = Returned (activation_error_result test_case error logged).
Proof.
  intros Hloop. unfold test_skill_activation, run_command, activation_body.
  unfold_monad. cbn [app]. fold (activation_header test_case).
  rewrite Hloop. reflexivity.
Qed.

(** When the loop returns, the command returns the result of its [try]
    block, or the result of its [catch] clause when a metric helper throws. *)
Lemma activation_returned test_case world activated_skill usage logged :
  for_await_activation (reply world) None usage_zero (activation_header test_case)
  = (Returned (activated_skill, usage), logged) →
  test_skill_activation E test_case world
  = Returned
      match calculate_total_tokens E usage with
      | Threw error => activation_error_result test_case error logged
      | Returned total_tokens =>
          match calculate_cost E usage
                  (or_string (ActivationTestCase.model test_case) default_model) with
          | Threw error => activation_error_result test_case error logged
          | Returned estimated_cost_usd =>
              activation_success_result test_case world activated_skill usage
                total_tokens estimated_cost_usd logged
          end
      end.
Proof.
  intros Hloop. unfold test_skill_activation, run_command, activation_body.
  unfold_monad. cbn [app]. fold (activation_header test_case).
  rewrite Hloop.
  destruct (calculate_total_tokens E usage) as [total_tokens|error]; [|reflexivity].
  destruct (calculate_cost E usage _) as [cost|error]; [|reflexivity].
  unfold activation_success_result, activation_passed, metrics_of.
  rewrite <- app_assoc. reflexivity.
Qed.

(** The command never throws: every error is caught and becomes a result. *)
Lemma test_skill_activation_returns test_case world :
  ∃ r, test_skill_activation E test_case world = Returned r.
Proof.
  destruct (for_await_activation (reply world) None usage_zero
              (activation_header test_case)) as [[[a u]|error] logged] eqn:Hloop.
  - rewrite (activation_returned _ _ _ _ _ Hloop). eauto.
  - rewrite (activation_threw _ _ _ _ Hloop). eauto.
Qed.

(** C1 (activation scoring). For every test case and every invocation the
    command returns a result, and when the result carries no error its
    [passed] flag is exactly
    [activated_skill === expected_skill && should_activate]. A result whose
    [activated_skill] is null has [passed = false], and so has every result
    of a case whose [should_activate] is false. *)
Theorem activation_passed_iff_expected_and_should (test_case : ActivationTestCase.t)
    (world : Invocation) :
  ∃ r, test_skill_activation E test_case world = Returned r
    ∧ (ActivationTestResult.error r = None →
       ActivationTestResult.passed r
       = bool_decide (ActivationTestResult.activated_skill r
                      = Some (ActivationTestResult.expected_skill r))
         && ActivationTestCase.should_activate test_case)
    ∧ ActivationTestResult.expected_skill r
      = skill_name (ActivationTestCase.expected_skill test_case)
    ∧ (ActivationTestResult.activated_skill r = None →
       ActivationTestResult.passed r = false)
    ∧ (ActivationTestCase.should_activate test_case = false →
       ActivationTestResult.passed r = false).
Proof.
  assert (Hnone : ∀ a, a = None → activation_passed test_case a = false).
  { intros a ->. unfold activation_passed. rewrite bool_decide_eq_false_2; done. }
  assert (Hshould : ∀ a, ActivationTestCase.should_activate test_case = false →
                         activation_passed test_case a = false).
  { intros a H. unfold activation_passed. rewrite H. apply andb_false_r. }
  destruct (for_await_activation (reply world) None usage_zero
              (activation_header test_case)) as [[[a u]|error] logged] eqn:Hloop.
  - rewrite (activation_returned _ _ _ _ _ Hloop).
    destruct (calculate_total_tokens E u) as [total|error];
      [destruct (calculate_cost E u _) as [cost|error]|];
      eexists; (split; [reflexivity|]); cbn; auto.
    all: repeat split; auto; discriminate.
  - rewrite (activation_threw _ _ _ _ Hloop).
    eexists; (split; [reflexivity|]); cbn. repeat split; auto; discriminate.
Qed.

End CommandFacts.

(* ================================================================== *)
(** ** The quality path *)
(* ================================================================== *)

Lemma collect_text_spec (blocks : list ContentBlock) (text : string) (logs : list string) :
  ∃ logged, collect_text blocks text logs
            = (Returned (text +:+ concat_all (block_text <$> blocks)), logs ++ logged).
Proof.
  revert text logs. induction blocks as [|block blocks IH]; intros text logs.
  - exists []. cbn. by rewrite append_nil_r, app_nil_r.
  - destruct block as [t|name input|type]; cbn [collect_text fmap list_fmap block_text
      concat_all foldr].
    + unfold_monad.
      match goal with
      | |- context [collect_text blocks ?t' ?l] => destruct (IH t' l) as [logged ->]
      end.
      eexists. by rewrite append_assoc, <- app_assoc.
    + destruct (IH text logs) as [logged ->]. by exists logged.
    + destruct (IH text logs) as [logged ->]. by exists logged.
Qed.

(** The loop of the quality path drains the stream: it returns the text and
    the usage accumulated over all the messages, or throws what the stream
    throws; the lines logged so far are kept in both cases. *)
Lemma for_await_quality_spec (stream : AgentStream) (text : string)
    (usage : UsageData.t) (logs : list string) :
  ∃ logged,
    for_await_quality stream text usage logs
    = (match stream_end stream with
       | Some error => Threw error
       | None => Returned (text +:+ accumulated_text (yielded stream),
                           foldl add_message_usage usage (yielded stream))
       end, logs ++ logged).
Proof.
  revert text usage logs.
  induction stream as [|message rest IH|error]; intros text usage logs.
  - exists []. cbn. by rewrite append_nil_r, app_nil_r.
  - cbn [for_await_quality stream_end yielded foldl]. unfold_monad.
    unfold accumulated_text. cbn [fmap list_fmap concat_all foldr].
    destruct message as [u [blocks|str]|type]; cbn [message_text].
    + match goal with
      | |- context [collect_text blocks ?t ?l] =>
          destruct (collect_text_spec blocks t l) as [logged1 ->]
      end.
      match goal with
      | |- context [for_await_quality rest ?t ?u ?l] =>
          destruct (IH t u l) as [logged2 ->]
      end.
      eexists. rewrite <- !app_assoc, <- append_assoc. reflexivity.
    + match goal with
      | |- context [for_await_quality rest ?t ?u ?l] =>
          destruct (IH t u l) as [logged ->]
      end.
      eexists. rewrite <- !app_assoc. reflexivity.
    + match goal with
      | |- context [for_await_quality rest ?t ?u ?l] =>
          destruct (IH t u l) as [logged ->]
      end.
      eexists. rewrite <- !app_assoc. reflexivity.
  - exists []. cbn. by rewrite app_nil_r.
Qed.

Lemma check_expected_facts_spec (text : string) (facts missing : list string) :
  check_expected_facts text facts missing = missing ++ List.filter (lacks text) facts.
Proof.
  revert missing. induction facts as [|fact facts IH]; intros missing; cbn.
  - by rewrite app_nil_r.
  - fold (lacks text fact). destruct (lacks text fact); rewrite IH; [|done].
    by rewrite <- app_assoc.
Qed.

Lemma check_must_not_contain_spec (text : string) (strings found : list string) :
  check_must_not_contain text strings found = found ++ List.filter (holds text) strings.
Proof.
  revert found. induction strings as [|x strings IH]; intros found; cbn.
  - by rewrite app_nil_r.
  - fold (holds text x). destruct (holds text x); rewrite IH; [|done].
    by rewrite <- app_assoc.
Qed.

Section QualityFacts.
Context (E : Env).

(** [test_response_quality] never throws, and its result is the one
    [quality_outcome] describes. *)
Lemma test_response_quality_cases (test_case : QualityTestCase.t) (world : Invocation) :
  ∃ logged,
    test_response_quality E test_case world
    = Returned (quality_outcome E test_case world (quality_header test_case ++ logged)).
Proof.
  unfold test_response_quality, run_command, quality_body, quality_outcome.
  unfold_monad. cbn [app]. fold (quality_header test_case).
  destruct (for_await_quality_spec (reply world) "" usage_zero
              (quality_header test_case)) as [logged ->].
  exists logged. fold (accumulated_usage (yielded (reply world))).
  destruct (stream_end (reply world)) as [error|]; [reflexivity|].
  rewrite append_nil_l.
  destruct (calculate_total_tokens E _) as [total|error]; [|reflexivity].
  destruct (calculate_cost E _ _) as [cost|error]; [|reflexivity].
  cbn [fst]. f_equal. unfold quality_success_result, quality_passed, missing_of,
    forbidden_of, metrics_of.
  destruct (QualityTestCase.expected_facts test_case) as [facts|];
    destruct (QualityTestCase.must_not_contain test_case) as [strings|];
    cbv [default from_option id]; rewrite ?check_expected_facts_spec,
      ?check_must_not_contain_spec; cbn [app List.filter];
    repeat (case_bool_decide; cbn [app]); rewrite <- ?app_assoc; reflexivity.
Qed.

End QualityFacts.

(** The fields of the two results of the quality command. *)
Lemma quality_outcome_error_free (E : Env) (test_case : QualityTestCase.t)
    (world : Invocation) (logged : list string) :
  QualityTestResult.error (quality_outcome E test_case world logged) = None →
  ∃ usage total_tokens cost,
    quality_outcome E test_case world logged
    = quality_success_result test_case world
        (accumulated_text (yielded (reply world))) usage total_tokens cost logged.
Proof.
  unfold quality_outcome.
  destruct (stream_end (reply world)); [done|].
  destruct (calculate_total_tokens E _); [|done].
  destruct (calculate_cost E _ _); [|done]. eauto.
Qed.

Lemma quality_outcome_error (E : Env) (test_case : QualityTestCase.t)
    (world : Invocation) (logged : list string) :
  QualityTestResult.error (quality_outcome E test_case world logged) ≠ None →
  ∃ error, quality_outcome E test_case world logged
           = quality_error_result test_case error logged.
Proof.
  unfold quality_outcome.
  destruct (stream_end (reply world)); [eauto|].
  destruct (calculate_total_tokens E _); [|eauto].
  destruct (calculate_cost E _ _); [|eauto]. done.
Qed.

Lemma length_zero_nil {A} (l : list A) : bool_decide (length l = 0%nat) = bool_decide (l = []).
Proof. destruct l; done. Qed.

(** C3 (quality scoring). On the path without error, [missing_facts] is the
    sublist, in input order, of the expected facts whose lower-case form does
    not occur in the lower-case response text; [forbidden_content] is the
    sublist, in input order, of the forbidden strings whose lower-case form
    does occur in it; and [passed] says that both are empty. Matching sees
    lower-case forms only, and a response holding [OnClick] matches the
    expected fact [onclick]. *)
Theorem quality_scoring_by_lowercase_containment (E : Env)
    (test_case : QualityTestCase.t) (world : Invocation) :
  (∃ r, test_response_quality E test_case world = Returned r
     ∧ (QualityTestResult.error r = None →
        let response_text := accumulated_text (yielded (reply world)) in
        QualityTestResult.response_full_text r = Some response_text
        ∧ QualityTestResult.missing_facts r
          = List.filter
              (λ fact, negb (includes (toLowerCase response_text) (toLowerCase fact)))
              (default [] (QualityTestCase.expected_facts test_case))
        ∧ QualityTestResult.forbidden_content r
          = List.filter
              (λ forbidden,
                 includes (toLowerCase response_text) (toLowerCase forbidden))
              (default [] (QualityTestCase.must_not_contain test_case))
        ∧ (∀ fact,
             In fact (QualityTestResult.missing_facts r)
             ↔ In fact (default [] (QualityTestCase.expected_facts test_case))
               ∧ ¬ ∃ before after,
                     toLowerCase response_text = before +:+ toLowerCase fact +:+ after)
        ∧ (∀ forbidden,
             In forbidden (QualityTestResult.forbidden_content r)
             ↔ In forbidden (default [] (QualityTestCase.must_not_contain test_case))
               ∧ ∃ before after,
                   toLowerCase response_text
                   = before +:+ toLowerCase forbidden +:+ after)
        ∧ QualityTestResult.passed r
          = bool_decide (QualityTestResult.missing_facts r = [])
            && bool_decide (QualityTestResult.forbidden_content r = [])))
  ∧ (∀ text text' fact fact',
       toLowerCase text = toLowerCase text' → toLowerCase fact = toLowerCase fact' →
       lacks text fact = lacks text' fact' ∧ holds text fact = holds text' fact')
  ∧ (∃ r, test_response_quality (working_world (λ _, answers "Use OnClick={handler}"))
            onclick_case (answers "Use OnClick={handler}") = Returned r
       ∧ QualityTestResult.missing_facts r = []
       ∧ QualityTestResult.forbidden_content r = []
       ∧ QualityTestResult.passed r = true).
Proof.
  split; [|split].
  - destruct (test_response_quality_cases E test_case world) as [logged ->].
    eexists; split; [reflexivity|]. intros Herr.
    destruct (quality_outcome_error_free _ _ _ _ Herr) as (usage & total & cost & ->).
    cbn [quality_success_result QualityTestResult.response_full_text
         QualityTestResult.missing_facts QualityTestResult.forbidden_content
         QualityTestResult.passed].
    unfold quality_passed. rewrite !length_zero_nil.
    split; [done|]. split; [done|]. split; [done|]. split; [|split; [|done]].
    + intros fact. unfold missing_of, lacks. rewrite filter_In, negb_true_iff,
        <- not_true_iff_false, includes_spec. done.
    + intros forbidden. unfold forbidden_of, holds. rewrite filter_In, includes_spec.
      done.
  - intros text text' fact fact' Ht Hf. unfold lacks, holds. by rewrite Ht, Hf.
  - eexists. split; [vm_compute; reflexivity|done].
Qed.

(** C4, as the code has it: a quality result without error whose
    [missing_facts] and [forbidden_content] are both empty has [passed = true]
    (and conversely); a result with an error has [passed = false] and both
    lists empty. *)
Theorem quality_passed_when_nothing_missing_and_no_error (E : Env)
    (test_case : QualityTestCase.t) (world : Invocation) :
  ∃ r, test_response_quality E test_case world = Returned r
    ∧ (QualityTestResult.error r = None →
       (QualityTestResult.missing_facts r = []
        ∧ QualityTestResult.forbidden_content r = [])
       ↔ QualityTestResult.passed r = true)
    ∧ (QualityTestResult.error r ≠ None →
       QualityTestResult.passed r = false
       ∧ QualityTestResult.missing_facts r = []
       ∧ QualityTestResult.forbidden_content r = []).
Proof.
  destruct (test_response_quality_cases E test_case world) as [logged ->].
  eexists; split; [reflexivity|]. split.
  - intros Herr.
    destruct (quality_outcome_error_free _ _ _ _ Herr) as (usage & total & cost & ->).
    cbn. unfold quality_passed. rewrite !length_zero_nil, andb_true_iff,
      !bool_decide_eq_true. done.
  - intros Herr. destruct (quality_outcome_error _ _ _ _ Herr) as [error ->]. done.
Qed.

(** C4 as stated fails: when the stream throws, the result has no missing
    fact and no forbidden content, and has not passed. *)
Lemma quality_error_result_is_empty_and_failed :
  ∃ r, test_response_quality (working_world (λ _, breaks_after "Use onclick"))
         onclick_case (breaks_after "Use onclick") = Returned r
    ∧ QualityTestResult.missing_facts r = []
    ∧ QualityTestResult.forbidden_content r = []
    ∧ QualityTestResult.passed r = false.
Proof. eexists. split; [vm_compute; reflexivity|done]. Qed.

(** C9 (response preview). The preview of every quality result is a prefix
    of the accumulated response text and has at most 200 characters. Without
    error, [response_full_text] is the whole accumulated text and the preview
    is its first 200 characters; with an error the preview is empty and
    [response_full_text] is absent. *)
Theorem response_preview_is_bounded_prefix (E : Env) (test_case : QualityTestCase.t)
    (world : Invocation) :
  ∃ r, test_response_quality E test_case world = Returned r
    ∧ (∃ rest, accumulated_text (yielded (reply world))
               = QualityTestResult.response_preview r +:+ rest)
    ∧ (String.length (QualityTestResult.response_preview r) ≤ 200)%nat
    ∧ (QualityTestResult.error r = None →
       QualityTestResult.response_full_text r
       = Some (accumulated_text (yielded (reply world)))
       ∧ QualityTestResult.response_preview r
         = substring (accumulated_text (yielded (reply world))) 0 200
       ∧ String.length (QualityTestResult.response_preview r)
         = (200 `min` String.length (accumulated_text (yielded (reply world))))%nat)
    ∧ (QualityTestResult.error r ≠ None →
       QualityTestResult.response_preview r = ""
       ∧ QualityTestResult.response_full_text r = None).
Proof.
  destruct (test_response_quality_cases E test_case world) as [logged ->].
  eexists; split; [reflexivity|].
  destruct (QualityTestResult.error (quality_outcome E test_case world _)) eqn:Herr.
  - assert (Herr' : QualityTestResult.error (quality_outcome E test_case world
                      (quality_header test_case ++ logged)) ≠ None) by congruence.
    destruct (quality_outcome_error _ _ _ _ Herr') as [error ->]. cbn.
    repeat split; try done; [by eexists|lia].
  - destruct (quality_outcome_error_free _ _ _ _ Herr) as (usage & total & cost & ->).
    cbn [QualityTestResult.response_preview QualityTestResult.response_full_text
         quality_success_result].
    repeat split; try done.
    + apply substring_0_prefix.
    + rewrite substring_0_length. lia.
    + apply substring_0_length.
Qed.

(* ================================================================== *)
(** ** The activation path *)
(* ================================================================== *)

Lemma scan_blocks_spec (blocks : list ContentBlock) :
  ∃ logged, ∀ (activated_skill : option string) (logs : list string),
    scan_blocks blocks activated_skill logs
    = (Returned (match head (omap skill_field blocks) with
                 | Some skill => Some (js_String skill)
                 | None => activated_skill
                 end), logs ++ logged).
Proof.
  induction blocks as [|block blocks [logged IH]].
  - exists []. intros. cbn. by rewrite app_nil_r.
  - destruct (skill_field block) as [skill|] eqn:Hskill.
    + destruct block as [text|name input|type]; try done.
      eexists. intros. cbn [scan_blocks omap list_omap]. unfold_monad.
      rewrite Hskill. cbn [head]. rewrite <- app_assoc. reflexivity.
    + destruct block as [text|name input|type].
      * exists logged. intros. cbn [scan_blocks omap list_omap]. unfold_monad.
        cbn [skill_field]. apply IH.
      * eexists (_ :: logged). intros. cbn [scan_blocks omap list_omap]. unfold_monad.
        rewrite Hskill, IH, <- app_assoc. reflexivity.
      * exists logged. intros. cbn [scan_blocks omap list_omap]. unfold_monad.
        cbn [skill_field]. apply IH.
Qed.

(** One turn of the loop of the activation path; the lines it logs depend on
    the message only. *)
Lemma for_await_activation_step (message : SDKMessage) :
  ∃ logged, ∀ (rest : AgentStream) (activated_skill : option string)
              (usage : UsageData.t) (logs : list string),
    for_await_activation (StreamYield message rest) activated_skill usage logs
    = match message with
      | AssistantMessage _ _ =>
          if truthy (after_message activated_skill message)
          then (Returned (after_message activated_skill message,
                          add_message_usage usage message), logs ++ logged)
          else for_await_activation rest (after_message activated_skill message)
                 (add_message_usage usage message) (logs ++ logged)
      | OtherMessage _ =>
          for_await_activation rest activated_skill (add_message_usage usage message)
            (logs ++ logged)
      end.
Proof.
  destruct message as [u [blocks|str]|type].
  - destruct (scan_blocks_spec blocks) as [logged Hscan].
    eexists (_ :: logged). intros. cbn [for_await_activation]. unfold_monad.
    rewrite Hscan, <- app_assoc. unfold after_message, message_skill.
    destruct (head (omap skill_field blocks)); cbn [fmap option_fmap option_map];
      match goal with |- context [truthy ?a] => destruct (truthy a) end; reflexivity.
  - eexists [_]. intros. cbn [for_await_activation]. unfold_monad.
    unfold after_message. cbn [message_skill].
    destruct (truthy activated_skill); reflexivity.
  - eexists [_]. intros. reflexivity.
Qed.

(** The loop throws what the stream throws, when no message before names a
    skill by a non-empty string. *)
Lemma for_await_activation_throws (messages : list SDKMessage) :
  Forall (λ message, truthy (message_skill message) = false) messages →
  ∃ logged, ∀ (error : Thrown) (activated_skill : option string) (usage : UsageData.t)
              (logs : list string),
    truthy activated_skill = false →
    for_await_activation (yield_all messages (StreamThrow error)) activated_skill usage
      logs
    = (Threw error, logs ++ logged).
Proof.
  induction 1 as [|message messages Hm Hms [logged2 IH]].
  - exists []. intros. cbn. by rewrite app_nil_r.
  - destruct (for_await_activation_step message) as [logged1 Hstep].
    exists (logged1 ++ logged2). intros error activated_skill usage logs Ha.
    cbn [yield_all]. rewrite Hstep, app_assoc.
    assert (Hafter : truthy (after_message activated_skill message) = false).
    { unfold after_message. by destruct (message_skill message). }
    destruct message as [u content|type]; [rewrite Hafter|]; by apply IH.
Qed.

(** The loop stops at the first message that names a skill by a non-empty
    string, when no message before names a skill at all: [activated_skill]
    is that name, and neither the result nor the log depends on what the
    stream holds after that message. *)
Lemma for_await_activation_stops (messages : list SDKMessage) (message : SDKMessage)
    (skill : string) :
  Forall (λ message, message_skill message = None) messages →
  message_skill message = Some skill → skill ≠ "" →
  ∃ logged, ∀ (rest : AgentStream) (usage : UsageData.t) (logs : list string),
    for_await_activation (yield_all messages (StreamYield message rest)) None usage logs
    = (Returned (Some skill,
                 foldl add_message_usage usage (messages ++ [message])),
       logs ++ logged).
Proof.
  intros Hms Hm Hne.
  induction Hms as [|m messages Hnone Hms [logged2 IH]].
  - destruct (for_await_activation_step message) as [logged Hstep].
    exists logged. intros rest usage logs. cbn [yield_all app foldl]. rewrite Hstep.
    assert (Hafter : after_message None message = Some skill).
    { unfold after_message. by rewrite Hm. }
    destruct message as [u content|type]; [|done].
    rewrite Hafter. cbn [truthy]. by destruct skill.
  - destruct (for_await_activation_step m) as [logged1 Hstep].
    exists (logged1 ++ logged2). intros rest usage logs.
    cbn [yield_all app foldl]. rewrite Hstep, app_assoc.
    assert (Hafter : after_message None m = None).
    { unfold after_message. by rewrite Hnone. }
    destruct m as [u content|type]; [rewrite Hafter; cbn [truthy]|]; apply IH.
Qed.

(* ================================================================== *)
(** ** The batch commands *)
(* ================================================================== *)

(** A guarded write returns whatever the write does, and does nothing when
    no run is bound. *)
Lemma if_bound_returns {S} (run_id : option string) (write : string → M S unit) (s : S) :
  ∃ s', if_bound run_id write s = (Returned (), s') ∧ (truthy run_id = false → s' = s).
Proof.
  unfold if_bound, try_catch. destruct (truthy run_id).
  - destruct (write _ s) as [[[]|error] s']; eexists; split; done.
  - by exists s.
Qed.

Lemma aggregate_all_cons (totals : Totals.t) (scores : list (option Metrics.t * bool))
    (score : option Metrics.t * bool) :
  aggregate_all totals (score :: scores)
  = aggregate_all (aggregate totals score.1 score.2) scores.
Proof. reflexivity. Qed.

(** The pass counter counts the results that passed, and the latency
    accumulator sums the latencies of the results that carry metrics. *)
Lemma aggregate_all_passed (totals : Totals.t) (scores : list (option Metrics.t * bool)) :
  Totals.passed_count (aggregate_all totals scores)
  = Totals.passed_count totals + passed_among scores.
Proof.
  revert totals. unfold passed_among.
  induction scores as [|[metrics passed] scores IH]; intros totals.
  - cbn. lia.
  - rewrite aggregate_all_cons, IH. cbn [fst snd List.filter].
    unfold aggregate. destruct metrics, passed; cbn [Totals.passed_count length]; lia.
Qed.

Lemma aggregate_all_latency (totals : Totals.t) (scores : list (option Metrics.t * bool)) :
  Totals.total_latency_ms (aggregate_all totals scores)
  = Totals.total_latency_ms totals + latency_among scores.
Proof.
  revert totals. unfold latency_among.
  induction scores as [|[metrics passed] scores IH]; intros totals.
  - cbn. lia.
  - rewrite aggregate_all_cons, IH. cbn [fst snd foldr].
    unfold aggregate.
    destruct metrics, passed; cbn [Totals.total_latency_ms from_option]; lia.
Qed.

Lemma passed_among_bounds (scores : list (option Metrics.t * bool)) :
  0 ≤ passed_among scores ≤ Z.of_nat (length scores).
Proof.
  unfold passed_among. pose proof (filter_length snd scores). lia.
Qed.

Section BatchFacts.
Context (E : Env).

(** The loop of [run_activation_tests] never throws; it appends one result
    per case, in order, each the result of the test command on that case, and
    accumulates their scores. With no run bound it leaves the database
    alone. *)
Lemma activation_loop_spec (run_id : option string)
    (test_cases : list ActivationTestCase.t) (i : nat)
    (results : list ActivationTestResult.t) (totals : Totals.t) (db : Db) :
  ∃ rs db',
    activation_loop E run_id test_cases i results totals db
    = (Returned (results ++ rs, aggregate_all totals (activation_score <$> rs)), db')
    ∧ activation_results_of E i test_cases rs
    ∧ (truthy run_id = false → db' = db).
Proof.
  revert i results totals db.
  induction test_cases as [|test_case rest IH]; intros i results totals db.
  - exists [], db. cbn. rewrite app_nil_r. repeat split; try done.
  - cbn [activation_loop]. cbv [mbind M_bind lift_outcome].
    destruct (test_skill_activation_returns E test_case (agent E i)) as [r Hr].
    rewrite Hr.
    match goal with
    | |- context [if_bound run_id ?w db] =>
        destruct (if_bound_returns run_id w db) as (db1 & -> & Hsame1)
    end.
    destruct (IH (S i) (results ++ [r])
                (aggregate totals (ActivationTestResult.metrics r)
                   (ActivationTestResult.passed r)) db1)
      as (rs & db2 & -> & [Hlen Hrs] & Hsame2).
    exists (r :: rs), db2. rewrite <- app_assoc. repeat split.
    + cbn [length]. by rewrite Hlen.
    + intros [|k] tc Hk.
      * injection Hk as <-. exists r. by rewrite Nat.add_0_r.
      * destruct (Hrs k tc Hk) as (r' & Hr' & Hres). exists r'.
        by rewrite Nat.add_succ_r.
    + intros Hfalse. rewrite Hsame2, Hsame1; done.
Qed.

Lemma quality_loop_spec (run_id : option string)
    (test_cases : list QualityTestCase.t) (i : nat)
    (results : list QualityTestResult.t) (totals : Totals.t) (db : Db) :
  ∃ rs db',
    quality_loop E run_id test_cases i results totals db
    = (Returned (results ++ rs, aggregate_all totals (quality_score <$> rs)), db')
    ∧ quality_results_of E i test_cases rs
    ∧ (truthy run_id = false → db' = db).
Proof.
  revert i results totals db.
  induction test_cases as [|test_case rest IH]; intros i results totals db.
  - exists [], db. cbn. rewrite app_nil_r. repeat split; try done.
  - cbn [quality_loop]. cbv [mbind M_bind lift_outcome].
    destruct (test_response_quality_cases E test_case (agent E i)) as [logged Hr].
    rewrite Hr. set (r := quality_outcome E test_case (agent E i) _) in *.
    match goal with
    | |- context [if_bound run_id ?w db] =>
        destruct (if_bound_returns run_id w db) as (db1 & -> & Hsame1)
    end.
    destruct (IH (S i) (results ++ [r])
                (aggregate totals (QualityTestResult.metrics r)
                   (QualityTestResult.passed r)) db1)
      as (rs & db2 & -> & [Hlen Hrs] & Hsame2).
    exists (r :: rs), db2. rewrite <- app_assoc. repeat split.
    + cbn [length]. by rewrite Hlen.
    + intros [|k] tc Hk.
      * injection Hk as <-. exists r. by rewrite Nat.add_0_r.
      * destruct (Hrs k tc Hk) as (r' & Hr' & Hres). exists r'.
        by rewrite Nat.add_succ_r.
    + intros Hfalse. rewrite Hsame2, Hsame1; done.
Qed.

(** The block that initialises the storage never throws. *)
Lemma initialise_storage_returns (test_type : TestType) (first_model : option string)
    (total_tests : nat) (db : Db) :
  ∃ run_id db',
    initialise_storage E test_type first_model total_tests db = (Returned run_id, db').
Proof.
  unfold initialise_storage. unfold_monad.
  destruct (store_skill_versions E db) as [[versions|error] db1]; [|by eexists _, _].
  destruct (create_test_run E _ None test_type _ db1) as [[id|error] db2];
    [|by eexists _, _].
  destruct (link_test_run_to_skill_versions E id _ db2) as [[[]|error] db3];
    by eexists _, _.
Qed.

(** The two batch commands never throw. Their results are those of the
    loop; the values of the finalization are computed from the scores of
    these results; with no run bound nothing is written after the
    initialisation. *)
Lemma run_activation_batch_spec (test_cases : list ActivationTestCase.t) (db : Db) :
  ∃ run_id db1 results db',
    initialise_storage E activation (head test_cases ≫= ActivationTestCase.model)
      (length test_cases) db = (Returned run_id, db1)
    ∧ run_activation_batch E test_cases db
      = (Returned (results,
                   final_update (length test_cases)
                     (aggregate_all totals_zero (activation_score <$> results))), db')
    ∧ run_activation_tests E test_cases db = (Returned results, db')
    ∧ activation_results_of E 0 test_cases results
    ∧ (truthy run_id = false → db' = db1).
Proof.
  destruct (initialise_storage_returns activation
              (head test_cases ≫= ActivationTestCase.model) (length test_cases) db)
    as (run_id & db1 & Hinit).
  destruct (activation_loop_spec run_id test_cases 0 [] totals_zero db1)
    as (results & db2 & Hloop & Hres & Hsame2).
  destruct (if_bound_returns run_id
              (λ run_id, update_test_run E run_id
                 (final_update (length test_cases)
                    (aggregate_all totals_zero (activation_score <$> results)))) db2)
    as (db3 & Hfin & Hsame3).
  assert (Hbatch : run_activation_batch E test_cases db
    = (Returned (results,
                 final_update (length test_cases)
                   (aggregate_all totals_zero (activation_score <$> results))), db3)).
  { unfold run_activation_batch, finalise_storage. cbv [mbind M_bind mret M_ret] in Hinit |- *.
    rewrite Hinit, Hloop. cbn [app]. by rewrite Hfin. }
  exists run_id, db1, results, db3. repeat split; try done.
  - unfold run_activation_tests. cbv [mbind M_bind mret M_ret]. by rewrite Hbatch.
  - apply Hres.
  - apply Hres.
  - intros Hfalse. rewrite Hsame3, Hsame2; done.
Qed.

Lemma run_quality_batch_spec (test_cases : list QualityTestCase.t) (db : Db) :
  ∃ run_id db1 results db',
    initialise_storage E quality (head test_cases ≫= QualityTestCase.model)
      (length test_cases) db = (Returned run_id, db1)
    ∧ run_quality_batch E test_cases db
      = (Returned (results,
                   final_update (length test_cases)
                     (aggregate_all totals_zero (quality_score <$> results))), db')
    ∧ run_quality_tests E test_cases db = (Returned results, db')
    ∧ quality_results_of E 0 test_cases results
    ∧ (truthy run_id = false → db' = db1).
Proof.
  destruct (initialise_storage_returns quality
              (head test_cases ≫= QualityTestCase.model) (length test_cases) db)
    as (run_id & db1 & Hinit).
  destruct (quality_loop_spec run_id test_cases 0 [] totals_zero db1)
    as (results & db2 & Hloop & Hres & Hsame2).
  destruct (if_bound_returns run_id
              (λ run_id, update_test_run E run_id
                 (final_update (length test_cases)
                    (aggregate_all totals_zero (quality_score <$> results)))) db2)
    as (db3 & Hfin & Hsame3).
  assert (Hbatch : run_quality_batch E test_cases db
    = (Returned (results,
                 final_update (length test_cases)
                   (aggregate_all totals_zero (quality_score <$> results))), db3)).
  { unfold run_quality_batch, finalise_storage. cbv [mbind M_bind mret M_ret] in Hinit |- *.
    rewrite Hinit, Hloop. cbn [app]. by rewrite Hfin. }
  exists run_id, db1, results, db3. repeat split; try done.
  - unfold run_quality_tests. cbv [mbind M_bind mret M_ret]. by rewrite Hbatch.
  - apply Hres.
  - apply Hres.
  - intros Hfalse. rewrite Hsame3, Hsame2; done.
Qed.

(** The result of the activation command carries the identifier of its case. *)
Lemma activation_test_id (test_case : ActivationTestCase.t) (world : Invocation)
    (r : ActivationTestResult.t) :
  test_skill_activation E test_case world = Returned r →
  ActivationTestResult.test_id r = ActivationTestCase.id test_case.
Proof.
  destruct (for_await_activation (reply world) None usage_zero
              (activation_header test_case)) as [[[a u]|error] logged] eqn:Hloop.
  - rewrite (activation_returned _ _ _ _ _ _ Hloop). intros [= <-].
    destruct (calculate_total_tokens E u); [destruct (calculate_cost E u _)|]; done.
  - rewrite (activation_threw _ _ _ _ _ Hloop). by intros [= <-].
Qed.

(** When the agent raises an error before any message has named a skill by a
    non-empty string, the activation command returns the result of its
    [catch] clause. *)
Lemma activation_stream_failure (test_case : ActivationTestCase.t) (world : Invocation)
    (messages : list SDKMessage) (error : Thrown) :
  reply world = yield_all messages (StreamThrow error) →
  Forall (λ message, truthy (message_skill message) = false) messages →
  ∃ logged,
    test_skill_activation E test_case world
    = Returned (activation_error_result test_case error
                  (activation_header test_case ++ logged)).
Proof.
  intros Hreply Hms. destruct (for_await_activation_throws messages Hms) as [logged H].
  exists logged. apply activation_threw. rewrite Hreply. by apply H.
Qed.

End BatchFacts.

(** C2 (partial-failure isolation). [run_activation_tests] returns, for a
    list of N cases, a list of N results; the result at index [k] is the one
    the test command returns for the case at index [k] in its own world, and
    carries the identifier of that case. When the agent invocation for case
    [k] raises an error (before any message has named a skill), the result at
    [k] has [passed = false] and carries the error text; the results at the
    other indices are those of their own cases. *)
Theorem batch_isolates_failing_cases (E : Env) (test_cases : list ActivationTestCase.t)
    (db : Db) :
  ∃ results db',
    run_activation_tests E test_cases db = (Returned results, db')
    ∧ length results = length test_cases
    ∧ ∀ k test_case, test_cases !! k = Some test_case →
        ∃ r, results !! k = Some r
          ∧ ActivationTestResult.test_id r = ActivationTestCase.id test_case
          ∧ test_skill_activation E test_case (agent E k) = Returned r
          ∧ ∀ messages error,
              reply (agent E k) = yield_all messages (StreamThrow error) →
              Forall (λ message, truthy (message_skill message) = false) messages →
              ActivationTestResult.passed r = false
              ∧ ActivationTestResult.error r = Some (error_text error).
Proof.
  destruct (run_activation_batch_spec E test_cases db)
    as (run_id & db1 & results & db' & _ & _ & Hrun & [Hlen Hres] & _).
  exists results, db'. repeat split; try done.
  intros k test_case Hk. destruct (Hres k test_case Hk) as (r & Hr & Htest).
  exists r. repeat split; try done.
  - by eapply activation_test_id.
  - destruct (activation_stream_failure E test_case (agent E k) messages error)
      as [logged Hfail]; try done.
    cbn [Nat.add] in Htest. rewrite Hfail in Htest. by injection Htest as <-.
  - destruct (activation_stream_failure E test_case (agent E k) messages error)
      as [logged Hfail]; try done.
    cbn [Nat.add] in Htest. rewrite Hfail in Htest. by injection Htest as <-.
Qed.

(** C5 (finalization). The values [run_activation_tests] and
    [run_quality_tests] compute for [update_test_run] satisfy
    [failed_tests = total_tests - passed_tests], where [passed_tests] counts
    the results that passed, and [avg_latency_ms] is the accumulated latency
    divided by the number of cases, or 0 for an empty batch. *)
Theorem finalization_values (E : Env) (activation_cases : list ActivationTestCase.t)
    (quality_cases : list QualityTestCase.t) (db : Db) :
  (∃ results u db',
     run_activation_batch E activation_cases db = (Returned (results, u), db')
     ∧ run_activation_tests E activation_cases db = (Returned results, db')
     ∧ length results = length activation_cases
     ∧ RunUpdate.passed_tests u = passed_among (activation_score <$> results)
     ∧ RunUpdate.total_latency_ms u = latency_among (activation_score <$> results)
     ∧ RunUpdate.failed_tests u
       = Z.of_nat (length activation_cases) - RunUpdate.passed_tests u
     ∧ 0 ≤ RunUpdate.failed_tests u
     ∧ RunUpdate.avg_latency_ms u
       = if bool_decide (0 < length activation_cases)%nat
         then (Qc_of_Z (RunUpdate.total_latency_ms u)
               / Qc_of_Z (Z.of_nat (length activation_cases)))%Qc
         else 0%Qc)
  ∧ (∃ results u db',
       run_quality_batch E quality_cases db = (Returned (results, u), db')
       ∧ run_quality_tests E quality_cases db = (Returned results, db')
       ∧ length results = length quality_cases
       ∧ RunUpdate.passed_tests u = passed_among (quality_score <$> results)
       ∧ RunUpdate.total_latency_ms u = latency_among (quality_score <$> results)
       ∧ RunUpdate.failed_tests u
         = Z.of_nat (length quality_cases) - RunUpdate.passed_tests u
       ∧ 0 ≤ RunUpdate.failed_tests u
       ∧ RunUpdate.avg_latency_ms u
         = if bool_decide (0 < length quality_cases)%nat
           then (Qc_of_Z (RunUpdate.total_latency_ms u)
                 / Qc_of_Z (Z.of_nat (length quality_cases)))%Qc
           else 0%Qc).
Proof.
  split.
  - destruct (run_activation_batch_spec E activation_cases db)
      as (run_id & db1 & results & db' & _ & Hbatch & Hrun & [Hlen _] & _).
    eexists results, _, db'. split; [exact Hbatch|]. split; [exact Hrun|].
    cbn [final_update RunUpdate.passed_tests RunUpdate.failed_tests
         RunUpdate.total_latency_ms RunUpdate.avg_latency_ms].
    rewrite aggregate_all_passed, aggregate_all_latency.
    pose proof (passed_among_bounds (activation_score <$> results)) as Hb.
    rewrite length_fmap, Hlen in Hb. cbn [totals_zero Totals.passed_count
      Totals.total_latency_ms]. repeat split; try done; lia.
  - destruct (run_quality_batch_spec E quality_cases db)
      as (run_id & db1 & results & db' & _ & Hbatch & Hrun & [Hlen _] & _).
    eexists results, _, db'. split; [exact Hbatch|]. split; [exact Hrun|].
    cbn [final_update RunUpdate.passed_tests RunUpdate.failed_tests
         RunUpdate.total_latency_ms RunUpdate.avg_latency_ms].
    rewrite aggregate_all_passed, aggregate_all_latency.
    pose proof (passed_among_bounds (quality_score <$> results)) as Hb.
    rewrite length_fmap, Hlen in Hb. cbn [totals_zero Totals.passed_count
      Totals.total_latency_ms]. repeat split; try done; lia.
Qed.

(* ================================================================== *)
(** ** Activation detection *)
(* ================================================================== *)

(** The activation command stops at the first message that names a skill by
    a non-empty string, when no message before names a skill: whatever the
    stream holds after that message, the command returns the same result,
    and that result, when it carries no error, has this skill as
    [activated_skill]. *)
Lemma activation_stops_at_first_named_skill (E : Env) (test_case : ActivationTestCase.t)
    (messages : list SDKMessage) (message : SDKMessage) (skill : string)
    (start_time end_time : Z) :
  Forall (λ message, message_skill message = None) messages →
  message_skill message = Some skill → skill ≠ "" →
  ∃ r, (∀ rest,
          test_skill_activation E test_case
            {| reply := yield_all messages (StreamYield message rest);
               start_time := start_time; end_time := end_time |}
          = Returned r)
       ∧ (ActivationTestResult.error r = None →
          ActivationTestResult.activated_skill r = Some skill).
Proof.
  intros Hms Hm Hne.
  destruct (for_await_activation_stops messages message skill Hms Hm Hne)
    as [logged Hloop].
  set (usage := foldl add_message_usage usage_zero (messages ++ [message])).
  set (done := {| reply := StreamDone; start_time := start_time;
                  end_time := end_time |}).
  exists (match calculate_total_tokens E usage with
          | Threw error =>
              activation_error_result test_case error
                (activation_header test_case ++ logged)
          | Returned total_tokens =>
              match calculate_cost E usage
                      (or_string (ActivationTestCase.model test_case) default_model) with
              | Threw error =>
                  activation_error_result test_case error
                    (activation_header test_case ++ logged)
              | Returned cost =>
                  activation_success_result test_case done (Some skill) usage
                    total_tokens cost (activation_header test_case ++ logged)
              end
          end).
  split.
  - intros rest.
    rewrite (activation_returned E test_case _ (Some skill) usage
               (activation_header test_case ++ logged)); [reflexivity|apply Hloop].
  - destruct (calculate_total_tokens E _); [destruct (calculate_cost E _ _)|]; done.
Qed.

(** C6, at the input where the code departs from it. The first [Skill] tool
    use of the stream has the field [skill] with the empty string as value.
    The code sets [activated_skill] to the empty string and leaves the loop
    over the blocks, but the test [if (activated_skill) break] of the loop
    over the messages fails on the empty string: the second message is taken
    from the stream and interpreted (two messages are logged), and its skill
    replaces the first. When the stream ends after the first message,
    [activated_skill] is the empty string. *)
Theorem empty_skill_name_does_not_stop_the_scan (E : Env) :
  message_skill (assistant [skill_use ""]) = Some ""
  ∧ (∃ r, test_skill_activation E runes_case empty_then_runes = Returned r
       ∧ messages_logged (ActivationTestResult.logs r) = 2%nat
       ∧ (ActivationTestResult.error r = None →
          ActivationTestResult.activated_skill r = Some "svelte5-runes"
          ∧ ActivationTestResult.passed r = true))
  ∧ (∃ r, test_skill_activation E runes_case empty_only = Returned r
       ∧ messages_logged (ActivationTestResult.logs r) = 1%nat
       ∧ (ActivationTestResult.error r = None →
          ActivationTestResult.activated_skill r = Some ""
          ∧ ActivationTestResult.passed r = false)).
Proof.
  split; [reflexivity|]. split.
  - eassert (Hloop : for_await_activation (reply empty_then_runes) None usage_zero
                       (activation_header runes_case) = (Returned (_, _), _))
      by (vm_compute; reflexivity).
    rewrite (activation_returned E _ _ _ _ _ Hloop).
    destruct (calculate_total_tokens E _) as [total|error];
      [destruct (calculate_cost E _ _) as [cost|error]|];
      eexists; (split; [reflexivity|]); (split; [vm_compute; reflexivity|]);
      intros Herror; try discriminate Herror; split; reflexivity.
  - eassert (Hloop : for_await_activation (reply empty_only) None usage_zero
                       (activation_header runes_case) = (Returned (_, _), _))
      by (vm_compute; reflexivity).
    rewrite (activation_returned E _ _ _ _ _ Hloop).
    destruct (calculate_total_tokens E _) as [total|error];
      [destruct (calculate_cost E _ _) as [cost|error]|];
      eexists; (split; [reflexivity|]); (split; [vm_compute; reflexivity|]);
      intros Herror; try discriminate Herror; split; reflexivity.
Qed.

(* ================================================================== *)
(** ** What the storage commands bind *)
(* ================================================================== *)

Lemma appends_ret {A} (a : A) : appends (mret a).
Proof. intros db. exists []. cbn. by rewrite app_nil_r. Qed.

Lemma appends_bind {A B} (m : M Db A) (f : A → M Db B) :
  appends m → (∀ a, appends (f a)) → appends (m ≫= f).
Proof.
  intros Hm Hf db. destruct (Hm db) as [more1 H1]. cbv [mbind M_bind].
  destruct (m db) as [[a|error] db1]; cbn [snd] in *.
  - destruct (Hf a db1) as [more2 H2]. exists (more1 ++ more2).
    by rewrite H2, H1, app_assoc.
  - by exists more1.
Qed.

Lemma appends_lift_outcome {A} (o : Outcome A) : appends (lift_outcome o).
Proof. intros db. exists []. cbn. by rewrite app_nil_r. Qed.

Lemma appends_try_catch {A} (body : M Db A) (handler : Thrown → M Db A) :
  appends body → (∀ error, appends (handler error)) → appends (try_catch body handler).
Proof.
  intros Hbody Hhandler db. destruct (Hbody db) as [more1 H1]. unfold try_catch.
  destruct (body db) as [[a|error] db1]; cbn [snd] in *.
  - by exists more1.
  - destruct (Hhandler error db1) as [more2 H2]. exists (more1 ++ more2).
    by rewrite H2, H1, app_assoc.
Qed.

Lemma appends_if_bound (run_id : option string) (write : string → M Db unit) :
  (∀ run_id, appends (write run_id)) → appends (if_bound run_id write).
Proof.
  intros Hwrite. unfold if_bound. destruct (truthy run_id); [|apply appends_ret].
  apply appends_try_catch; [apply Hwrite|]. intros _. apply appends_ret.
Qed.

(** A guarded write with a run bound starts as the write does. *)
Lemma if_bound_starts (run_id : string) (write : string → M Db unit) (first : DbOp)
    (db : Db) :
  run_id ≠ "" →
  (∃ more, ops (write run_id db).2 = ops db ++ first :: more) →
  ∃ db' more,
    if_bound (Some run_id) write db = (Returned (), db')
    ∧ ops db' = ops db ++ first :: more.
Proof.
  intros Hne [more Hops]. unfold if_bound, try_catch. cbn [truthy default from_option id].
  assert (String.eqb run_id "" = false) as -> by by apply String.eqb_neq.
  cbn [negb]. destruct (write run_id db) as [[[]|error] db1]; by eexists _, more.
Qed.

Lemma appends_for_of {A} (xs : list A) (body : A → M Db unit) :
  (∀ x, appends (body x)) → appends (for_of xs body).
Proof.
  intros Hbody. induction xs as [|x xs IH]; cbn [for_of].
  - apply appends_ret.
  - apply appends_bind; [apply Hbody|]. intros _. apply IH.
Qed.

Section StorageFacts.
Context (E : Env).

Lemma appends_db_call (op : DbOp) : appends (db_call E op).
Proof. intros db. exists [op]. unfold db_call. by destruct (db_fault E _). Qed.

Lemma appends_Date_now : appends (Date_now E).
Proof. intros db. exists []. cbn. by rewrite app_nil_r. Qed.

Lemma appends_store_logs (test_type result_id : string) (logs : list string) :
  appends (store_logs E test_type result_id logs).
Proof.
  unfold store_logs. case_bool_decide; [|apply appends_ret].
  apply appends_bind.
  - unfold prepare. apply appends_bind; [apply appends_db_call|].
    intros _. apply appends_ret.
  - intros stmt. apply appends_for_of. intros log.
    apply appends_bind; [apply appends_Date_now|]. intros now. apply appends_db_call.
Qed.

Lemma appends_insert_all (sql : Sql) (result_id : string) (xs : list string) :
  appends (if bool_decide (0 < length xs)%nat then
             stmt ← prepare E sql;
             for_of xs (λ x, run E stmt [ SqlText result_id; SqlText x ])
           else mret ()).
Proof.
  case_bool_decide; [|apply appends_ret].
  apply appends_bind.
  - unfold prepare. apply appends_bind; [apply appends_db_call|].
    intros _. apply appends_ret.
  - intros stmt. apply appends_for_of. intros x. apply appends_db_call.
Qed.

Lemma appends_randomUUID : appends (randomUUID E).
Proof. intros db. exists []. cbn. by rewrite app_nil_r. Qed.

Lemma appends_prepare (sql : Sql) : appends (prepare E sql).
Proof.
  unfold prepare. apply appends_bind; [apply appends_db_call|].
  intros _. apply appends_ret.
Qed.

Lemma appends_store_activation_result (run_id : string) (r : ActivationTestResult.t)
    (query : option string) (should_activate : option bool)
    (test_case_source session_context : option string) :
  appends (store_activation_result E run_id r query should_activate test_case_source
             session_context).
Proof.
  unfold store_activation_result.
  apply appends_bind; [apply appends_randomUUID|]. intros result_id.
  apply appends_bind; [apply appends_prepare|]. intros stmt.
  apply appends_bind; [apply appends_Date_now|]. intros now.
  apply appends_bind; [apply appends_db_call|]. intros _.
  apply appends_store_logs.
Qed.

(** Every storage command starts by preparing its statement. *)
Lemma store_activation_result_prepares (run_id : string) (r : ActivationTestResult.t)
    (query : option string) (should_activate : option bool)
    (test_case_source session_context : option string) (db : Db) :
  ∃ more,
    ops (store_activation_result E run_id r query should_activate test_case_source
           session_context db).2
    = ops db ++ Prepare INSERT_activation_results :: more.
Proof.
  unfold store_activation_result.
  cbv [mbind M_bind mret M_ret randomUUID prepare run Date_now db_call].
  cbn [ops uuids ticks].
  destruct (db_fault E (length (ops db))); [by exists []|].
  cbn [ops uuids ticks].
  destruct (db_fault E (length (ops db ++ [Prepare INSERT_activation_results]))).
  - eexists. cbn [snd ops]. by rewrite <- app_assoc.
  - match goal with
    | |- context [store_logs E ?t ?i ?l ?d] =>
        destruct (appends_store_logs t i l d) as [more ->]
    end.
    eexists. cbn [ops]. by rewrite <- !app_assoc.
Qed.

Lemma update_test_run_prepares (run_id : string) (u : RunUpdate.t) (db : Db) :
  ∃ more, ops (update_test_run E run_id u db).2 = ops db ++ Prepare UPDATE_test_runs :: more.
Proof.
  unfold update_test_run.
  cbv [mbind M_bind mret M_ret prepare run db_call]. cbn [ops uuids ticks].
  destruct (db_fault E (length (ops db))); [by exists []|].
  cbn [ops uuids ticks].
  destruct (db_fault E (length (ops db ++ [Prepare UPDATE_test_runs])));
    eexists; cbn [snd ops]; by rewrite <- app_assoc.
Qed.

(** Both result inserts have the same shape: an identifier is drawn, the
    statement is prepared and, when that succeeds, run with parameters made
    of the identifier and the time, before anything else is written. *)
Lemma insert_is_second_call (sql : Sql) (params_of : string → Z → list SqlValue)
    (rest : string → M Db unit) (db : Db) :
  (∀ result_id, appends (rest result_id)) →
  db_fault E (length (ops db)) = None →
  calls_of (result_id ← randomUUID E;
            stmt ← prepare E sql;
            now ← Date_now E;
            run E stmt (params_of result_id now);;
            rest result_id) db !! 1%nat
  = Some (Run sql (params_of (uuid_source E (uuids db)) (clock E (ticks db)))).
Proof.
  intros Hrest Hfault. unfold calls_of.
  cbv [mbind M_bind mret M_ret randomUUID prepare run Date_now db_call].
  cbn [ops uuids ticks]. rewrite Hfault. cbn [ops uuids ticks].
  destruct (db_fault E (length (ops db ++ [Prepare sql]))).
  - cbn [snd ops]. rewrite <- app_assoc, drop_app_length. reflexivity.
  - match goal with
    | |- context [rest ?i ?d] => destruct (Hrest i d) as [more ->]
    end.
    cbn [ops]. rewrite <- !app_assoc, drop_app_length. reflexivity.
Qed.

(** When the statement can be prepared, [store_activation_result] runs it
    as its second call, and the parameters 12 to 18 are the metrics of the
    result under [|| null]. *)
Lemma store_activation_result_binds (run_id : string) (r : ActivationTestResult.t)
    (query : option string) (should_activate : option bool)
    (test_case_source session_context : option string) (db : Db) :
  db_fault E (length (ops db)) = None →
  ∃ params,
    calls_of (store_activation_result E run_id r query should_activate
                test_case_source session_context) db !! 1%nat
    = Some (Run INSERT_activation_results params)
    ∧ take 7 (drop 11 params) = metric_params (ActivationTestResult.metrics r).
Proof.
  intros Hfault. eexists. split.
  { unfold store_activation_result. apply insert_is_second_call; [|done].
    intros result_id. apply appends_store_logs. }
  reflexivity.
Qed.

Lemma store_quality_result_binds (run_id : string) (r : QualityTestResult.t)
    (query skill : string) (response_full_text : option string)
    (test_case_source session_context : option string) (db : Db) :
  db_fault E (length (ops db)) = None →
  ∃ params,
    calls_of (store_quality_result E run_id r query skill response_full_text
                test_case_source session_context) db !! 1%nat
    = Some (Run INSERT_quality_results params)
    ∧ take 7 (drop 11 params) = metric_params (QualityTestResult.metrics r).
Proof.
  intros Hfault. eexists. split.
  { unfold store_quality_result. apply insert_is_second_call; [|done].
    intros result_id.
    apply appends_bind; [apply appends_insert_all|]. intros _.
    apply appends_bind; [apply appends_insert_all|]. intros _.
    apply appends_store_logs. }
  reflexivity.
Qed.

End StorageFacts.

(* ================================================================== *)
(** ** Degraded storage *)
(* ================================================================== *)

(** The activation command uses of its environment the two metric helpers
    only. *)
Lemma test_skill_activation_ext (E E' : Env) (test_case : ActivationTestCase.t)
    (world : Invocation) :
  (∀ usage, calculate_total_tokens E usage = calculate_total_tokens E' usage) →
  (∀ usage model, calculate_cost E usage model = calculate_cost E' usage model) →
  test_skill_activation E test_case world = test_skill_activation E' test_case world.
Proof.
  intros Htokens Hcost.
  destruct (for_await_activation (reply world) None usage_zero
              (activation_header test_case)) as [[[a u]|error] logged] eqn:Hloop.
  - rewrite !(activation_returned _ _ _ _ _ _ Hloop). by rewrite Htokens, Hcost.
  - by rewrite !(activation_threw _ _ _ _ _ Hloop).
Qed.

(** The results of a batch are the same in every state of the storage: two
    worlds with the same agent and the same metric helpers return the same
    list, whatever their storage commands and database do. *)
Lemma activation_results_independent_of_storage (E E' : Env)
    (test_cases : list ActivationTestCase.t) (db db' : Db) :
  (∀ usage, calculate_total_tokens E usage = calculate_total_tokens E' usage) →
  (∀ usage model, calculate_cost E usage model = calculate_cost E' usage model) →
  (∀ i, agent E i = agent E' i) →
  (run_activation_tests E test_cases db).1 = (run_activation_tests E' test_cases db').1.
Proof.
  intros Htokens Hcost Hagent.
  destruct (run_activation_batch_spec E test_cases db)
    as (_ & _ & results & db2 & _ & _ & -> & [Hlen Hres] & _).
  destruct (run_activation_batch_spec E' test_cases db')
    as (_ & _ & results' & db2' & _ & _ & -> & [Hlen' Hres'] & _).
  cbn [fst]. f_equal. apply list_eq. intros k.
  destruct (test_cases !! k) as [test_case|] eqn:Hk.
  - destruct (Hres k test_case Hk) as (r & -> & Hr).
    destruct (Hres' k test_case Hk) as (r' & -> & Hr').
    rewrite (test_skill_activation_ext E E'), Hagent, Hr' in Hr by done. congruence.
  - apply lookup_ge_None in Hk.
    rewrite !(proj2 (lookup_ge_None _ _)); [done|lia..].
Qed.

Lemma test_response_quality_ext (E E' : Env) (test_case : QualityTestCase.t)
    (world : Invocation) :
  (∀ usage, calculate_total_tokens E usage = calculate_total_tokens E' usage) →
  (∀ usage model, calculate_cost E usage model = calculate_cost E' usage model) →
  test_response_quality E test_case world = test_response_quality E' test_case world.
Proof.
  intros Htokens Hcost.
  unfold test_response_quality, run_command, quality_body. unfold_monad.
  destruct (for_await_quality (reply world) "" usage_zero _)
    as [[[text usage]|error] logged]; [|reflexivity].
  by rewrite Htokens, Hcost.
Qed.

Lemma quality_results_independent_of_storage (E E' : Env)
    (test_cases : list QualityTestCase.t) (db db' : Db) :
  (∀ usage, calculate_total_tokens E usage = calculate_total_tokens E' usage) →
  (∀ usage model, calculate_cost E usage model = calculate_cost E' usage model) →
  (∀ i, agent E i = agent E' i) →
  (run_quality_tests E test_cases db).1 = (run_quality_tests E' test_cases db').1.
Proof.
  intros Htokens Hcost Hagent.
  destruct (run_quality_batch_spec E test_cases db)
    as (_ & _ & results & db2 & _ & _ & -> & [Hlen Hres] & _).
  destruct (run_quality_batch_spec E' test_cases db')
    as (_ & _ & results' & db2' & _ & _ & -> & [Hlen' Hres'] & _).
  cbn [fst]. f_equal. apply list_eq. intros k.
  destruct (test_cases !! k) as [test_case|] eqn:Hk.
  - destruct (Hres k test_case Hk) as (r & -> & Hr).
    destruct (Hres' k test_case Hk) as (r' & -> & Hr').
    rewrite (test_response_quality_ext E E'), Hagent, Hr' in Hr by done. congruence.
  - apply lookup_ge_None in Hk.
    rewrite !(proj2 (lookup_ge_None _ _)); [done|lia..].
Qed.

(** When storing the skill versions or creating the run throws, no run is
    bound, and the batch makes no call on the database after that. *)
Lemma no_write_when_initialisation_fails (E : Env)
    (test_cases : list ActivationTestCase.t) (db : Db) :
  (∃ error, (store_skill_versions E db).1 = Threw error)
  ∨ (∃ versions db1 error,
       store_skill_versions E db = (Returned versions, db1)
       ∧ (create_test_run E
            (or_string (head test_cases ≫= ActivationTestCase.model) default_model)
            None activation (Z.of_nat (length test_cases)) db1).1 = Threw error) →
  ∃ db1 results,
    initialise_storage E activation (head test_cases ≫= ActivationTestCase.model)
      (length test_cases) db = (Returned None, db1)
    ∧ run_activation_tests E test_cases db = (Returned results, db1).
Proof.
  intros Hfail.
  destruct (run_activation_batch_spec E test_cases db)
    as (run_id & db1 & results & db' & Hinit & _ & Hrun & _ & Hsame).
  assert (run_id = None) as ->.
  { revert Hinit. unfold initialise_storage. unfold_monad.
    destruct Hfail as [[error Hfail]|(versions & db0 & error & Hversions & Hfail)].
    - destruct (store_skill_versions E db) as [[versions|error'] db0]; [done|].
      by intros [= <- _].
    - rewrite Hversions.
      destruct (create_test_run E _ None activation _ db0) as [[id|error'] db0'];
        [done|]. by intros [= <- _]. }
  exists db1, results. split; [done|]. rewrite Hrun, Hsame; done.
Qed.

Lemma appends_activation_loop (E : Env) (run_id : option string)
    (test_cases : list ActivationTestCase.t) (i : nat)
    (results : list ActivationTestResult.t) (totals : Totals.t) :
  appends (activation_loop E run_id test_cases i results totals).
Proof.
  revert i results totals.
  induction test_cases as [|test_case rest IH]; intros i results totals;
    cbn [activation_loop].
  - apply appends_ret.
  - apply appends_bind; [apply appends_lift_outcome|]. intros r.
    apply appends_bind; [|intros _; apply IH].
    apply appends_if_bound. intros id. apply appends_store_activation_result.
Qed.

(** C7, where the code departs from it. Storing the skill versions and
    creating the run succeed and linking them throws. [run_id] was assigned
    before the link was attempted and the [catch] clause does not reset it:
    the run stays bound, and after the initialisation the batch goes on to
    prepare the insert of the first result and, later, the update of the
    run. *)
Theorem failed_linking_leaves_the_run_bound (E : Env)
    (test_case : ActivationTestCase.t) (rest : list ActivationTestCase.t)
    (db db1 db2 db3 : Db) (versions : list SkillVersion.t) (id : string)
    (error : Thrown) :
  store_skill_versions E db = (Returned versions, db1) →
  create_test_run E (or_string (ActivationTestCase.model test_case) default_model) None
    activation (Z.of_nat (length (test_case :: rest))) db1 = (Returned id, db2) →
  id ≠ "" →
  link_test_run_to_skill_versions E id (SkillVersion.id <$> versions) db2
  = (Threw error, db3) →
  initialise_storage E activation (ActivationTestCase.model test_case)
    (length (test_case :: rest)) db = (Returned (Some id), db3)
  ∧ ∃ results db' more more',
      run_activation_tests E (test_case :: rest) db = (Returned results, db')
      ∧ ops db'
        = ops db3 ++ Prepare INSERT_activation_results :: more
          ++ Prepare UPDATE_test_runs :: more'.
Proof.
  intros Hversions Hcreate Hne Hlink.
  assert (Hinit : initialise_storage E activation (ActivationTestCase.model test_case)
                    (length (test_case :: rest)) db = (Returned (Some id), db3)).
  { unfold initialise_storage. unfold_monad.
    rewrite Hversions. cbv beta iota. rewrite Hcreate. cbv beta iota.
    rewrite Hlink. reflexivity. }
  split; [exact Hinit|].
  unfold run_activation_tests, run_activation_batch, finalise_storage.
  change (head (test_case :: rest) ≫= ActivationTestCase.model)
    with (ActivationTestCase.model test_case).
  cbv [mbind M_bind mret M_ret]. rewrite Hinit.
  cbn [activation_loop]. cbv [mbind M_bind lift_outcome].
  destruct (test_skill_activation_returns E test_case (agent E 0)) as [r ->].
  match goal with
  | |- context [if_bound (Some id) ?w db3] =>
      destruct (if_bound_starts id w (Prepare INSERT_activation_results) db3 Hne)
        as (db4 & more1 & -> & Hops4);
        [apply store_activation_result_prepares|]
  end.
  match goal with
  | |- context [activation_loop E (Some id) rest ?i ?rs ?t db4] =>
      destruct (appends_activation_loop E (Some id) rest i rs t db4) as [more2 Hops5];
      destruct (activation_loop_spec E (Some id) rest i rs t db4)
        as (results & db5 & Hloop & _)
  end.
  rewrite Hloop in Hops5 |- *. cbn [snd] in Hops5.
  match goal with
  | |- context [if_bound (Some id) ?w db5] =>
      destruct (if_bound_starts id w (Prepare UPDATE_test_runs) db5 Hne)
        as (db6 & more3 & -> & Hops6);
        [apply update_test_run_prepares|]
  end.
  eexists _, db6, (more1 ++ more2), more3. split; [reflexivity|].
  rewrite Hops6, Hops5, Hops4. by rewrite <- !app_assoc.
Qed.

(* ================================================================== *)
(** ** Errors and partial output *)
(* ================================================================== *)

Lemma quality_threw (E : Env) (test_case : QualityTestCase.t) (world : Invocation)
    (error : Thrown) (logged : list string) :
  for_await_quality (reply world) "" usage_zero (quality_header test_case)
  = (Threw error, logged) →
  test_response_quality E test_case world
  = Returned (quality_error_result test_case error logged).
Proof.
  intros Hloop. unfold test_response_quality, run_command, quality_body.
  unfold_monad. cbn [app]. fold (quality_header test_case).
  rewrite Hloop. reflexivity.
Qed.

(** C8, as the code has it. When the stream raises an error partway through
    its consumption, the result carries the error text and the lines logged
    up to the error, followed by the line that reports it. The partial
    output is not in the result: on the quality path the preview is empty
    and the full text and the metrics are absent; on the activation path
    (where the error is met only if no message before has named a skill)
    [activated_skill] is null and the metrics are absent. *)
Theorem error_result_keeps_the_log_only (E : Env) :
  (∀ (test_case : QualityTestCase.t) (world : Invocation) (error : Thrown),
     stream_end (reply world) = Some error →
     ∃ r, test_response_quality E test_case world = Returned r
       ∧ QualityTestResult.error r = Some (error_text error)
       ∧ QualityTestResult.passed r = false
       ∧ QualityTestResult.response_preview r = ""
       ∧ QualityTestResult.response_full_text r = None
       ∧ QualityTestResult.metrics r = None
       ∧ QualityTestResult.logs r
         = (for_await_quality (reply world) "" usage_zero
              (quality_header test_case)).2
           ++ [ "[QUALITY TEST] Error in " +:+ QualityTestCase.id test_case +:+ ": "
                +:+ error_text error ])
  ∧ (∀ (test_case : ActivationTestCase.t) (world : Invocation)
       (messages : list SDKMessage) (error : Thrown),
       reply world = yield_all messages (StreamThrow error) →
       Forall (λ message, truthy (message_skill message) = false) messages →
       ∃ r, test_skill_activation E test_case world = Returned r
         ∧ ActivationTestResult.error r = Some (error_text error)
         ∧ ActivationTestResult.passed r = false
         ∧ ActivationTestResult.activated_skill r = None
         ∧ ActivationTestResult.metrics r = None
         ∧ ActivationTestResult.logs r
           = (for_await_activation (reply world) None usage_zero
                (activation_header test_case)).2
             ++ [ "[ACTIVATION TEST] Error in " +:+ ActivationTestCase.id test_case
                  +:+ ": " +:+ error_text error ]).
Proof.
  split.
  - intros test_case world error Hend.
    destruct (for_await_quality_spec (reply world) "" usage_zero
                (quality_header test_case)) as [logged Hloop].
    rewrite Hend in Hloop. rewrite (quality_threw E _ _ _ _ Hloop), Hloop.
    eexists. split; [reflexivity|]. done.
  - intros test_case world messages error Hreply Hms.
    destruct (for_await_activation_throws messages Hms) as [logged Hloop].
    specialize (Hloop error None usage_zero (activation_header test_case) eq_refl).
    rewrite <- Hreply in Hloop. rewrite (activation_threw E _ _ _ _ Hloop), Hloop.
    eexists. split; [reflexivity|]. done.
Qed.

(** C8 as stated fails. On the quality path the agent yields a text and its
    usage and then throws: the result holds neither the text nor the usage.
    On the activation path the agent reports its usage in a message that
    names a skill by the empty string and then throws: the result holds
    neither the usage nor the skill. *)
Lemma partial_output_is_dropped_on_error :
  (accumulated_text (yielded (reply (breaks_after "Use onclick"))) = "Use onclick"
   ∧ accumulated_usage (yielded (reply (breaks_after "Use onclick")))
     = UsageData.mk 10 5 0 0 0
   ∧ ∃ r, test_response_quality (working_world (λ _, breaks_after "Use onclick"))
            onclick_case (breaks_after "Use onclick") = Returned r
       ∧ QualityTestResult.error r = Some "connection lost"
       ∧ QualityTestResult.response_preview r = ""
       ∧ QualityTestResult.response_full_text r = None
       ∧ QualityTestResult.metrics r = None)
  ∧ (message_skill (assistant [skill_use ""]) = Some ""
     ∧ accumulated_usage (yielded (reply empty_then_lost)) = UsageData.mk 10 5 0 0 0
     ∧ ∃ r, test_skill_activation (working_world (λ _, empty_then_lost)) runes_case
              empty_then_lost = Returned r
         ∧ ActivationTestResult.error r = Some "connection lost"
         ∧ ActivationTestResult.activated_skill r = None
         ∧ ActivationTestResult.metrics r = None).
Proof.
  split; (split; [reflexivity|]); (split; [reflexivity|]);
    eexists; (split; [vm_compute; reflexivity|done]).
Qed.


(** C10 (zero metrics are stored as NULL). Each of the seven metric
    parameters of the two result inserts is NULL when the field is 0 (or
    absent), and the number otherwise; the inserts bind these parameters; and
    a result whose metrics are all zero is stored by the same calls, with the
    same parameters, as the same result without metrics. *)
Theorem zero_metrics_are_stored_as_null (E : Env) :
  (∀ m : Metrics.t,
     metric_params (Some m)
     = [ if Metrics.input_tokens m =? 0 then SqlNull
         else SqlInteger (Metrics.input_tokens m);
         if Metrics.output_tokens m =? 0 then SqlNull
         else SqlInteger (Metrics.output_tokens m);
         if Metrics.cache_creation_tokens m =? 0 then SqlNull
         else SqlInteger (Metrics.cache_creation_tokens m);
         if Metrics.cache_read_tokens m =? 0 then SqlNull
         else SqlInteger (Metrics.cache_read_tokens m);
         match Metrics.thinking_tokens m with
         | Some thinking => if thinking =? 0 then SqlNull else SqlInteger thinking
         | None => SqlNull
         end;
         if Metrics.latency_ms m =? 0 then SqlNull
         else SqlInteger (Metrics.latency_ms m);
         if bool_decide (Metrics.estimated_cost_usd m = 0%Qc) then SqlNull
         else SqlReal (Metrics.estimated_cost_usd m) ])
  ∧ metric_params None = replicate 7 SqlNull
  ∧ metric_params (Some zero_metrics) = metric_params None
  ∧ (∀ run_id r query should_activate test_case_source session_context db,
       db_fault E (length (ops db)) = None →
       ∃ params,
         calls_of (store_activation_result E run_id r query should_activate
                     test_case_source session_context) db !! 1%nat
         = Some (Run INSERT_activation_results params)
         ∧ take 7 (drop 11 params) = metric_params (ActivationTestResult.metrics r))
  ∧ (∀ run_id r query skill response_full_text test_case_source session_context db,
       db_fault E (length (ops db)) = None →
       ∃ params,
         calls_of (store_quality_result E run_id r query skill response_full_text
                     test_case_source session_context) db !! 1%nat
         = Some (Run INSERT_quality_results params)
         ∧ take 7 (drop 11 params) = metric_params (QualityTestResult.metrics r))
  ∧ (∀ run_id r query should_activate test_case_source session_context db,
       store_activation_result E run_id (activation_with_metrics r (Some zero_metrics))
         query should_activate test_case_source session_context db
       = store_activation_result E run_id (activation_with_metrics r None)
           query should_activate test_case_source session_context db)
  ∧ (∀ run_id r query skill response_full_text test_case_source session_context db,
       store_quality_result E run_id (quality_with_metrics r (Some zero_metrics))
         query skill response_full_text test_case_source session_context db
       = store_quality_result E run_id (quality_with_metrics r None)
           query skill response_full_text test_case_source session_context db).
Proof.
  assert (Hzero : metric_params (Some zero_metrics) = metric_params None).
  { unfold metric_params. cbn. by rewrite bool_decide_eq_true_2. }
  split; [|split; [|split; [|split; [|split; [|split]]]]].
  - intros [input output creation read [thinking|] total latency cost]; reflexivity.
  - reflexivity.
  - exact Hzero.
  - intros. by apply store_activation_result_binds.
  - intros. by apply store_quality_result_binds.
  - intros. unfold store_activation_result. cbn [activation_with_metrics
      ActivationTestResult.test_id ActivationTestResult.passed
      ActivationTestResult.expected_skill ActivationTestResult.activated_skill
      ActivationTestResult.error ActivationTestResult.logs
      ActivationTestResult.metrics]. by rewrite Hzero.
  - intros. unfold store_quality_result. cbn [quality_with_metrics
      QualityTestResult.test_id QualityTestResult.passed
      QualityTestResult.missing_facts QualityTestResult.forbidden_content
      QualityTestResult.response_preview QualityTestResult.response_full_text
      QualityTestResult.error QualityTestResult.logs QualityTestResult.metrics].
    by rewrite Hzero.
Qed.

(* ================================================================== *)
(** ** The theorems at concrete inputs *)
(* ================================================================== *)

(** C6's input in the working world: the result carries no error, the
    skill of the second message and [passed = true]. *)
Lemma empty_skill_name_at_working_world :
  ∃ r, test_skill_activation (working_world (λ _, empty_then_runes)) runes_case
         empty_then_runes = Returned r
    ∧ ActivationTestResult.error r = None
    ∧ messages_logged (ActivationTestResult.logs r) = 2%nat
    ∧ ActivationTestResult.activated_skill r = Some "svelte5-runes"
    ∧ ActivationTestResult.passed r = true.
Proof.
  destruct (proj1 (proj2 (empty_skill_name_does_not_stop_the_scan
                            (working_world (λ _, empty_then_runes)))))
    as (r & Hr & Hlogged & Hskill).
  exists r. split; [exact Hr|].
  assert (Herror : ActivationTestResult.error r = None).
  { evaluate_result Hr r. reflexivity. }
  split; [exact Herror|]. split; [exact Hlogged|]. exact (Hskill Herror).
Defined.

(** C7's theorem in the world where the storage works except for the link:
    the run [run-0] stays bound; the result of the case is inserted and the
    run is updated, once each; the list returned is the one returned when
    the storage works. *)
Lemma failed_linking_at_working_storage :
  (∃ db3 results db' more more',
     initialise_storage (linking_fails (λ _, names_runes)) activation None 1 empty_db
     = (Returned (Some "run-0"), db3)
     ∧ run_activation_tests (linking_fails (λ _, names_runes)) [runes_case] empty_db
       = (Returned results, db')
     ∧ ops db'
       = ops db3 ++ Prepare INSERT_activation_results :: more
         ++ Prepare UPDATE_test_runs :: more'
     ∧ length (runs_of INSERT_activation_results (ops db')) = 1%nat
     ∧ length (runs_of UPDATE_test_runs (ops db')) = 1%nat
     ∧ (run_activation_tests (working_world (λ _, names_runes)) [runes_case]
          empty_db).1 = Returned results).
Proof.
  edestruct (failed_linking_leaves_the_run_bound (linking_fails (λ _, names_runes))
               runes_case [] empty_db)
    as (Hinit & results & db' & more & more' & Hrun & Hops).
  - reflexivity.
  - vm_compute. reflexivity.
  - discriminate.
  - reflexivity.
  - eexists _, results, db', more, more'. split; [exact Hinit|].
    split; [exact Hrun|]. split; [exact Hops|].
    pose proof Hrun as Hc. vm_compute in Hc. injection Hc as Hc1 Hc2. subst results db'.
    repeat split; vm_compute; reflexivity.
Defined.

(** C1 at a case whose expected skill is named by the agent. *)
Lemma activation_passed_at_named_skill :
  ∃ r, test_skill_activation (working_world (λ _, names_runes)) runes_case names_runes
       = Returned r
    ∧ ActivationTestResult.error r = None
    ∧ ActivationTestResult.activated_skill r = Some "svelte5-runes"
    ∧ ActivationTestResult.passed r = true.
Proof.
  destruct (activation_passed_iff_expected_and_should
              (working_world (λ _, names_runes)) runes_case names_runes)
    as (r & Hr & Hpassed & _).
  exists r. split; [exact Hr|].
  evaluate_result Hr r. split; [reflexivity|]. split; [reflexivity|].
  rewrite Hpassed; reflexivity.
Defined.

(** C2 at a batch of two cases, the first of which meets a failing agent. *)
Lemma batch_isolates_failing_cases_at_flaky_agent :
  ∃ results db' r0 r1,
    run_activation_tests (working_world flaky) [runes_case; runes_case] empty_db
    = (Returned results, db')
    ∧ results = [r0; r1]
    ∧ ActivationTestResult.passed r0 = false
    ∧ ActivationTestResult.error r0 = Some "connection lost"
    ∧ ActivationTestResult.error r1 = None
    ∧ ActivationTestResult.passed r1 = true.
Proof.
  destruct (batch_isolates_failing_cases (working_world flaky) [runes_case; runes_case]
              empty_db) as (results & db' & Hrun & Hlen & Hres).
  destruct (Hres 0%nat runes_case eq_refl) as (r0 & H0 & _ & _ & Hfail).
  destruct (Hres 1%nat runes_case eq_refl) as (r1 & H1 & _ & Hr1 & _).
  destruct (Hfail [assistant [TextBlock "Let me check"]] (ThrownError "connection lost")
              eq_refl) as [Hpassed Herror].
  { repeat constructor. }
  exists results, db', r0, r1. split; [exact Hrun|].
  split.
  { destruct results as [|x [|y [|z results]]]; try discriminate Hlen.
    cbn in H0, H1. congruence. }
  split; [exact Hpassed|]. split; [exact Herror|].
  evaluate_result Hr1 r1. split; reflexivity.
Defined.

(** C3 at the response that holds [OnClick]. *)
Lemma quality_scoring_at_onclick :
  ∃ r, test_response_quality (working_world (λ _, answers "Use OnClick={handler}"))
         onclick_case (answers "Use OnClick={handler}") = Returned r
    ∧ QualityTestResult.error r = None
    ∧ QualityTestResult.missing_facts r = []
    ∧ QualityTestResult.forbidden_content r = []
    ∧ QualityTestResult.passed r = true.
Proof.
  destruct (quality_scoring_by_lowercase_containment
              (working_world (λ _, answers "Use OnClick={handler}")) onclick_case
              (answers "Use OnClick={handler}")) as [(r & Hr & Hscore) _].
  exists r. split; [exact Hr|].
  assert (Herror : QualityTestResult.error r = None).
  { evaluate_result Hr r. reflexivity. }
  destruct (Hscore Herror) as (_ & Hmissing & Hforbidden & _ & _ & Hpassed).
  split; [exact Herror|].
  rewrite Hpassed, Hmissing, Hforbidden. repeat split; reflexivity.
Defined.

(** C4, as the code has it, at a response that lacks nothing. *)
Lemma quality_passed_at_onclick :
  ∃ r, test_response_quality (working_world (λ _, answers "Use onclick={handler}"))
         onclick_case (answers "Use onclick={handler}") = Returned r
    ∧ QualityTestResult.error r = None
    ∧ QualityTestResult.missing_facts r = []
    ∧ QualityTestResult.forbidden_content r = []
    ∧ QualityTestResult.passed r = true.
Proof.
  destruct (quality_passed_when_nothing_missing_and_no_error
              (working_world (λ _, answers "Use onclick={handler}")) onclick_case
              (answers "Use onclick={handler}")) as (r & Hr & Hpassed & _).
  exists r. split; [exact Hr|].
  assert (Hfields : QualityTestResult.error r = None
                    ∧ QualityTestResult.missing_facts r = []
                    ∧ QualityTestResult.forbidden_content r = []).
  { evaluate_result Hr r. repeat split; reflexivity. }
  destruct Hfields as (Herror & Hmissing & Hforbidden).
  repeat split; try assumption. apply (Hpassed Herror). by split.
Defined.

(** C8, as the code has it, at an agent that fails after a partial answer,
    on both paths. *)
Lemma error_result_at_broken_stream :
  (∃ r, test_response_quality (working_world (λ _, breaks_after "Use onclick"))
          onclick_case (breaks_after "Use onclick") = Returned r
     ∧ QualityTestResult.error r = Some "connection lost"
     ∧ QualityTestResult.response_preview r = ""
     ∧ QualityTestResult.response_full_text r = None
     ∧ QualityTestResult.metrics r = None
     ∧ length (QualityTestResult.logs r) = 8%nat)
  ∧ (∃ r, test_skill_activation (working_world (λ _, breaks_after "Let me check"))
            runes_case (breaks_after "Let me check") = Returned r
       ∧ ActivationTestResult.error r = Some "connection lost"
       ∧ ActivationTestResult.activated_skill r = None
       ∧ ActivationTestResult.metrics r = None
       ∧ length (ActivationTestResult.logs r) = 7%nat).
Proof.
  split.
  - destruct (proj1 (error_result_keeps_the_log_only
                       (working_world (λ _, breaks_after "Use onclick")))
                onclick_case (breaks_after "Use onclick")
                (ThrownError "connection lost") eq_refl)
      as (r & Hr & Herror & _ & Hpreview & Hfull & Hmetrics & Hlogs).
    exists r. repeat split; try assumption. rewrite Hlogs. reflexivity.
  - destruct (proj2 (error_result_keeps_the_log_only
                       (working_world (λ _, breaks_after "Let me check")))
                runes_case (breaks_after "Let me check")
                [assistant [TextBlock "Let me check"]]
                (ThrownError "connection lost") eq_refl)
      as (r & Hr & Herror & _ & Hskill & Hmetrics & Hlogs).
    { repeat constructor. }
    exists r. repeat split; try assumption. rewrite Hlogs. reflexivity.
Defined.

(** C9 at a response of 250 characters and at a failing agent. *)
Lemma response_preview_at_long_answer :
  (∃ r, test_response_quality
          (working_world (λ _, answers (concat_all (replicate 25 "0123456789"))))
          onclick_case (answers (concat_all (replicate 25 "0123456789"))) = Returned r
     ∧ QualityTestResult.error r = None
     ∧ QualityTestResult.response_preview r = concat_all (replicate 20 "0123456789")
     ∧ (String.length <$> QualityTestResult.response_full_text r) = Some 250%nat)
  ∧ (∃ r, test_response_quality (working_world (λ _, breaks_after "Use onclick"))
            onclick_case (breaks_after "Use onclick") = Returned r
       ∧ QualityTestResult.response_preview r = ""
       ∧ QualityTestResult.response_full_text r = None).
Proof.
  split.
  - destruct (response_preview_is_bounded_prefix
                (working_world (λ _, answers (concat_all (replicate 25 "0123456789"))))
                onclick_case (answers (concat_all (replicate 25 "0123456789"))))
      as (r & Hr & _ & _ & Hok & _).
    exists r. split; [exact Hr|].
    assert (Herror : QualityTestResult.error r = None).
    { evaluate_result Hr r. reflexivity. }
    destruct (Hok Herror) as (Hfull & Hpreview & _).
    split; [exact Herror|]. rewrite Hfull, Hpreview. split; reflexivity.
  - destruct (response_preview_is_bounded_prefix
                (working_world (λ _, breaks_after "Use onclick"))
                onclick_case (breaks_after "Use onclick"))
      as (r & Hr & _ & _ & _ & Hfailed).
    exists r. split; [exact Hr|]. apply Hfailed.
    evaluate_result Hr r. discriminate.
Defined.

(** C10 at a result whose metrics are all zero, stored in a working
    database: the seven metric parameters of the insert are NULL. *)
Lemma zero_metrics_at_working_storage :
  ∃ params,
    calls_of (store_activation_result (working_world (λ _, names_runes)) "run-0"
                (activation_with_metrics
                   (activation_error_result runes_case ThrownOther [])
                   (Some zero_metrics))
                (Some "How do I use $state?") (Some true) None None) empty_db !! 1%nat
    = Some (Run INSERT_activation_results params)
    ∧ take 7 (drop 11 params) = replicate 7 SqlNull.
Proof.
  destruct (proj1 (proj2 (proj2 (proj2 (zero_metrics_are_stored_as_null
                                          (working_world (λ _, names_runes))))))
              "run-0"
              (activation_with_metrics
                 (activation_error_result runes_case ThrownOther [])
                 (Some zero_metrics))
              (Some "How do I use $state?") (Some true) None None empty_db eq_refl)
    as (params & Hcall & Hparams).
  exists params. split; [exact Hcall|]. rewrite Hparams.
  apply (proj1 (proj2 (proj2 (zero_metrics_are_stored_as_null
                                (working_world (λ _, names_runes)))))).
Defined.

(* ================================================================== *)
(** ** Usage and metrics *)
(* ================================================================== *)

(** The accumulators hold, counter by counter, the sum of what the messages
    report. *)
Lemma foldl_add_message_usage (messages : list SDKMessage) (usage : UsageData.t) :
  foldl add_message_usage usage messages
  = {| UsageData.input_tokens :=
         UsageData.input_tokens usage + reported MsgUsage.input_tokens messages;
       UsageData.output_tokens :=
         UsageData.output_tokens usage + reported MsgUsage.output_tokens messages;
       UsageData.cache_creation_tokens :=
         UsageData.cache_creation_tokens usage
         + reported MsgUsage.cache_creation_input_tokens messages;
       UsageData.cache_read_tokens :=
         UsageData.cache_read_tokens usage
         + reported MsgUsage.cache_read_input_tokens messages;
       UsageData.thinking_tokens :=
         UsageData.thinking_tokens usage + reported MsgUsage.thinking_tokens messages |}.
Proof.
  revert usage. induction messages as [|message messages IH]; intros usage.
  - destruct usage. cbn. f_equal; lia.
  - cbn [foldl]. rewrite IH. unfold reported. cbn [foldr].
    destruct message as [[msg_usage|] content|type];
      cbn [add_message_usage message_usage from_option UsageData.input_tokens
           UsageData.output_tokens UsageData.cache_creation_tokens
           UsageData.cache_read_tokens UsageData.thinking_tokens];
      [|f_equal; lia..].
    f_equal; try lia.
    destruct (MsgUsage.thinking_tokens msg_usage) as [thinking|]; cbn [or_zero default];
      [|lia].
    destruct (Z.eqb_spec thinking 0); cbv [from_option id]; lia.
Qed.

Lemma accumulated_usage_reported (messages : list SDKMessage) :
  accumulated_usage messages = reported_usage messages.
Proof.
  unfold accumulated_usage. rewrite foldl_add_message_usage. reflexivity.
Qed.

(** The metrics of a quality result are the usage reported by all the
    messages of the stream, counter by counter, the time between the two
    readings of the clock, and what the two helpers return on that usage. *)
Theorem quality_metrics_sum_the_reported_usage (E : Env)
    (test_case : QualityTestCase.t) (world : Invocation) :
  ∃ r, test_response_quality E test_case world = Returned r
    ∧ ∀ m, QualityTestResult.metrics r = Some m →
        let usage := reported_usage (yielded (reply world)) in
        Metrics.input_tokens m = UsageData.input_tokens usage
        ∧ Metrics.output_tokens m = UsageData.output_tokens usage
        ∧ Metrics.cache_creation_tokens m = UsageData.cache_creation_tokens usage
        ∧ Metrics.cache_read_tokens m = UsageData.cache_read_tokens usage
        ∧ Metrics.thinking_tokens m = Some (UsageData.thinking_tokens usage)
        ∧ Metrics.latency_ms m = end_time world - start_time world
        ∧ calculate_total_tokens E usage = Returned (Metrics.total_tokens m)
        ∧ calculate_cost E usage
            (or_string (QualityTestCase.model test_case) default_model)
          = Returned (Metrics.estimated_cost_usd m).
Proof.
  destruct (test_response_quality_cases E test_case world) as [logged ->].
  eexists; split; [reflexivity|]. intros m. unfold quality_outcome.
  rewrite accumulated_usage_reported.
  destruct (stream_end (reply world)); [done|].
  destruct (calculate_total_tokens E _) as [total|] eqn:Htotal; [|done].
  destruct (calculate_cost E _ _) as [cost|] eqn:Hcost; [|done].
  intros [= <-]. cbn. repeat split; done.
Qed.

(** Both commands return a result for the case they were given; a result
    carries metrics exactly when it carries no error, and a result that
    passed carries no error. *)
Theorem results_carry_metrics_or_an_error (E : Env) :
  (∀ (test_case : ActivationTestCase.t) (world : Invocation),
     ∃ r, test_skill_activation E test_case world = Returned r
       ∧ ActivationTestResult.test_id r = ActivationTestCase.id test_case
       ∧ (ActivationTestResult.error r = None
          ↔ is_Some (ActivationTestResult.metrics r))
       ∧ (ActivationTestResult.passed r = true → ActivationTestResult.error r = None))
  ∧ (∀ (test_case : QualityTestCase.t) (world : Invocation),
       ∃ r, test_response_quality E test_case world = Returned r
         ∧ QualityTestResult.test_id r = QualityTestCase.id test_case
         ∧ (QualityTestResult.error r = None
            ↔ is_Some (QualityTestResult.metrics r))
         ∧ (QualityTestResult.passed r = true → QualityTestResult.error r = None)).
Proof.
  split.
  - intros test_case world.
    destruct (for_await_activation (reply world) None usage_zero
                (activation_header test_case)) as [[[a u]|error] logged] eqn:Hloop.
    + rewrite (activation_returned E _ _ _ _ _ Hloop).
      destruct (calculate_total_tokens E u) as [total|error];
        [destruct (calculate_cost E u _) as [cost|error]|];
        eexists; (split; [reflexivity|]); cbn; (split; [done|]);
        (split; [|done]); split; try done; by intros [? ?].
    + rewrite (activation_threw E _ _ _ _ Hloop).
      eexists; (split; [reflexivity|]); cbn. split; [done|].
      split; [|done]. split; [done|]. by intros [? ?].
  - intros test_case world.
    destruct (test_response_quality_cases E test_case world) as [logged ->].
    eexists; split; [reflexivity|]. unfold quality_outcome.
    destruct (stream_end (reply world));
      [|destruct (calculate_total_tokens E _);
        [destruct (calculate_cost E _ _)|]]; cbn;
      (split; [done|]); (split; [|done]); split; try done; by intros [? ?].
Qed.

(* ================================================================== *)
(** ** What the activation path takes from the stream *)
(* ================================================================== *)

Lemma truthy_after_message (activated_skill : option string) (message : SDKMessage) :
  truthy activated_skill = false →
  truthy (after_message activated_skill message) = truthy (message_skill message).
Proof. intros Ha. unfold after_message. by destruct (message_skill message). Qed.

(** The loop of the activation path on any stream: it throws the error met,
    or returns the last skill named by the messages taken and the usage they
    report. *)
Lemma for_await_activation_spec (stream : AgentStream) (activated_skill : option string)
    (usage : UsageData.t) (logs : list string) :
  truthy activated_skill = false →
  ∃ logged,
    for_await_activation stream activated_skill usage logs
    = (match failure_met stream with
       | Some error => Threw error
       | None => Returned (foldl after_message activated_skill (consumed stream),
                           foldl add_message_usage usage (consumed stream))
       end, logs ++ logged).
Proof.
  revert activated_skill usage logs.
  induction stream as [|message rest IH|error]; intros activated_skill usage logs Ha.
  - exists []. cbn. by rewrite app_nil_r.
  - destruct (for_await_activation_step message) as [logged1 Hstep].
    rewrite Hstep. cbn [failure_met consumed].
    pose proof (truthy_after_message activated_skill message Ha) as Hafter.
    destruct message as [u content|type].
    + rewrite Hafter. destruct (truthy (message_skill _)) eqn:Hskill.
      * by exists logged1.
      * destruct (IH (after_message activated_skill (AssistantMessage u content))
                    (add_message_usage usage (AssistantMessage u content))
                    (logs ++ logged1)) as [logged2 ->]; [by rewrite Hafter|].
        exists (logged1 ++ logged2). by rewrite app_assoc.
    + cbn [message_skill truthy].
      destruct (IH activated_skill (add_message_usage usage (OtherMessage type))
                  (logs ++ logged1) Ha) as [logged2 ->].
      exists (logged1 ++ logged2). by rewrite app_assoc.
  - exists []. cbn. by rewrite app_nil_r.
Qed.

(** The loop does not see what follows the first message that names a skill
    by a non-empty string. *)
Lemma for_await_activation_cut (stream : AgentStream) (activated_skill : option string)
    (usage : UsageData.t) (logs : list string) :
  truthy activated_skill = false →
  for_await_activation stream activated_skill usage logs
  = for_await_activation (cut_at_activation stream) activated_skill usage logs.
Proof.
  revert activated_skill usage logs.
  induction stream as [|message rest IH|error]; intros activated_skill usage logs Ha;
    [reflexivity| |reflexivity].
  destruct (for_await_activation_step message) as [logged Hstep].
  pose proof (truthy_after_message activated_skill message Ha) as Hafter.
  cbn [cut_at_activation].
  destruct (truthy (message_skill message)) eqn:Hskill; rewrite !Hstep.
  - destruct message as [u content|type]; [|done]. by rewrite Hafter.
  - destruct message as [u content|type].
    + rewrite Hafter. apply IH. by rewrite Hafter.
    + by apply IH.
Qed.

(** When a first non-empty name exists, it is the last skill named by the
    messages taken. *)
Lemma foldl_after_message_first_named (stream : AgentStream)
    (activated_skill : option string) (skill : string) :
  first_named stream = Some skill →
  foldl after_message activated_skill (consumed stream) = Some skill.
Proof.
  revert activated_skill.
  induction stream as [|message rest IH|error]; intros activated_skill; [done| |done].
  cbn [first_named consumed].
  destruct (truthy (message_skill message)) eqn:Hskill.
  - intros Hm. cbn. unfold after_message. by rewrite Hm.
  - intros Hrest. cbn [foldl]. by apply IH.
Qed.

(** Without such a name, the last skill named is absent or the empty
    string. *)
Lemma foldl_after_message_unnamed (stream : AgentStream)
    (activated_skill : option string) :
  truthy activated_skill = false →
  first_named stream = None →
  truthy (foldl after_message activated_skill (consumed stream)) = false.
Proof.
  revert activated_skill.
  induction stream as [|message rest IH|error]; intros activated_skill Ha;
    [done| |done].
  cbn [first_named consumed].
  destruct (truthy (message_skill message)) eqn:Hskill.
  - intros Hm. rewrite Hm in Hskill. done.
  - intros Hrest. cbn [foldl]. apply IH; [|done].
    by rewrite truthy_after_message.
Qed.

(** The activation command returns the same result on a stream and on the
    stream cut after the first message that names a skill by a non-empty
    string: what the agent yields or throws after that message is never
    taken from the stream. *)
Theorem activation_ignores_the_stream_after_activation (E : Env)
    (test_case : ActivationTestCase.t) (stream : AgentStream) (start_time end_time : Z) :
  test_skill_activation E test_case
    {| reply := stream; start_time := start_time; end_time := end_time |}
  = test_skill_activation E test_case
      {| reply := cut_at_activation stream; start_time := start_time;
         end_time := end_time |}.
Proof.
  unfold test_skill_activation, run_command, activation_body. unfold_monad.
  cbn [reply]. by rewrite (for_await_activation_cut stream None).
Qed.

(** A result of the activation command without error reports, as
    [activated_skill], the first non-empty skill name of the stream if there
    is one, and otherwise nothing or the empty string, in which case it has
    not passed. Its usage counters are those reported by the messages taken
    from the stream, the ones after the activation not included. *)
Theorem activation_reports_the_first_named_skill (E : Env)
    (test_case : ActivationTestCase.t) (world : Invocation) :
  ∃ r, test_skill_activation E test_case world = Returned r
    ∧ (ActivationTestResult.error r = None →
       (∀ skill, first_named (reply world) = Some skill →
                 ActivationTestResult.activated_skill r = Some skill)
       ∧ (first_named (reply world) = None →
          truthy (ActivationTestResult.activated_skill r) = false
          ∧ ActivationTestResult.passed r = false)
       ∧ ∃ m, ActivationTestResult.metrics r = Some m
           ∧ let usage := reported_usage (consumed (reply world)) in
             Metrics.input_tokens m = UsageData.input_tokens usage
             ∧ Metrics.output_tokens m = UsageData.output_tokens usage
             ∧ Metrics.cache_creation_tokens m = UsageData.cache_creation_tokens usage
             ∧ Metrics.cache_read_tokens m = UsageData.cache_read_tokens usage
             ∧ Metrics.thinking_tokens m = Some (UsageData.thinking_tokens usage)
             ∧ Metrics.latency_ms m = end_time world - start_time world).
Proof.
  destruct (for_await_activation_spec (reply world) None usage_zero
              (activation_header test_case) eq_refl) as [logged Hloop].
  destruct (failure_met (reply world)) as [error|].
  { rewrite (activation_threw E _ _ _ _ Hloop). eexists; split; [reflexivity|]. done. }
  rewrite (activation_returned E _ _ _ _ _ Hloop).
  fold (accumulated_usage (consumed (reply world))).
  rewrite accumulated_usage_reported.
  destruct (calculate_total_tokens E _) as [total|error];
    [destruct (calculate_cost E _ _) as [cost|error]|];
    (eexists; split; [reflexivity|]); try done.
  intros _. cbn [activation_success_result ActivationTestResult.activated_skill
                 ActivationTestResult.passed ActivationTestResult.metrics].
  split; [|split].
  - intros skill. apply foldl_after_message_first_named.
  - intros Hnone.
    pose proof (foldl_after_message_unnamed (reply world) None eq_refl Hnone) as Hfalsy.
    split; [exact Hfalsy|]. unfold activation_passed.
    rewrite bool_decide_eq_false_2; [done|]. intros Heq. rewrite Heq in Hfalsy.
    by destruct (ActivationTestCase.expected_skill test_case).
  - eexists; split; [reflexivity|]. cbn. repeat split; done.
Qed.

(* ================================================================== *)
(** ** The rows the storage commands write *)
(* ================================================================== *)

Lemma bind_returned {S A B} (m : M S A) (f : A → M S B) (s s' : S) (a : A) :
  m s = (Returned a, s') → (m ≫= f) s = f a s'.
Proof. intros Hm. cbv [mbind M_bind]. by rewrite Hm. Qed.

Section FaultFreeStorage.
Context (E : Env) (Hff : fault_free E).

Lemma db_call_fault_free (op : DbOp) (db : Db) :
  db_call E op db
  = (Returned (), {| ops := ops db ++ [op]; uuids := uuids db; ticks := ticks db |}).
Proof. unfold db_call. by rewrite Hff. Qed.

Lemma prepare_fault_free (sql : Sql) (db : Db) :
  prepare E sql db
  = (Returned sql,
     {| ops := ops db ++ [Prepare sql]; uuids := uuids db; ticks := ticks db |}).
Proof. unfold prepare. cbv [mbind M_bind mret M_ret]. by rewrite db_call_fault_free. Qed.

Lemma for_of_items_fault_free (sql : Sql) (result_id : string) (items : list string)
    (db : Db) :
  for_of items (λ item, run E sql [ SqlText result_id; SqlText item ]) db
  = (Returned (), {| ops := ops db ++ (Run sql <$> item_rows result_id items);
                     uuids := uuids db; ticks := ticks db |}).
Proof.
  revert db. induction items as [|item items IH]; intros db.
  - cbn. rewrite app_nil_r. by destruct db.
  - cbn [for_of]. cbv [mbind M_bind run]. rewrite db_call_fault_free, IH.
    cbn [ops uuids ticks item_rows fmap list_fmap]. by rewrite <- app_assoc.
Qed.

Lemma insert_all_fault_free (sql : Sql) (result_id : string) (items : list string)
    (db : Db) :
  (if bool_decide (0 < length items)%nat then
     stmt ← prepare E sql;
     for_of items (λ item, run E stmt [ SqlText result_id; SqlText item ])
   else mret ()) db
  = (Returned (), {| ops := ops db ++ insert_calls sql (item_rows result_id items);
                     uuids := uuids db; ticks := ticks db |}).
Proof.
  destruct items as [|item items].
  - cbn. rewrite app_nil_r. by destruct db.
  - rewrite bool_decide_eq_true_2 by (cbn; lia).
    cbv [mbind M_bind mret M_ret prepare]. rewrite db_call_fault_free.
    rewrite for_of_items_fault_free. cbn [ops uuids ticks insert_calls item_rows fmap
      list_fmap]. by rewrite <- app_assoc.
Qed.

Lemma for_of_logs_fault_free (stmt : Sql) (result_id : string) (logs : list string)
    (db : Db) :
  for_of logs (λ log,
    now ← Date_now E;
    run E stmt [ SqlText result_id; SqlText log; SqlInteger now ]) db
  = (Returned (), {| ops := ops db ++ (Run stmt <$> log_rows E result_id (ticks db) logs);
                     uuids := uuids db; ticks := ticks db + length logs |}).
Proof.
  revert db. induction logs as [|log logs IH]; intros db.
  - cbn. rewrite app_nil_r, Nat.add_0_r. by destruct db.
  - cbn [for_of]. cbv [mbind M_bind run Date_now]. rewrite db_call_fault_free, IH.
    cbn [ops uuids ticks log_rows fmap list_fmap length].
    rewrite <- app_assoc. do 2 f_equal. lia.
Qed.

Lemma store_logs_fault_free (test_type result_id : string) (logs : list string)
    (db : Db) :
  store_logs E test_type result_id logs db
  = (Returned (),
     {| ops := ops db ++ insert_calls (INSERT_test_logs test_type)
                           (log_rows E result_id (ticks db) logs);
        uuids := uuids db; ticks := ticks db + length logs |}).
Proof.
  unfold store_logs. destruct logs as [|log logs].
  - cbn. rewrite app_nil_r, Nat.add_0_r. by destruct db.
  - rewrite bool_decide_eq_true_2 by (cbn; lia).
    erewrite bind_returned by apply prepare_fault_free.
    rewrite for_of_logs_fault_free. cbn [ops uuids ticks insert_calls log_rows].
    by rewrite <- app_assoc.
Qed.

Lemma store_activation_result_fault_free (run_id : string) (r : ActivationTestResult.t)
    (query : option string) (should_activate : option bool)
    (test_case_source session_context : option string) (db : Db) :
  store_activation_result E run_id r query should_activate test_case_source
      session_context db
    = (Returned (),
       {| ops := ops db
                 ++ Prepare INSERT_activation_results
                 :: Run INSERT_activation_results
                      ([ SqlText (uuid_source E (uuids db)); SqlText run_id;
                         SqlText (ActivationTestResult.test_id r);
                         SqlText (or_string query "");
                         SqlText (ActivationTestResult.expected_skill r);
                         nullable_text (ActivationTestResult.activated_skill r);
                         match should_activate with
                         | Some should_activate => sql_bool should_activate
                         | None => SqlInteger 1
                         end;
                         sql_bool (ActivationTestResult.passed r);
                         text_or_null (ActivationTestResult.error r);
                         SqlText (or_string test_case_source "synthetic");
                         text_or_null session_context ]
                       ++ metric_params (ActivationTestResult.metrics r)
                       ++ [ SqlInteger (clock E (ticks db)) ])
                 :: insert_calls (INSERT_test_logs "activation")
                      (log_rows E (uuid_source E (uuids db)) (S (ticks db))
                         (ActivationTestResult.logs r));
          uuids := S (uuids db);
          ticks := S (ticks db) + length (ActivationTestResult.logs r) |}).
Proof.
  unfold store_activation_result.
  erewrite bind_returned by reflexivity.
  erewrite bind_returned by apply prepare_fault_free.
  erewrite bind_returned by reflexivity.
  erewrite bind_returned by apply db_call_fault_free.
  rewrite store_logs_fault_free. cbn [ops uuids ticks app].
  rewrite <- !app_assoc. reflexivity.
Qed.

Lemma store_quality_result_fault_free (run_id : string) (r : QualityTestResult.t)
    (query skill : string) (response_full_text : option string)
    (test_case_source session_context : option string) (db : Db) :
  store_quality_result E run_id r query skill response_full_text test_case_source
      session_context db
    = (Returned (),
       {| ops := ops db
                 ++ Prepare INSERT_quality_results
                 :: Run INSERT_quality_results
                      ([ SqlText (uuid_source E (uuids db)); SqlText run_id;
                         SqlText (QualityTestResult.test_id r);
                         SqlText skill; SqlText query;
                         SqlText (QualityTestResult.response_preview r);
                         text_or_null response_full_text;
                         sql_bool (QualityTestResult.passed r);
                         text_or_null (QualityTestResult.error r);
                         SqlText (or_string test_case_source "synthetic");
                         text_or_null session_context ]
                       ++ metric_params (QualityTestResult.metrics r)
                       ++ [ SqlInteger (clock E (ticks db)) ])
                 :: insert_calls INSERT_missing_facts
                      (item_rows (uuid_source E (uuids db))
                         (QualityTestResult.missing_facts r))
                 ++ insert_calls INSERT_forbidden_content
                      (item_rows (uuid_source E (uuids db))
                         (QualityTestResult.forbidden_content r))
                 ++ insert_calls (INSERT_test_logs "quality")
                      (log_rows E (uuid_source E (uuids db)) (S (ticks db))
                         (QualityTestResult.logs r));
          uuids := S (uuids db);
          ticks := S (ticks db) + length (QualityTestResult.logs r) |}).
Proof.
  unfold store_quality_result.
  erewrite bind_returned by reflexivity.
  erewrite bind_returned by apply prepare_fault_free.
  erewrite bind_returned by reflexivity.
  erewrite bind_returned by apply db_call_fault_free.
  erewrite bind_returned by apply insert_all_fault_free.
  erewrite bind_returned by apply insert_all_fault_free.
  rewrite store_logs_fault_free. cbn [ops uuids ticks app].
  rewrite <- !app_assoc. reflexivity.
Qed.

End FaultFreeStorage.

(** In a database that does not fail, [store_quality_result] and
    [store_activation_result] return after exactly these calls, in this
    order: the insert of the result row, keyed by a fresh identifier and
    bound to the run, the test and (for quality) the skill and the query;
    then, for a quality result, one row per missing fact and one row per
    forbidden content; then one row per line of the log, the clock being
    read once per line. Every child row is keyed by the identifier of the
    result row, the rows keep the order of their lists, and no statement is
    prepared for an empty list. *)
Theorem stored_rows_follow_the_result (E : Env) (run_id : string) (db : Db) :
  fault_free E →
  let result_id := uuid_source E (uuids db) in
  (∀ (r : QualityTestResult.t) (query skill : string)
     (response_full_text test_case_source session_context : option string),
     let command :=
       store_quality_result E run_id r query skill response_full_text test_case_source
         session_context in
     (command db).1 = Returned ()
     ∧ ∃ params,
         calls_of command db
         = Prepare INSERT_quality_results
           :: Run INSERT_quality_results
                (SqlText result_id :: SqlText run_id
                 :: SqlText (QualityTestResult.test_id r)
                 :: SqlText skill :: SqlText query :: params)
           :: insert_calls INSERT_missing_facts
                (item_rows result_id (QualityTestResult.missing_facts r))
           ++ insert_calls INSERT_forbidden_content
                (item_rows result_id (QualityTestResult.forbidden_content r))
           ++ insert_calls (INSERT_test_logs "quality")
                (log_rows E result_id (S (ticks db)) (QualityTestResult.logs r)))
  ∧ (∀ (r : ActivationTestResult.t) (query : option string)
       (should_activate : option bool) (test_case_source session_context : option string),
       let command :=
         store_activation_result E run_id r query should_activate test_case_source
           session_context in
       (command db).1 = Returned ()
       ∧ ∃ params,
           calls_of command db
           = Prepare INSERT_activation_results
             :: Run INSERT_activation_results
                  (SqlText result_id :: SqlText run_id
                   :: SqlText (ActivationTestResult.test_id r)
                   :: SqlText (or_string query "")
                   :: SqlText (ActivationTestResult.expected_skill r) :: params)
             :: insert_calls (INSERT_test_logs "activation")
                  (log_rows E result_id (S (ticks db)) (ActivationTestResult.logs r))).
Proof.
  intros Hff result_id. split.
  - intros r query skill full source context command.
    pose proof (store_quality_result_fault_free E Hff run_id r query skill full source
                  context db) as Hrun.
    subst command. unfold calls_of. rewrite Hrun. split; [reflexivity|].
    eexists. cbn [snd ops]. rewrite drop_app_length. reflexivity.
  - intros r query should source context command.
    pose proof (store_activation_result_fault_free E Hff run_id r query should source
                  context db) as Hrun.
    subst command. unfold calls_of. rewrite Hrun. split; [reflexivity|].
    eexists. cbn [snd ops]. rewrite drop_app_length. reflexivity.
Qed.

(* ================================================================== *)
(** ** Failures of the database *)
(* ================================================================== *)

Section Faults.
Context (E : Env).

Lemma stops_at_fault_ret {A} (a : A) : stops_at_fault E (mret a).
Proof.
  intros db. exists []. cbn. rewrite app_nil_r. split; [done|]. intros k Hk. lia.
Qed.

Lemma stops_at_fault_silent {A} (command : M Db A) :
  (∀ db, ∃ a db', command db = (Returned a, db') ∧ ops db' = ops db) →
  stops_at_fault E command.
Proof.
  intros Hsilent db. destruct (Hsilent db) as (a & db' & -> & Hops).
  exists []. cbn. rewrite app_nil_r. split; [done|]. intros k Hk. lia.
Qed.

Lemma stops_at_fault_db_call (op : DbOp) : stops_at_fault E (db_call E op).
Proof.
  intros db. exists [op]. unfold db_call.
  destruct (db_fault E (length (ops db))) as [error|] eqn:Hfault; cbn.
  - split; [done|]. exists 0%nat. rewrite Nat.add_0_r. repeat split; [done|].
    intros j Hj. lia.
  - split; [done|]. intros k Hk. by replace k with 0%nat by lia; rewrite Nat.add_0_r.
Qed.

Lemma stops_at_fault_bind {A B} (m : M Db A) (f : A → M Db B) :
  stops_at_fault E m → (∀ a, stops_at_fault E (f a)) → stops_at_fault E (m ≫= f).
Proof.
  intros Hm Hf db. destruct (Hm db) as (calls1 & Hops1 & H1). cbv [mbind M_bind].
  destruct (m db) as [[a|error] db1]; cbn [fst snd] in *.
  - destruct (Hf a db1) as (calls2 & Hops2 & H2). exists (calls1 ++ calls2).
    rewrite Hops2, Hops1, <- app_assoc. split; [done|].
    rewrite Hops1, length_app in H2.
    destruct ((f a db1).1) as [b|error].
    + intros k Hk. rewrite length_app in Hk.
      destruct (decide (k < length calls1)%nat) as [Hlt|Hge]; [by apply H1|].
      replace (length (ops db) + k)%nat
        with (length (ops db) + length calls1 + (k - length calls1))%nat by lia.
      apply H2. lia.
    + destruct H2 as (k & Hlen & Hfault & Hbefore).
      exists (length calls1 + k)%nat. rewrite length_app, Hlen.
      split; [lia|]. split; [by rewrite Nat.add_assoc|].
      intros j Hj.
      destruct (decide (j < length calls1)%nat) as [Hlt|Hge]; [by apply H1|].
      replace (length (ops db) + j)%nat
        with (length (ops db) + length calls1 + (j - length calls1))%nat by lia.
      apply Hbefore. lia.
  - by exists calls1.
Qed.

Lemma stops_at_fault_for_of {A} (xs : list A) (body : A → M Db unit) :
  (∀ x, stops_at_fault E (body x)) → stops_at_fault E (for_of xs body).
Proof.
  intros Hbody. induction xs as [|x xs IH]; cbn [for_of].
  - apply stops_at_fault_ret.
  - apply stops_at_fault_bind; [apply Hbody|]. intros _. apply IH.
Qed.

Lemma stops_at_fault_randomUUID : stops_at_fault E (randomUUID E).
Proof. apply stops_at_fault_silent. intros db. by eexists _, _. Qed.

Lemma stops_at_fault_Date_now : stops_at_fault E (Date_now E).
Proof. apply stops_at_fault_silent. intros db. by eexists _, _. Qed.

Lemma stops_at_fault_prepare (sql : Sql) : stops_at_fault E (prepare E sql).
Proof.
  unfold prepare. apply stops_at_fault_bind; [apply stops_at_fault_db_call|].
  intros _. apply stops_at_fault_ret.
Qed.

Lemma stops_at_fault_store_logs (test_type result_id : string) (logs : list string) :
  stops_at_fault E (store_logs E test_type result_id logs).
Proof.
  unfold store_logs. case_bool_decide; [|apply stops_at_fault_ret].
  apply stops_at_fault_bind; [apply stops_at_fault_prepare|]. intros stmt.
  apply stops_at_fault_for_of. intros log.
  apply stops_at_fault_bind; [apply stops_at_fault_Date_now|]. intros now.
  apply stops_at_fault_db_call.
Qed.

Lemma stops_at_fault_insert_all (sql : Sql) (result_id : string) (xs : list string) :
  stops_at_fault E (if bool_decide (0 < length xs)%nat then
                      stmt ← prepare E sql;
                      for_of xs (λ x, run E stmt [ SqlText result_id; SqlText x ])
                    else mret ()).
Proof.
  case_bool_decide; [|apply stops_at_fault_ret].
  apply stops_at_fault_bind; [apply stops_at_fault_prepare|]. intros stmt.
  apply stops_at_fault_for_of. intros x. apply stops_at_fault_db_call.
Qed.

End Faults.

(** None of the four storage commands handles a failure of the database or
    goes on after one: each stops at the first call on the handle that
    fails and throws the error of that call; it returns only when every one
    of its calls succeeded. *)
Theorem storage_commands_stop_at_the_first_failure (E : Env) :
  (∀ model git_commit_hash test_type total_tests,
     stops_at_fault E (create_test_run E model git_commit_hash test_type total_tests))
  ∧ (∀ run_id u, stops_at_fault E (update_test_run E run_id u))
  ∧ (∀ run_id r query should_activate test_case_source session_context,
       stops_at_fault E
         (store_activation_result E run_id r query should_activate test_case_source
            session_context))
  ∧ (∀ run_id r query skill response_full_text test_case_source session_context,
       stops_at_fault E
         (store_quality_result E run_id r query skill response_full_text
            test_case_source session_context)).
Proof.
  repeat split.
  - intros. unfold create_test_run.
    apply stops_at_fault_bind; [apply stops_at_fault_randomUUID|]. intros run_id.
    apply stops_at_fault_bind; [apply stops_at_fault_Date_now|]. intros now.
    apply stops_at_fault_bind; [apply stops_at_fault_prepare|]. intros stmt.
    apply stops_at_fault_bind; [apply stops_at_fault_db_call|]. intros _.
    apply stops_at_fault_ret.
  - intros. unfold update_test_run.
    apply stops_at_fault_bind; [apply stops_at_fault_prepare|]. intros stmt.
    apply stops_at_fault_db_call.
  - intros. unfold store_activation_result.
    apply stops_at_fault_bind; [apply stops_at_fault_randomUUID|]. intros result_id.
    apply stops_at_fault_bind; [apply stops_at_fault_prepare|]. intros stmt.
    apply stops_at_fault_bind; [apply stops_at_fault_Date_now|]. intros now.
    apply stops_at_fault_bind; [apply stops_at_fault_db_call|]. intros _.
    apply stops_at_fault_store_logs.
  - intros. unfold store_quality_result.
    apply stops_at_fault_bind; [apply stops_at_fault_randomUUID|]. intros result_id.
    apply stops_at_fault_bind; [apply stops_at_fault_prepare|]. intros stmt.
    apply stops_at_fault_bind; [apply stops_at_fault_Date_now|]. intros now.
    apply stops_at_fault_bind; [apply stops_at_fault_db_call|]. intros _.
    apply stops_at_fault_bind; [apply stops_at_fault_insert_all|]. intros _.
    apply stops_at_fault_bind; [apply stops_at_fault_insert_all|]. intros _.
    apply stops_at_fault_store_logs.
Qed.

(* ================================================================== *)
(** ** The rows a batch writes *)
(* ================================================================== *)

Lemma runs_of_app (sql : Sql) (calls more : list DbOp) :
  runs_of sql (calls ++ more) = runs_of sql calls ++ runs_of sql more.
Proof. apply omap_app. Qed.

Lemma runs_of_prepare (sql stmt : Sql) (calls : list DbOp) :
  runs_of sql (Prepare stmt :: calls) = runs_of sql calls.
Proof. reflexivity. Qed.

Lemma runs_of_run (sql stmt : Sql) (params : list SqlValue) (calls : list DbOp) :
  runs_of sql (Run stmt params :: calls)
  = (if bool_decide (stmt = sql) then [params] else []) ++ runs_of sql calls.
Proof. unfold runs_of. csimpl. by case_bool_decide. Qed.

Lemma runs_of_insert_calls (sql stmt : Sql) (rows : list (list SqlValue)) :
  runs_of sql (insert_calls stmt rows) = if bool_decide (stmt = sql) then rows else [].
Proof.
  assert (Hrows : runs_of sql (Run stmt <$> rows)
                  = if bool_decide (stmt = sql) then rows else []).
  { unfold runs_of. induction rows as [|row rows IH]; [by case_bool_decide|].
    csimpl. rewrite IH. by repeat case_bool_decide. }
  destruct rows as [|row rows]; [by case_bool_decide|].
  unfold insert_calls. exact Hrows.
Qed.

Lemma or_string_empty (s : string) : or_string (Some s) "" = s.
Proof. unfold or_string. cbn. by destruct s. Qed.

Lemma if_bound_returned {S} (run_id : string) (write : string → M S unit) (s s' : S) :
  run_id ≠ "" → write run_id s = (Returned (), s') →
  if_bound (Some run_id) write s = (Returned (), s').
Proof.
  intros Hne Hwrite. unfold if_bound, try_catch. cbn [truthy default from_option id].
  assert (String.eqb run_id "" = false) as -> by by apply String.eqb_neq.
  cbn [negb]. by rewrite Hwrite.
Qed.

Lemma last_app_two {A} (xs : list A) (x y : A) : last (xs ++ [x; y]) = Some y.
Proof. by rewrite last_app. Qed.

Section FaultFreeBatches.
Context (E : Env) (Hff : fault_free E).

Lemma update_test_run_fault_free (run_id : string) (u : RunUpdate.t) (db : Db) :
  update_test_run E run_id u db
  = (Returned (),
     {| ops := ops db ++ [ Prepare UPDATE_test_runs;
                           Run UPDATE_test_runs (update_params u run_id) ];
        uuids := uuids db; ticks := ticks db |}).
Proof.
  unfold update_test_run. erewrite bind_returned by by apply prepare_fault_free.
  unfold run. rewrite db_call_fault_free by done. cbn [ops uuids ticks].
  by rewrite <- app_assoc.
Qed.

(** The loop of [run_activation_tests] with a run bound, in a database that
    does not fail. *)
Lemma activation_loop_fault_free (run_id : string)
    (test_cases : list ActivationTestCase.t) (i : nat)
    (results : list ActivationTestResult.t) (totals : Totals.t) (db : Db) :
  run_id ≠ "" →
  ∃ rs db' calls,
    activation_loop E (Some run_id) test_cases i results totals db
    = (Returned (results ++ rs, aggregate_all totals (activation_score <$> rs)), db')
    ∧ activation_results_of E i test_cases rs
    ∧ ops db' = ops db ++ calls
    ∧ take 18 <$> runs_of INSERT_activation_results calls
      = result_rows E (activation_columns run_id) (uuids db) test_cases rs
    ∧ runs_of UPDATE_test_runs calls = [].
Proof.
  intros Hne. revert i results totals db.
  induction test_cases as [|test_case rest IH]; intros i results totals db.
  - exists [], db, []. cbn. rewrite !app_nil_r. repeat split; done.
  - cbn [activation_loop]. cbv [mbind M_bind lift_outcome].
    destruct (test_skill_activation_returns E test_case (agent E i)) as [r Hr].
    rewrite Hr. pose proof (activation_test_id E _ _ _ Hr) as Hid.
    erewrite if_bound_returned;
      [|done|by apply store_activation_result_fault_free].
    match goal with
    | |- context [activation_loop E _ rest _ _ _ ?d] =>
        destruct (IH (S i) (results ++ [r])
                    (aggregate totals (ActivationTestResult.metrics r)
                       (ActivationTestResult.passed r)) d)
          as (rs & db2 & calls & -> & [Hlen Hrs] & Hops & Hrows & Hupdate)
    end.
    cbn [ops uuids] in Hops, Hrows.
    eexists (r :: rs), db2, _. rewrite <- app_assoc. split; [reflexivity|].
    split; [|split; [|split]].
    + split; [cbn [length]; by rewrite Hlen|].
      intros [|k] tc Hk.
      * injection Hk as <-. exists r. by rewrite Nat.add_0_r.
      * destruct (Hrs k tc Hk) as (r' & Hr' & Hres). exists r'.
        by rewrite Nat.add_succ_r.
    + rewrite Hops, <- app_assoc. reflexivity.
    + rewrite runs_of_app, runs_of_prepare, runs_of_run, runs_of_insert_calls.
      rewrite bool_decide_eq_true_2, bool_decide_eq_false_2 by done.
      cbn [app fmap list_fmap result_rows]. rewrite Hrows. f_equal.
      rewrite Hid, or_string_empty. reflexivity.
    + rewrite runs_of_app, runs_of_prepare, runs_of_run, runs_of_insert_calls.
      rewrite !bool_decide_eq_false_2 by done. exact Hupdate.
Qed.

Lemma quality_test_id (test_case : QualityTestCase.t) (world : Invocation)
    (r : QualityTestResult.t) :
  test_response_quality E test_case world = Returned r →
  QualityTestResult.test_id r = QualityTestCase.id test_case.
Proof.
  destruct (test_response_quality_cases E test_case world) as [logged ->].
  intros [= <-]. unfold quality_outcome.
  destruct (stream_end (reply world));
    [|destruct (calculate_total_tokens E _); [destruct (calculate_cost E _ _)|]];
    reflexivity.
Qed.

(** The loop of [run_quality_tests] with a run bound, in a database that
    does not fail. *)
Lemma quality_loop_fault_free (run_id : string)
    (test_cases : list QualityTestCase.t) (i : nat)
    (results : list QualityTestResult.t) (totals : Totals.t) (db : Db) :
  run_id ≠ "" →
  ∃ rs db' calls,
    quality_loop E (Some run_id) test_cases i results totals db
    = (Returned (results ++ rs, aggregate_all totals (quality_score <$> rs)), db')
    ∧ quality_results_of E i test_cases rs
    ∧ ops db' = ops db ++ calls
    ∧ take 18 <$> runs_of INSERT_quality_results calls
      = result_rows E (quality_columns run_id) (uuids db) test_cases rs
    ∧ runs_of INSERT_missing_facts calls
      = child_rows E QualityTestResult.missing_facts (uuids db) rs
    ∧ runs_of INSERT_forbidden_content calls
      = child_rows E QualityTestResult.forbidden_content (uuids db) rs
    ∧ runs_of UPDATE_test_runs calls = [].
Proof.
  intros Hne. revert i results totals db.
  induction test_cases as [|test_case rest IH]; intros i results totals db.
  - exists [], db, []. cbn. rewrite !app_nil_r. repeat split; done.
  - cbn [quality_loop]. cbv [mbind M_bind lift_outcome].
    destruct (test_response_quality_cases E test_case (agent E i)) as [logged Hr].
    rewrite Hr. pose proof (quality_test_id _ _ _ Hr) as Hid.
    set (r := quality_outcome E test_case (agent E i) _) in *.
    erewrite if_bound_returned;
      [|done|by apply store_quality_result_fault_free].
    match goal with
    | |- context [quality_loop E _ rest _ _ _ ?d] =>
        destruct (IH (S i) (results ++ [r])
                    (aggregate totals (QualityTestResult.metrics r)
                       (QualityTestResult.passed r)) d)
          as (rs & db2 & calls & -> & [Hlen Hrs] & Hops & Hrows & Hfacts & Hcontents
              & Hupdate)
    end.
    cbn [ops uuids] in Hops, Hrows, Hfacts, Hcontents.
    eexists (r :: rs), db2, _. rewrite <- app_assoc. split; [reflexivity|].
    split; [|split; [|split; [|split; [|split]]]].
    + split; [cbn [length]; by rewrite Hlen|].
      intros [|k] tc Hk.
      * injection Hk as <-. exists r. by rewrite Nat.add_0_r.
      * destruct (Hrs k tc Hk) as (r' & Hr' & Hres). exists r'.
        by rewrite Nat.add_succ_r.
    + rewrite Hops, <- app_assoc. reflexivity.
    + rewrite runs_of_app, runs_of_prepare, runs_of_run, !runs_of_app,
        !runs_of_insert_calls.
      rewrite bool_decide_eq_true_2, !bool_decide_eq_false_2 by done.
      cbn [app fmap list_fmap result_rows]. rewrite Hrows. f_equal.
      rewrite Hid. reflexivity.
    + rewrite runs_of_app, runs_of_prepare, runs_of_run, !runs_of_app,
        !runs_of_insert_calls.
      repeat case_bool_decide; try done.
      cbn [app child_rows]. rewrite Hfacts, app_nil_r. reflexivity.
    + rewrite runs_of_app, runs_of_prepare, runs_of_run, !runs_of_app,
        !runs_of_insert_calls.
      repeat case_bool_decide; try done.
      cbn [app child_rows]. rewrite Hcontents, app_nil_r. reflexivity.
    + rewrite runs_of_app, runs_of_prepare, runs_of_run, !runs_of_app,
        !runs_of_insert_calls.
      rewrite !bool_decide_eq_false_2 by done. exact Hupdate.
Qed.

End FaultFreeBatches.

(** In a database that does not fail, a batch that bound a run writes,
    after its initialisation: one row of results per case, in the order of
    the cases, each keyed by a fresh identifier, bound to the run, and made
    of the identifier and the query of its case and of the values of its
    result; for a quality batch, the missing facts and the forbidden
    contents of each result under the identifier of the row of that result;
    and one update of the run, which is the last call of the batch, carries
    the values of the finalization and is keyed by the run. *)
Theorem batch_writes_one_row_per_case_then_the_update (E : Env) (run_id : string)
    (db db1 : Db) :
  fault_free E → run_id ≠ "" →
  (∀ test_cases : list ActivationTestCase.t,
     initialise_storage E activation (head test_cases ≫= ActivationTestCase.model)
       (length test_cases) db = (Returned (Some run_id), db1) →
     ∃ results u db' calls,
       run_activation_batch E test_cases db = (Returned (results, u), db')
       ∧ run_activation_tests E test_cases db = (Returned results, db')
       ∧ ops db' = ops db1 ++ calls
       ∧ take 18 <$> runs_of INSERT_activation_results calls
         = result_rows E (activation_columns run_id) (uuids db1) test_cases results
       ∧ runs_of UPDATE_test_runs calls = [update_params u run_id]
       ∧ last calls = Some (Run UPDATE_test_runs (update_params u run_id)))
  ∧ (∀ test_cases : list QualityTestCase.t,
       initialise_storage E quality (head test_cases ≫= QualityTestCase.model)
         (length test_cases) db = (Returned (Some run_id), db1) →
       ∃ results u db' calls,
         run_quality_batch E test_cases db = (Returned (results, u), db')
         ∧ run_quality_tests E test_cases db = (Returned results, db')
         ∧ ops db' = ops db1 ++ calls
         ∧ take 18 <$> runs_of INSERT_quality_results calls
           = result_rows E (quality_columns run_id) (uuids db1) test_cases results
         ∧ runs_of INSERT_missing_facts calls
           = child_rows E QualityTestResult.missing_facts (uuids db1) results
         ∧ runs_of INSERT_forbidden_content calls
           = child_rows E QualityTestResult.forbidden_content (uuids db1) results
         ∧ runs_of UPDATE_test_runs calls = [update_params u run_id]
         ∧ last calls = Some (Run UPDATE_test_runs (update_params u run_id))).
Proof.
  intros Hff Hne. split.
  - intros test_cases Hinit.
    destruct (activation_loop_fault_free E Hff run_id test_cases 0 [] totals_zero db1 Hne)
      as (results & db2 & calls & Hloop & _ & Hops & Hrows & Hupdate).
    assert (Hbatch : run_activation_batch E test_cases db
      = (Returned (results,
                   final_update (length test_cases)
                     (aggregate_all totals_zero (activation_score <$> results))),
         {| ops := ops db2 ++ [ Prepare UPDATE_test_runs;
                                Run UPDATE_test_runs
                                  (update_params
                                     (final_update (length test_cases)
                                        (aggregate_all totals_zero
                                           (activation_score <$> results))) run_id) ];
            uuids := uuids db2; ticks := ticks db2 |})).
    { unfold run_activation_batch, finalise_storage.
      cbv [mbind M_bind mret M_ret] in Hinit |- *. rewrite Hinit, Hloop. cbn [app].
      erewrite if_bound_returned; [reflexivity|done|].
      by apply update_test_run_fault_free. }
    eexists results, _, _, (calls ++ [_; _]). split; [exact Hbatch|].
    split; [unfold run_activation_tests; cbv [mbind M_bind mret M_ret];
            by rewrite Hbatch|].
    cbn [ops]. split; [by rewrite Hops, <- app_assoc|].
    split; [by rewrite runs_of_app, fmap_app, Hrows, app_nil_r|].
    split; [by rewrite runs_of_app, Hupdate|].
    apply last_app_two.
  - intros test_cases Hinit.
    destruct (quality_loop_fault_free E Hff run_id test_cases 0 [] totals_zero db1 Hne)
      as (results & db2 & calls & Hloop & _ & Hops & Hrows & Hfacts & Hcontents
          & Hupdate).
    assert (Hbatch : run_quality_batch E test_cases db
      = (Returned (results,
                   final_update (length test_cases)
                     (aggregate_all totals_zero (quality_score <$> results))),
         {| ops := ops db2 ++ [ Prepare UPDATE_test_runs;
                                Run UPDATE_test_runs
                                  (update_params
                                     (final_update (length test_cases)
                                        (aggregate_all totals_zero
                                           (quality_score <$> results))) run_id) ];
            uuids := uuids db2; ticks := ticks db2 |})).
    { unfold run_quality_batch, finalise_storage.
      cbv [mbind M_bind mret M_ret] in Hinit |- *. rewrite Hinit, Hloop. cbn [app].
      erewrite if_bound_returned; [reflexivity|done|].
      by apply update_test_run_fault_free. }
    eexists results, _, _, (calls ++ [_; _]). split; [exact Hbatch|].
    split; [unfold run_quality_tests; cbv [mbind M_bind mret M_ret];
            by rewrite Hbatch|].
    cbn [ops]. split; [by rewrite Hops, <- app_assoc|].
    split; [by rewrite runs_of_app, fmap_app, Hrows, app_nil_r|].
    split; [by rewrite runs_of_app, Hfacts, app_nil_r|].
    split; [by rewrite runs_of_app, Hcontents, app_nil_r|].
    split; [by rewrite runs_of_app, Hupdate|].
    apply last_app_two.
Qed.

(* ================================================================== *)
(** ** A batch in a database that fails *)
(* ================================================================== *)

Lemma attempts_app (sql : Sql) (calls more : list DbOp) :
  attempts sql (calls ++ more) = (attempts sql calls + attempts sql more)%nat.
Proof. unfold attempts. by rewrite List.filter_app, length_app. Qed.

Lemma attempts_child_calls (sql : Sql) (calls : list DbOp) :
  child_call (Prepare sql) = False → Forall child_call calls →
  attempts sql calls = 0%nat.
Proof.
  intros Hsql. induction 1 as [|op calls Hop _ IH]; [done|].
  change (op :: calls) with ([op] ++ calls). rewrite attempts_app, IH.
  destruct op as [stmt|stmt params]; [|done]. unfold attempts. cbn.
  case_bool_decide; [|done]. subst stmt. by rewrite Hsql in Hop.
Qed.

Lemma calls_satisfy_ret (P : DbOp → Prop) {A} (a : A) : calls_satisfy P (mret a).
Proof. intros db. exists []. cbn. by rewrite app_nil_r. Qed.

Lemma calls_satisfy_bind (P : DbOp → Prop) {A B} (m : M Db A) (f : A → M Db B) :
  calls_satisfy P m → (∀ a, calls_satisfy P (f a)) → calls_satisfy P (m ≫= f).
Proof.
  intros Hm Hf db. destruct (Hm db) as (calls1 & H1 & HP1). cbv [mbind M_bind].
  destruct (m db) as [[a|error] db1]; cbn [snd] in *.
  - destruct (Hf a db1) as (calls2 & H2 & HP2). exists (calls1 ++ calls2).
    rewrite H2, H1, app_assoc. split; [done|]. by apply Forall_app.
  - by exists calls1.
Qed.

Lemma calls_satisfy_for_of (P : DbOp → Prop) {A} (xs : list A) (body : A → M Db unit) :
  (∀ x, calls_satisfy P (body x)) → calls_satisfy P (for_of xs body).
Proof.
  intros Hbody. induction xs as [|x xs IH]; cbn [for_of].
  - apply calls_satisfy_ret.
  - apply calls_satisfy_bind; [apply Hbody|]. intros _. apply IH.
Qed.

(** The state a guarded write with a run bound leaves is the one the write
    leaves, whether it returned or threw. *)
Lemma if_bound_state {S} (run_id : string) (write : string → M S unit) (s : S) :
  run_id ≠ "" → if_bound (Some run_id) write s = (Returned (), (write run_id s).2).
Proof.
  intros Hne. unfold if_bound, try_catch. cbn [truthy default from_option id].
  assert (String.eqb run_id "" = false) as -> by by apply String.eqb_neq.
  cbn [negb]. by destruct (write run_id s) as [[[]|error] s'].
Qed.

Section FailingStorage.
Context (E : Env).

Lemma calls_satisfy_db_call (P : DbOp → Prop) (op : DbOp) :
  P op → calls_satisfy P (db_call E op).
Proof.
  intros HP db. exists [op]. unfold db_call.
  destruct (db_fault E _); cbn; (split; [done|]); by apply Forall_singleton.
Qed.

Lemma calls_satisfy_Date_now (P : DbOp → Prop) : calls_satisfy P (Date_now E).
Proof. intros db. exists []. cbn. by rewrite app_nil_r. Qed.

Lemma calls_satisfy_prepare (P : DbOp → Prop) (sql : Sql) :
  P (Prepare sql) → calls_satisfy P (prepare E sql).
Proof.
  intros HP. unfold prepare. apply calls_satisfy_bind; [by apply calls_satisfy_db_call|].
  intros _. apply calls_satisfy_ret.
Qed.

Lemma child_calls_store_logs (test_type result_id : string) (logs : list string) :
  calls_satisfy child_call (store_logs E test_type result_id logs).
Proof.
  unfold store_logs. case_bool_decide; [|apply calls_satisfy_ret].
  apply calls_satisfy_bind; [by apply calls_satisfy_prepare|]. intros stmt.
  apply calls_satisfy_for_of. intros log.
  apply calls_satisfy_bind; [apply calls_satisfy_Date_now|]. intros now.
  by apply calls_satisfy_db_call.
Qed.

Lemma child_calls_insert_all (sql : Sql) (result_id : string) (xs : list string) :
  child_call (Prepare sql) →
  calls_satisfy child_call
    (if bool_decide (0 < length xs)%nat then
       stmt ← prepare E sql;
       for_of xs (λ x, run E stmt [ SqlText result_id; SqlText x ])
     else mret ()).
Proof.
  intros Hsql. case_bool_decide; [|apply calls_satisfy_ret].
  apply calls_satisfy_bind; [by apply calls_satisfy_prepare|]. intros stmt.
  apply calls_satisfy_for_of. intros x. by apply calls_satisfy_db_call.
Qed.

(** Both result inserts prepare their statement first and exactly once,
    whatever fails. *)
Lemma insert_prepared_once (sql : Sql) (params_of : string → Z → list SqlValue)
    (rest : string → M Db unit) (db : Db) :
  (∀ result_id, calls_satisfy child_call (rest result_id)) →
  ∃ calls,
    ops ((result_id ← randomUUID E;
          stmt ← prepare E sql;
          now ← Date_now E;
          run E stmt (params_of result_id now);;
          rest result_id) db).2
    = ops db ++ Prepare sql :: calls
    ∧ Forall child_call calls.
Proof.
  intros Hrest.
  cbv [mbind M_bind mret M_ret randomUUID prepare run Date_now db_call].
  cbn [ops uuids ticks].
  destruct (db_fault E (length (ops db))); [by exists []|].
  cbn [ops uuids ticks].
  destruct (db_fault E (length (ops db ++ [Prepare sql]))).
  - eexists [_]. cbn [snd ops]. rewrite <- app_assoc. split; [done|].
    by apply Forall_singleton.
  - match goal with
    | |- context [rest ?i ?d] => destruct (Hrest i d) as (calls & -> & Hcalls)
    end.
    eexists (_ :: calls). cbn [ops]. rewrite <- !app_assoc. split; [done|].
    by apply Forall_cons.
Qed.

Lemma store_activation_result_prepared_once (run_id : string)
    (r : ActivationTestResult.t) (query : option string) (should_activate : option bool)
    (test_case_source session_context : option string) (db : Db) :
  ∃ calls,
    ops (store_activation_result E run_id r query should_activate test_case_source
           session_context db).2
    = ops db ++ Prepare INSERT_activation_results :: calls
    ∧ Forall child_call calls.
Proof.
  unfold store_activation_result. apply insert_prepared_once.
  intros result_id. apply child_calls_store_logs.
Qed.

Lemma store_quality_result_prepared_once (run_id : string) (r : QualityTestResult.t)
    (query skill : string) (response_full_text : option string)
    (test_case_source session_context : option string) (db : Db) :
  ∃ calls,
    ops (store_quality_result E run_id r query skill response_full_text
           test_case_source session_context db).2
    = ops db ++ Prepare INSERT_quality_results :: calls
    ∧ Forall child_call calls.
Proof.
  unfold store_quality_result. apply insert_prepared_once.
  intros result_id.
  apply calls_satisfy_bind; [by apply child_calls_insert_all|]. intros _.
  apply calls_satisfy_bind; [by apply child_calls_insert_all|]. intros _.
  apply child_calls_store_logs.
Qed.

Lemma update_test_run_prepared_once (run_id : string) (u : RunUpdate.t) (db : Db) :
  ∃ calls,
    ops (update_test_run E run_id u db).2 = ops db ++ Prepare UPDATE_test_runs :: calls
    ∧ Forall child_call calls.
Proof.
  unfold update_test_run.
  cbv [mbind M_bind mret M_ret prepare run db_call]. cbn [ops uuids ticks].
  destruct (db_fault E (length (ops db))); [by exists []|].
  cbn [ops uuids ticks].
  destruct (db_fault E (length (ops db ++ [Prepare UPDATE_test_runs])));
    eexists [_]; cbn [snd ops]; rewrite <- app_assoc; (split; [done|]);
    by apply Forall_singleton.
Qed.

Lemma activation_loop_attempts (run_id : string)
    (test_cases : list ActivationTestCase.t) (i : nat)
    (results : list ActivationTestResult.t) (totals : Totals.t) (db : Db) :
  run_id ≠ "" →
  ∃ calls,
    ops (activation_loop E (Some run_id) test_cases i results totals db).2
    = ops db ++ calls
    ∧ attempts INSERT_activation_results calls = length test_cases
    ∧ attempts UPDATE_test_runs calls = 0%nat.
Proof.
  intros Hne. revert i results totals db.
  induction test_cases as [|test_case rest IH]; intros i results totals db.
  - exists []. cbn. by rewrite app_nil_r.
  - cbn [activation_loop]. cbv [mbind M_bind lift_outcome].
    destruct (test_skill_activation_returns E test_case (agent E i)) as [r ->].
    rewrite if_bound_state by done.
    match goal with
    | |- context [store_activation_result E ?a ?b ?c ?d ?e ?f db] =>
        destruct (store_activation_result_prepared_once a b c d e f db)
          as (calls1 & Hops1 & Hchild)
    end.
    match goal with
    | |- context [activation_loop E _ rest ?i ?rs ?t ?d] =>
        destruct (IH i rs t d) as (calls2 & -> & Hinsert & Hupdate)
    end.
    rewrite Hops1. exists ((Prepare INSERT_activation_results :: calls1) ++ calls2).
    rewrite <- app_assoc. split; [done|].
    change (Prepare INSERT_activation_results :: calls1)
      with ([Prepare INSERT_activation_results] ++ calls1).
    rewrite !attempts_app, Hinsert, Hupdate, !(attempts_child_calls _ calls1) by done.
    by cbn.
Qed.

Lemma quality_loop_attempts (run_id : string)
    (test_cases : list QualityTestCase.t) (i : nat)
    (results : list QualityTestResult.t) (totals : Totals.t) (db : Db) :
  run_id ≠ "" →
  ∃ calls,
    ops (quality_loop E (Some run_id) test_cases i results totals db).2
    = ops db ++ calls
    ∧ attempts INSERT_quality_results calls = length test_cases
    ∧ attempts UPDATE_test_runs calls = 0%nat.
Proof.
  intros Hne. revert i results totals db.
  induction test_cases as [|test_case rest IH]; intros i results totals db.
  - exists []. cbn. by rewrite app_nil_r.
  - cbn [quality_loop]. cbv [mbind M_bind lift_outcome].
    destruct (test_response_quality_cases E test_case (agent E i)) as [logged ->].
    rewrite if_bound_state by done.
    match goal with
    | |- context [store_quality_result E ?a ?b ?c ?d ?e ?f ?g db] =>
        destruct (store_quality_result_prepared_once a b c d e f g db)
          as (calls1 & Hops1 & Hchild)
    end.
    match goal with
    | |- context [quality_loop E _ rest ?i ?rs ?t ?d] =>
        destruct (IH i rs t d) as (calls2 & -> & Hinsert & Hupdate)
    end.
    rewrite Hops1. exists ((Prepare INSERT_quality_results :: calls1) ++ calls2).
    rewrite <- app_assoc. split; [done|].
    change (Prepare INSERT_quality_results :: calls1)
      with ([Prepare INSERT_quality_results] ++ calls1).
    rewrite !attempts_app, Hinsert, Hupdate, !(attempts_child_calls _ calls1) by done.
    by cbn.
Qed.

End FailingStorage.

(** Once a run is bound, a failure of the database does not end a batch:
    whichever calls on the handle fail after the initialisation, the batch
    returns its results, and on the way it prepares the insert of a result
    once per case and the update of the run once: a result that could not
    be stored does not keep the batch from attempting the later ones. *)
Theorem batch_attempts_every_write_despite_failures (E : Env) (run_id : string)
    (db db1 : Db) :
  run_id ≠ "" →
  (∀ test_cases : list ActivationTestCase.t,
     initialise_storage E activation (head test_cases ≫= ActivationTestCase.model)
       (length test_cases) db = (Returned (Some run_id), db1) →
     ∃ results db' calls,
       run_activation_tests E test_cases db = (Returned results, db')
       ∧ length results = length test_cases
       ∧ ops db' = ops db1 ++ calls
       ∧ attempts INSERT_activation_results calls = length test_cases
       ∧ attempts UPDATE_test_runs calls = 1%nat)
  ∧ (∀ test_cases : list QualityTestCase.t,
       initialise_storage E quality (head test_cases ≫= QualityTestCase.model)
         (length test_cases) db = (Returned (Some run_id), db1) →
       ∃ results db' calls,
         run_quality_tests E test_cases db = (Returned results, db')
         ∧ length results = length test_cases
         ∧ ops db' = ops db1 ++ calls
         ∧ attempts INSERT_quality_results calls = length test_cases
         ∧ attempts UPDATE_test_runs calls = 1%nat).
Proof.
  intros Hne. split.
  - intros test_cases Hinit.
    destruct (activation_loop_spec E (Some run_id) test_cases 0 [] totals_zero db1)
      as (results & db2 & Hloop & [Hlen _] & _).
    destruct (activation_loop_attempts E run_id test_cases 0 [] totals_zero db1 Hne)
      as (calls & Hops & Hinsert & Hupdate).
    rewrite Hloop in Hops. cbn [snd] in Hops.
    set (u := final_update (length test_cases)
                (aggregate_all totals_zero (activation_score <$> results))).
    destruct (update_test_run_prepared_once E run_id u db2) as (calls' & Hops' & Hchild).
    exists results, (update_test_run E run_id u db2).2,
      (calls ++ Prepare UPDATE_test_runs :: calls').
    split; [|split; [done|split]].
    + unfold run_activation_tests, run_activation_batch, finalise_storage.
      cbv [mbind M_bind mret M_ret] in Hinit |- *. rewrite Hinit, Hloop. cbn [app].
      fold u. by rewrite if_bound_state.
    + by rewrite Hops', Hops, <- app_assoc.
    + change (Prepare UPDATE_test_runs :: calls')
        with ([Prepare UPDATE_test_runs] ++ calls').
      rewrite !attempts_app, Hinsert, Hupdate, !(attempts_child_calls _ calls') by done.
      cbn. repeat case_bool_decide; done.
  - intros test_cases Hinit.
    destruct (quality_loop_spec E (Some run_id) test_cases 0 [] totals_zero db1)
      as (results & db2 & Hloop & [Hlen _] & _).
    destruct (quality_loop_attempts E run_id test_cases 0 [] totals_zero db1 Hne)
      as (calls & Hops & Hinsert & Hupdate).
    rewrite Hloop in Hops. cbn [snd] in Hops.
    set (u := final_update (length test_cases)
                (aggregate_all totals_zero (quality_score <$> results))).
    destruct (update_test_run_prepared_once E run_id u db2) as (calls' & Hops' & Hchild).
    exists results, (update_test_run E run_id u db2).2,
      (calls ++ Prepare UPDATE_test_runs :: calls').
    split; [|split; [done|split]].
    + unfold run_quality_tests, run_quality_batch, finalise_storage.
      cbv [mbind M_bind mret M_ret] in Hinit |- *. rewrite Hinit, Hloop. cbn [app].
      fold u. by rewrite if_bound_state.
    + by rewrite Hops', Hops, <- app_assoc.
    + change (Prepare UPDATE_test_runs :: calls')
        with ([Prepare UPDATE_test_runs] ++ calls').
      rewrite !attempts_app, Hinsert, Hupdate, !(attempts_child_calls _ calls') by done.
      cbn. repeat case_bool_decide; done.
Qed.

(* ================================================================== *)
(** ** The totals of a run *)
(* ================================================================== *)

Lemma aggregate_all_totals (totals : Totals.t) (scores : list (option Metrics.t * bool)) :
  Totals.total_input_tokens (aggregate_all totals scores)
  = Totals.total_input_tokens totals + total_among Metrics.input_tokens scores
  ∧ Totals.total_output_tokens (aggregate_all totals scores)
    = Totals.total_output_tokens totals + total_among Metrics.output_tokens scores
  ∧ Totals.total_cache_read_tokens (aggregate_all totals scores)
    = Totals.total_cache_read_tokens totals
      + total_among Metrics.cache_read_tokens scores
  ∧ Totals.total_cost_usd (aggregate_all totals scores)
    = (Totals.total_cost_usd totals + cost_among scores)%Qc.
Proof.
  revert totals. unfold total_among, cost_among.
  induction scores as [|[metrics passed] scores IH]; intros totals.
  - cbn. repeat split; try lia. ring.
  - rewrite aggregate_all_cons. cbn [fst snd].
    destruct (IH (aggregate totals metrics passed)) as (-> & -> & -> & ->).
    cbn [fst snd foldr]. unfold aggregate.
    destruct metrics, passed;
      cbn [Totals.total_input_tokens Totals.total_output_tokens
           Totals.total_cache_read_tokens Totals.total_cost_usd from_option];
      repeat split; try lia; ring.
Qed.

(** The totals both batch commands compute for the update of the run are
    the sums, over the results that carry metrics, of the input tokens, the
    output tokens, the cache-read tokens and the estimated cost; a result
    of the [catch] clause, which carries no metrics, adds nothing to them
    and counts as failed. *)
Theorem run_totals_sum_the_metrics_of_the_results (E : Env)
    (activation_cases : list ActivationTestCase.t)
    (quality_cases : list QualityTestCase.t) (db : Db) :
  (∃ results u db',
     run_activation_batch E activation_cases db = (Returned (results, u), db')
     ∧ let scores := activation_score <$> results in
       RunUpdate.total_input_tokens u = total_among Metrics.input_tokens scores
       ∧ RunUpdate.total_output_tokens u = total_among Metrics.output_tokens scores
       ∧ RunUpdate.total_cache_read_tokens u
         = total_among Metrics.cache_read_tokens scores
       ∧ RunUpdate.total_cost_usd u = cost_among scores
       ∧ RunUpdate.passed_tests u + RunUpdate.failed_tests u
         = Z.of_nat (length results)
       ∧ Forall (λ r, ActivationTestResult.error r ≠ None →
                      activation_score r = (None, false)) results)
  ∧ (∃ results u db',
       run_quality_batch E quality_cases db = (Returned (results, u), db')
       ∧ let scores := quality_score <$> results in
         RunUpdate.total_input_tokens u = total_among Metrics.input_tokens scores
         ∧ RunUpdate.total_output_tokens u = total_among Metrics.output_tokens scores
         ∧ RunUpdate.total_cache_read_tokens u
           = total_among Metrics.cache_read_tokens scores
         ∧ RunUpdate.total_cost_usd u = cost_among scores
         ∧ RunUpdate.passed_tests u + RunUpdate.failed_tests u
           = Z.of_nat (length results)
         ∧ Forall (λ r, QualityTestResult.error r ≠ None →
                        quality_score r = (None, false)) results).
Proof.
  split.
  - destruct (run_activation_batch_spec E activation_cases db)
      as (run_id & db1 & results & db' & _ & Hbatch & _ & [Hlen Hres] & _).
    eexists results, _, db'. split; [exact Hbatch|]. cbv zeta.
    destruct (aggregate_all_totals totals_zero (activation_score <$> results))
      as (Hin & Hout & Hcache & Hcost).
    cbn [final_update RunUpdate.passed_tests RunUpdate.failed_tests
         RunUpdate.total_input_tokens RunUpdate.total_output_tokens
         RunUpdate.total_cache_read_tokens RunUpdate.total_cost_usd].
    rewrite Hin, Hout, Hcache, Hcost. cbn [totals_zero Totals.total_input_tokens
      Totals.total_output_tokens Totals.total_cache_read_tokens Totals.total_cost_usd].
    repeat split; try lia; try ring.
    apply Forall_lookup. intros k r Hk.
    destruct (activation_cases !! k) as [test_case|] eqn:Hcase.
    + destruct (Hres k test_case Hcase) as (r' & Hr' & Htest).
      assert (r' = r) as -> by congruence.
      destruct (for_await_activation (reply (agent E (0 + k))) None usage_zero
                  (activation_header test_case)) as [[[a u]|error] logged] eqn:Hloop.
      * rewrite (activation_returned E _ _ _ _ _ Hloop) in Htest.
        destruct (calculate_total_tokens E u); [destruct (calculate_cost E u _)|];
          injection Htest as <-; done.
      * rewrite (activation_threw E _ _ _ _ Hloop) in Htest. by injection Htest as <-.
    + apply lookup_ge_None in Hcase. apply lookup_lt_Some in Hk. lia.
  - destruct (run_quality_batch_spec E quality_cases db)
      as (run_id & db1 & results & db' & _ & Hbatch & _ & [Hlen Hres] & _).
    eexists results, _, db'. split; [exact Hbatch|]. cbv zeta.
    destruct (aggregate_all_totals totals_zero (quality_score <$> results))
      as (Hin & Hout & Hcache & Hcost).
    cbn [final_update RunUpdate.passed_tests RunUpdate.failed_tests
         RunUpdate.total_input_tokens RunUpdate.total_output_tokens
         RunUpdate.total_cache_read_tokens RunUpdate.total_cost_usd].
    rewrite Hin, Hout, Hcache, Hcost. cbn [totals_zero Totals.total_input_tokens
      Totals.total_output_tokens Totals.total_cache_read_tokens Totals.total_cost_usd].
    repeat split; try lia; try ring.
    apply Forall_lookup. intros k r Hk.
    destruct (quality_cases !! k) as [test_case|] eqn:Hcase.
    + destruct (Hres k test_case Hcase) as (r' & Hr' & Htest).
      assert (r' = r) as -> by congruence.
      destruct (test_response_quality_cases E test_case (agent E (0 + k)))
        as [logged Hq].
      rewrite Hq in Htest. injection Htest as <-. intros Herr.
      by destruct (quality_outcome_error _ _ _ _ Herr) as [error ->].
    + apply lookup_ge_None in Hcase. apply lookup_lt_Some in Hk. lia.
Qed.

(* ================================================================== *)
(** ** Matching at the empty string *)
(* ================================================================== *)

Lemma includes_empty (s : string) : includes s "" = true.
Proof. by destruct s. Qed.

Lemma toLowerCase_empty (s : string) : toLowerCase s = "" → s = "".
Proof. by destruct s. Qed.

Lemma includes_in_empty (sub : string) : sub ≠ "" → includes "" sub = false.
Proof. by destruct sub. Qed.

(** The edges of the containment test of the quality command, for a result
    without error. The empty string is contained in every response: as an
    expected fact it is never missing, and as a forbidden string it is
    always found, so that a case that forbids it cannot pass. When the
    agent returns no text at all, every expected fact other than the empty
    string is missing and no forbidden string other than the empty string
    is found. *)
Theorem containment_at_the_empty_string (E : Env) (test_case : QualityTestCase.t)
    (world : Invocation) :
  ∃ r, test_response_quality E test_case world = Returned r
    ∧ (QualityTestResult.error r = None →
       ¬ In "" (QualityTestResult.missing_facts r)
       ∧ (In "" (default [] (QualityTestCase.must_not_contain test_case)) →
          In "" (QualityTestResult.forbidden_content r)
          ∧ QualityTestResult.passed r = false)
       ∧ (accumulated_text (yielded (reply world)) = "" →
          QualityTestResult.missing_facts r
          = List.filter (λ fact, negb (String.eqb fact ""))
              (default [] (QualityTestCase.expected_facts test_case))
          ∧ QualityTestResult.forbidden_content r
            = List.filter (λ forbidden, String.eqb forbidden "")
                (default [] (QualityTestCase.must_not_contain test_case)))).
Proof.
  destruct (test_response_quality_cases E test_case world) as [logged ->].
  eexists; split; [reflexivity|]. intros Herr.
  destruct (quality_outcome_error_free _ _ _ _ Herr) as (usage & total & cost & ->).
  cbn [quality_success_result QualityTestResult.missing_facts
       QualityTestResult.forbidden_content QualityTestResult.passed].
  split; [|split].
  - unfold missing_of. rewrite filter_In. intros [_ Hlacks]. unfold lacks in Hlacks.
    cbn [toLowerCase] in Hlacks. by rewrite includes_empty in Hlacks.
  - intros Hin.
    assert (Hfound : In "" (forbidden_of test_case
                              (accumulated_text (yielded (reply world))))).
    { unfold forbidden_of. rewrite filter_In. split; [done|]. unfold holds.
      cbn [toLowerCase]. apply includes_empty. }
    split; [done|]. unfold quality_passed.
    destruct (forbidden_of test_case _); [done|].
    rewrite (bool_decide_eq_false_2 (length (_ :: _) = 0%nat)) by done.
    apply andb_false_r.
  - intros ->. unfold missing_of, forbidden_of. split.
    + apply List.filter_ext. intros fact. unfold lacks. cbn [toLowerCase].
      destruct fact as [|c fact]; [done|]. by rewrite includes_in_empty.
    + apply List.filter_ext. intros forbidden. unfold holds. cbn [toLowerCase].
      destruct forbidden as [|c forbidden]; [done|]. by rewrite includes_in_empty.
Qed.

(* ================================================================== *)
(** ** The start-up of the server *)
(* ================================================================== *)


(* ================================================================== *)
(** ** The evaluation page *)
(* ================================================================== *)

Lemma activation_results_of_cons (E : Env) (i : nat) (test_case : ActivationTestCase.t)
    (rest : list ActivationTestCase.t) (r : ActivationTestResult.t)
    (rs : list ActivationTestResult.t) :
  test_skill_activation E test_case (agent E i) = Returned r →
  activation_results_of E (S i) rest rs →
  activation_results_of E i (test_case :: rest) (r :: rs).
Proof.
  intros Hr [Hlen Hrs]. split; [cbn [length]; by rewrite Hlen|].
  intros [|k] tc Hk.
  - injection Hk as <-. exists r. by rewrite Nat.add_0_r.
  - destruct (Hrs k tc Hk) as (r' & Hr' & Hres). exists r'. by rewrite Nat.add_succ_r.
Qed.

Lemma quality_results_of_cons (E : Env) (i : nat) (test_case : QualityTestCase.t)
    (rest : list QualityTestCase.t) (r : QualityTestResult.t)
    (rs : list QualityTestResult.t) :
  test_response_quality E test_case (agent E i) = Returned r →
  quality_results_of E (S i) rest rs →
  quality_results_of E i (test_case :: rest) (r :: rs).
Proof.
  intros Hr [Hlen Hrs]. split; [cbn [length]; by rewrite Hlen|].
  intros [|k] tc Hk.
  - injection Hk as <-. exists r. by rewrite Nat.add_0_r.
  - destruct (Hrs k tc Hk) as (r' & Hr' & Hres). exists r'. by rewrite Nat.add_succ_r.
Qed.

(** The results of a list of cases are determined by the cases and by the
    worlds they meet. *)
Lemma activation_results_of_unique (E : Env) (i : nat)
    (test_cases : list ActivationTestCase.t) (rs rs' : list ActivationTestResult.t) :
  activation_results_of E i test_cases rs → activation_results_of E i test_cases rs' →
  rs = rs'.
Proof.
  intros [Hlen Hrs] [Hlen' Hrs']. apply list_eq. intros k.
  destruct (test_cases !! k) as [test_case|] eqn:Hk.
  - destruct (Hrs k test_case Hk) as (r & -> & Hr).
    destruct (Hrs' k test_case Hk) as (r' & -> & Hr'). congruence.
  - apply lookup_ge_None in Hk. rewrite !(proj2 (lookup_ge_None _ _)); [done|lia..].
Qed.

Lemma quality_results_of_unique (E : Env) (i : nat)
    (test_cases : list QualityTestCase.t) (rs rs' : list QualityTestResult.t) :
  quality_results_of E i test_cases rs → quality_results_of E i test_cases rs' →
  rs = rs'.
Proof.
  intros [Hlen Hrs] [Hlen' Hrs']. apply list_eq. intros k.
  destruct (test_cases !! k) as [test_case|] eqn:Hk.
  - destruct (Hrs k test_case Hk) as (r & -> & Hr).
    destruct (Hrs' k test_case Hk) as (r' & -> & Hr'). congruence.
  - apply lookup_ge_None in Hk. rewrite !(proj2 (lookup_ge_None _ _)); [done|lia..].
Qed.

(** The results carry the identifiers of their cases, in order. *)
Lemma activation_results_ids (E : Env) (i : nat)
    (test_cases : list ActivationTestCase.t) (rs : list ActivationTestResult.t) :
  activation_results_of E i test_cases rs →
  ActivationTestResult.test_id <$> rs = ActivationTestCase.id <$> test_cases.
Proof.
  intros [Hlen Hrs]. apply list_eq. intros k. rewrite !list_lookup_fmap.
  destruct (test_cases !! k) as [test_case|] eqn:Hk.
  - destruct (Hrs k test_case Hk) as (r & -> & Hr). cbn.
    by rewrite (activation_test_id E _ _ _ Hr).
  - apply lookup_ge_None in Hk. rewrite (proj2 (lookup_ge_None rs k)); [done|lia].
Qed.

Lemma quality_results_ids (E : Env) (i : nat)
    (test_cases : list QualityTestCase.t) (rs : list QualityTestResult.t) :
  quality_results_of E i test_cases rs →
  QualityTestResult.test_id <$> rs = QualityTestCase.id <$> test_cases.
Proof.
  intros [Hlen Hrs]. apply list_eq. intros k. rewrite !list_lookup_fmap.
  destruct (test_cases !! k) as [test_case|] eqn:Hk.
  - destruct (Hrs k test_case Hk) as (r & -> & Hr). cbn.
    by rewrite (quality_test_id E _ _ _ Hr).
  - apply lookup_ge_None in Hk. rewrite (proj2 (lookup_ge_None rs k)); [done|lia].
Qed.

(** The identifiers of the tests a selection keeps. *)
Lemma tests_to_run_ids {C} (id : C → string) (selected : list string) (tests : list C) :
  id <$> tests_to_run id selected tests = selected_ids selected (id <$> tests).
Proof.
  unfold tests_to_run, selected_ids. destruct selected as [|s selected]; [done|].
  rewrite bool_decide_eq_true_2 by (cbn; lia).
  rewrite bool_decide_eq_false_2 by done.
  induction tests as [|t tests IH]; [done|]. cbn [List.filter fmap list_fmap] in *.
  assert (existsb (String.eqb (id t)) (s :: selected)
          = bool_decide (id t ∈ s :: selected)) as ->.
  { apply eq_true_iff_eq. rewrite existsb_exists, bool_decide_eq_true. split.
    - intros (x & Hx & Heq). apply String.eqb_eq in Heq as ->.
      by apply list_elem_of_In.
    - intros Hin. exists (id t). split; [by apply list_elem_of_In|].
      apply String.eqb_refl. }
  destruct (bool_decide (id t ∈ s :: selected)); cbn [fmap list_fmap]; by rewrite IH.
Qed.

Section Pages.
Context (E : Env) (template : Thrown → string).

(** The loop of the first version of the page appends to the results and to
    the log of the page those of the tests, run one by one with the selected
    model. *)
Lemma for_each_activation_test_spec (catalog tests : list ActivationTestCase.t)
    (i : nat) (page : Page.t) :
  ∃ rs text,
    PerTestPage.for_each_activation_test E template catalog tests i page
    = Page.mk (Page.activation_results page ++ rs) (Page.quality_results page)
        (Page.is_running page) text
        (Page.current_logs page ++ concat (ActivationTestResult.logs <$> rs))
        (Page.selected_model page) (Page.selected_activation_tests page)
        (Page.selected_quality_tests page)
    ∧ activation_results_of E i
        (activation_with_model (Page.selected_model page) <$> tests) rs.
Proof.
  revert i page. induction tests as [|test rest IH]; intros i page.
  - exists [], (Page.current_test page). cbn. rewrite !app_nil_r.
    split; [by destruct page|done].
  - cbn [PerTestPage.for_each_activation_test].
    cbn [Page.set_current_test Page.selected_model].
    destruct (test_skill_activation_returns E
                (activation_with_model (Page.selected_model page) test) (agent E i))
      as [r Hr].
    rewrite Hr.
    match goal with
    | |- context [PerTestPage.for_each_activation_test _ _ _ rest (S i) ?p] =>
        destruct (IH (S i) p) as (rs & text & -> & Hrs)
    end.
    cbn in Hrs |- *. exists (r :: rs), text. rewrite <- !app_assoc.
    split; [reflexivity|]. by apply activation_results_of_cons.
Qed.

Lemma for_each_quality_test_spec (catalog tests : list QualityTestCase.t)
    (i : nat) (page : Page.t) :
  ∃ rs text,
    PerTestPage.for_each_quality_test E template catalog tests i page
    = Page.mk (Page.activation_results page) (Page.quality_results page ++ rs)
        (Page.is_running page) text
        (Page.current_logs page ++ concat (QualityTestResult.logs <$> rs))
        (Page.selected_model page) (Page.selected_activation_tests page)
        (Page.selected_quality_tests page)
    ∧ quality_results_of E i
        (quality_with_model (Page.selected_model page) <$> tests) rs.
Proof.
  revert i page. induction tests as [|test rest IH]; intros i page.
  - exists [], (Page.current_test page). cbn. rewrite !app_nil_r.
    split; [by destruct page|done].
  - cbn [PerTestPage.for_each_quality_test].
    cbn [Page.set_current_test Page.selected_model].
    destruct (test_response_quality_cases E
                (quality_with_model (Page.selected_model page) test) (agent E i))
      as [logged Hr].
    rewrite Hr.
    match goal with
    | |- context [PerTestPage.for_each_quality_test _ _ _ rest (S i) ?p] =>
        destruct (IH (S i) p) as (rs & text & -> & Hrs)
    end.
    cbn in Hrs |- *. eexists (_ :: rs), text. rewrite <- !app_assoc.
    split; [reflexivity|]. by apply quality_results_of_cons.
Qed.

(** What the second version of the page leaves when a run ends. *)
Lemma batch_page_activation (catalog : list ActivationTestCase.t) (page : Page.t)
    (db : Db) :
  ∃ results db',
    BatchPage.run_all_activation_tests E template catalog page db
    = (Returned (Page.mk results (Page.quality_results page) false ""
                   (concat (ActivationTestResult.logs <$> results))
                   (Page.selected_model page) (Page.selected_activation_tests page)
                   (Page.selected_quality_tests page)), db')
    ∧ activation_results_of E 0
        (activation_with_model (Page.selected_model page)
         <$> tests_to_run ActivationTestCase.id (Page.selected_activation_tests page)
               catalog) results.
Proof.
  unfold BatchPage.run_all_activation_tests.
  cbn [Page.set_is_running Page.set_activation_results Page.set_current_logs
       Page.set_current_test Page.selected_model Page.selected_activation_tests].
  match goal with
  | |- context [run_activation_tests E ?cases] =>
      destruct (run_activation_batch_spec E cases db)
        as (run_id & db1 & results & db' & _ & _ & Hrun & Hres & _)
  end.
  exists results, db'. split; [|exact Hres].
  cbv [mbind M_bind mret M_ret try_catch]. rewrite Hrun. reflexivity.
Qed.

Lemma batch_page_quality (catalog : list QualityTestCase.t) (page : Page.t) (db : Db) :
  ∃ results db',
    BatchPage.run_all_quality_tests E template catalog page db
    = (Returned (Page.mk (Page.activation_results page) results false ""
                   (concat (QualityTestResult.logs <$> results))
                   (Page.selected_model page) (Page.selected_activation_tests page)
                   (Page.selected_quality_tests page)), db')
    ∧ quality_results_of E 0
        (quality_with_model (Page.selected_model page)
         <$> tests_to_run QualityTestCase.id (Page.selected_quality_tests page)
               catalog) results.
Proof.
  unfold BatchPage.run_all_quality_tests.
  cbn [Page.set_is_running Page.set_quality_results Page.set_current_logs
       Page.set_current_test Page.selected_model Page.selected_quality_tests].
  match goal with
  | |- context [run_quality_tests E ?cases] =>
      destruct (run_quality_batch_spec E cases db)
        as (run_id & db1 & results & db' & _ & _ & Hrun & Hres & _)
  end.
  exists results, db'. split; [|exact Hres].
  cbv [mbind M_bind mret M_ret try_catch]. rewrite Hrun. reflexivity.
Qed.

End Pages.

(** A run started from the second version of the page ends with the page
    idle and showing one result per selected test: the tests run are those
    of the catalog whose identifier occurs in the selection, in the order of
    the catalog, or the whole catalog when nothing is selected (a selection
    that matches no identifier runs no test); each is run with the model
    selected on the page, whatever model the case names; and the log shown
    is the concatenation of the logs of the results. *)
Theorem page_runs_the_selected_tests_with_the_selected_model (E : Env)
    (template : Thrown → string) (activation_tests : list ActivationTestCase.t)
    (qualityTests : list QualityTestCase.t) (page : Page.t) (db : Db) :
  (∃ page' db',
     BatchPage.run_all_activation_tests E template activation_tests page db
     = (Returned page', db')
     ∧ ActivationTestResult.test_id <$> Page.activation_results page'
       = selected_ids (Page.selected_activation_tests page)
           (ActivationTestCase.id <$> activation_tests)
     ∧ activation_results_of E 0
         (activation_with_model (Page.selected_model page)
          <$> tests_to_run ActivationTestCase.id (Page.selected_activation_tests page)
                activation_tests)
         (Page.activation_results page')
     ∧ Page.current_logs page'
       = concat (ActivationTestResult.logs <$> Page.activation_results page')
     ∧ Page.is_running page' = false
     ∧ Page.current_test page' = ""
     ∧ Page.quality_results page' = Page.quality_results page)
  ∧ (∃ page' db',
       BatchPage.run_all_quality_tests E template qualityTests page db
       = (Returned page', db')
       ∧ QualityTestResult.test_id <$> Page.quality_results page'
         = selected_ids (Page.selected_quality_tests page)
             (QualityTestCase.id <$> qualityTests)
       ∧ quality_results_of E 0
           (quality_with_model (Page.selected_model page)
            <$> tests_to_run QualityTestCase.id (Page.selected_quality_tests page)
                  qualityTests)
           (Page.quality_results page')
       ∧ Page.current_logs page'
         = concat (QualityTestResult.logs <$> Page.quality_results page')
       ∧ Page.is_running page' = false
       ∧ Page.current_test page' = ""
       ∧ Page.activation_results page' = Page.activation_results page).
Proof.
  split.
  - destruct (batch_page_activation E template activation_tests page db)
      as (results & db' & Hrun & Hres).
    eexists _, db'. split; [exact Hrun|]. cbn. repeat split; try done; try apply Hres.
    rewrite (activation_results_ids E 0 _ _ Hres), <- list_fmap_compose.
    by rewrite <- tests_to_run_ids.
  - destruct (batch_page_quality E template qualityTests page db)
      as (results & db' & Hrun & Hres).
    eexists _, db'. split; [exact Hrun|]. cbn. repeat split; try done; try apply Hres.
    rewrite (quality_results_ids E 0 _ _ Hres), <- list_fmap_compose.
    by rewrite <- tests_to_run_ids.
Qed.

(** With nothing selected, the second version of the page, which hands the
    catalog to the batch command, leaves the page in the state the first
    version leaves it in, which runs the tests of the catalog one by one:
    the same results, the same log, idle. Storing the run in the database
    changes nothing of what the page shows. *)
Theorem both_pages_show_the_same_results (E : Env) (template : Thrown → string)
    (activation_tests : list ActivationTestCase.t)
    (qualityTests : list QualityTestCase.t) (page : Page.t) (db : Db) :
  (Page.selected_activation_tests page = [] →
   (BatchPage.run_all_activation_tests E template activation_tests page db).1
   = Returned (PerTestPage.run_all_activation_tests E template activation_tests page))
  ∧ (Page.selected_quality_tests page = [] →
     (BatchPage.run_all_quality_tests E template qualityTests page db).1
     = Returned (PerTestPage.run_all_quality_tests E template qualityTests page)).
Proof.
  split.
  - intros Hnone.
    destruct (batch_page_activation E template activation_tests page db)
      as (results & db' & -> & Hres).
    rewrite Hnone in Hres. cbn [tests_to_run length] in Hres.
    unfold PerTestPage.run_all_activation_tests.
    match goal with
    | |- context [PerTestPage.for_each_activation_test _ _ _ _ 0 ?p] =>
        destruct (for_each_activation_test_spec E template activation_tests
                    activation_tests 0 p) as (rs & text & -> & Hrs)
    end.
    cbn in Hrs |- *. by rewrite (activation_results_of_unique E 0 _ _ _ Hres Hrs).
  - intros Hnone.
    destruct (batch_page_quality E template qualityTests page db)
      as (results & db' & -> & Hres).
    rewrite Hnone in Hres. cbn [tests_to_run length] in Hres.
    unfold PerTestPage.run_all_quality_tests.
    match goal with
    | |- context [PerTestPage.for_each_quality_test _ _ _ _ 0 ?p] =>
        destruct (for_each_quality_test_spec E template qualityTests
                    qualityTests 0 p) as (rs & text & -> & Hrs)
    end.
    cbn in Hrs |- *. by rewrite (quality_results_of_unique E 0 _ _ _ Hres Hrs).
Qed.

(* ================================================================== *)
(** ** A batch without storage *)
(* ================================================================== *)

(** When storing the skill versions or creating the run throws, the
    initialisation of a batch binds no run. *)
Lemma initialise_storage_unbound (E : Env) (test_type : TestType)
    (first_model : option string) (total_tests : nat) (db : Db) :
  (∃ error, (store_skill_versions E db).1 = Threw error)
  ∨ (∃ versions db1 error,
       store_skill_versions E db = (Returned versions, db1)
       ∧ (create_test_run E (or_string first_model default_model) None test_type
            (Z.of_nat total_tests) db1).1 = Threw error) →
  ∃ db1, initialise_storage E test_type first_model total_tests db = (Returned None, db1).
Proof.
  intros Hfail. unfold initialise_storage. unfold_monad.
  destruct Hfail as [[error Hfail]|(versions & db0 & error & Hversions & Hfail)].
  - destruct (store_skill_versions E db) as [[versions|error'] db0]; [done|].
    by eexists.
  - rewrite Hversions.
    destruct (create_test_run E _ None test_type _ db0) as [[id|error'] db0'];
      [done|]. by eexists.
Qed.

(** The results of the two batch commands are the same in every state of
    the storage: two worlds with the same agent and the same metric helpers
    return the same list of results, whatever their storage commands and
    their databases do, and whether these fail or not. *)
Theorem results_do_not_depend_on_the_storage (E E' : Env)
    (activation_cases : list ActivationTestCase.t)
    (quality_cases : list QualityTestCase.t) (db db' : Db) :
  (∀ usage, calculate_total_tokens E usage = calculate_total_tokens E' usage) →
  (∀ usage model, calculate_cost E usage model = calculate_cost E' usage model) →
  (∀ i, agent E i = agent E' i) →
  (run_activation_tests E activation_cases db).1
  = (run_activation_tests E' activation_cases db').1
  ∧ (run_quality_tests E quality_cases db).1
    = (run_quality_tests E' quality_cases db').1.
Proof.
  intros Htokens Hcost Hagent. split.
  - by apply activation_results_independent_of_storage.
  - by apply quality_results_independent_of_storage.
Qed.

(** When storing the skill versions or creating the run throws, a batch
    binds no run, and it makes no call on the database after its
    initialisation: it returns its results in the state the initialisation
    left, with no result stored and no run updated. *)
Theorem nothing_is_written_when_no_run_is_created (E : Env) (db : Db) :
  (∃ error, (store_skill_versions E db).1 = Threw error)
  ∨ (∃ versions db1,
       store_skill_versions E db = (Returned versions, db1)
       ∧ ∀ model test_type total_tests,
           ∃ error, (create_test_run E model None test_type total_tests db1).1
                    = Threw error) →
  (∀ test_cases : list ActivationTestCase.t,
     ∃ db1 results,
       initialise_storage E activation (head test_cases ≫= ActivationTestCase.model)
         (length test_cases) db = (Returned None, db1)
       ∧ run_activation_tests E test_cases db = (Returned results, db1)
       ∧ length results = length test_cases)
  ∧ (∀ test_cases : list QualityTestCase.t,
       ∃ db1 results,
         initialise_storage E quality (head test_cases ≫= QualityTestCase.model)
           (length test_cases) db = (Returned None, db1)
         ∧ run_quality_tests E test_cases db = (Returned results, db1)
         ∧ length results = length test_cases).
Proof.
  intros Hfail.
  assert (Hunbound : ∀ test_type first_model total_tests,
            ∃ db1, initialise_storage E test_type first_model total_tests db
                   = (Returned None, db1)).
  { intros test_type first_model total_tests. apply initialise_storage_unbound.
    destruct Hfail as [Hfail|(versions & db1 & Hversions & Hcreate)]; [by left|].
    right. destruct (Hcreate (or_string first_model default_model) test_type
                       (Z.of_nat total_tests)) as [error Herror].
    by exists versions, db1, error. }
  split.
  - intros test_cases.
    destruct (run_activation_batch_spec E test_cases db)
      as (run_id & db1 & results & db' & Hinit & _ & Hrun & [Hlen _] & Hsame).
    destruct (Hunbound activation (head test_cases ≫= ActivationTestCase.model)
                (length test_cases)) as [db1' Hnone].
    rewrite Hnone in Hinit. injection Hinit as <- <-.
    exists db1', results. rewrite Hrun, Hsame; done.
  - intros test_cases.
    destruct (run_quality_batch_spec E test_cases db)
      as (run_id & db1 & results & db' & Hinit & _ & Hrun & [Hlen _] & Hsame).
    destruct (Hunbound quality (head test_cases ≫= QualityTestCase.model)
                (length test_cases)) as [db1' Hnone].
    rewrite Hnone in Hinit. injection Hinit as <- <-.
    exists db1', results. rewrite Hrun, Hsame; done.
Qed.

(* ================================================================== *)
(** ** The further properties at concrete inputs *)
(* ================================================================== *)

(** The metrics of a quality result whose only message reports 10 input and
    5 output tokens, for an invocation of 42 ms. *)
Lemma quality_metrics_at_onclick :
  ∃ r m, test_response_quality (working_world (λ _, answers "Use onclick={handler}"))
           onclick_case (answers "Use onclick={handler}") = Returned r
    ∧ QualityTestResult.metrics r = Some m
    ∧ Metrics.input_tokens m = 10
    ∧ Metrics.output_tokens m = 5
    ∧ Metrics.latency_ms m = 42.
Proof.
  destruct (quality_metrics_sum_the_reported_usage
              (working_world (λ _, answers "Use onclick={handler}")) onclick_case
              (answers "Use onclick={handler}")) as (r & Hr & Hm).
  assert (Hmetrics : is_Some (QualityTestResult.metrics r)).
  { evaluate_result Hr r. by eexists. }
  destruct Hmetrics as [m Hmetrics].
  destruct (Hm m Hmetrics) as (Hin & Hout & _ & _ & _ & Hlatency & _).
  exists r, m. split; [exact Hr|]. split; [exact Hmetrics|].
  rewrite Hin, Hout, Hlatency. repeat split; reflexivity.
Defined.

(** A result that passed carries no error and carries metrics. *)
Lemma passed_result_at_named_skill :
  ∃ r, test_skill_activation (working_world (λ _, names_runes)) runes_case names_runes
       = Returned r
    ∧ ActivationTestResult.passed r = true
    ∧ ActivationTestResult.error r = None
    ∧ is_Some (ActivationTestResult.metrics r).
Proof.
  destruct (proj1 (results_carry_metrics_or_an_error (working_world (λ _, names_runes)))
              runes_case names_runes) as (r & Hr & _ & Hiff & Hpassed).
  assert (Hp : ActivationTestResult.passed r = true).
  { evaluate_result Hr r. reflexivity. }
  exists r. split; [exact Hr|]. split; [exact Hp|].
  split; [exact (Hpassed Hp)|]. apply Hiff, Hpassed, Hp.
Defined.

(** The first non-empty name of a stream that names the empty string
    first. *)
Lemma first_named_skill_at_empty_then_runes :
  first_named (reply empty_then_runes) = Some "svelte5-runes"
  ∧ ∃ r, test_skill_activation (working_world (λ _, empty_then_runes)) runes_case
           empty_then_runes = Returned r
      ∧ ActivationTestResult.error r = None
      ∧ ActivationTestResult.activated_skill r = Some "svelte5-runes".
Proof.
  split; [reflexivity|].
  destruct (activation_reports_the_first_named_skill
              (working_world (λ _, empty_then_runes)) runes_case empty_then_runes)
    as (r & Hr & Hfirst).
  assert (Herror : ActivationTestResult.error r = None).
  { evaluate_result Hr r. reflexivity. }
  exists r. split; [exact Hr|]. split; [exact Herror|].
  destruct (Hfirst Herror) as (Hnamed & _). apply Hnamed. reflexivity.
Defined.

(** The calls that store a quality result with one missing fact, one
    forbidden content and two lines of log. *)
Lemma stored_rows_at_working_storage :
  fault_free (working_world (λ _, names_runes))
  ∧ ∃ params,
      calls_of (store_quality_result (working_world (λ _, names_runes)) "run-7"
                  failed_quality_result "How do I handle a click?" "svelte5-runes"
                  (Some "Use on:click") None None) empty_db
      = [ Prepare INSERT_quality_results;
          Run INSERT_quality_results
            (SqlText "run-0" :: SqlText "run-7" :: SqlText "runes-events"
             :: SqlText "svelte5-runes" :: SqlText "How do I handle a click?" :: params);
          Prepare INSERT_missing_facts;
          Run INSERT_missing_facts [SqlText "run-0"; SqlText "onclick"];
          Prepare INSERT_forbidden_content;
          Run INSERT_forbidden_content [SqlText "run-0"; SqlText "on:click"];
          Prepare (INSERT_test_logs "quality");
          Run (INSERT_test_logs "quality")
            [SqlText "run-0"; SqlText "first line"; SqlInteger 1001];
          Run (INSERT_test_logs "quality")
            [SqlText "run-0"; SqlText "second line"; SqlInteger 1002] ].
Proof.
  assert (Hff : fault_free (working_world (λ _, names_runes))) by (intros n; reflexivity).
  split; [exact Hff|].
  destruct (stored_rows_follow_the_result (working_world (λ _, names_runes)) "run-7"
              empty_db Hff) as [Hquality _].
  destruct (Hquality failed_quality_result "How do I handle a click?" "svelte5-runes"
              (Some "Use on:click") None None) as (_ & params & Hcalls).
  exists params. exact Hcalls.
Defined.

(** A failure of the first call of [store_activation_result] in a database
    that has seen two calls: the command throws that error after that call. *)
Lemma storage_failure_at_third_call :
  ∃ calls,
    ops (store_activation_result (third_call_fails (λ _, names_runes)) "run-0"
           (activation_error_result runes_case ThrownOther []) None None None None
           {| ops := [Prepare INSERT_test_runs; Run INSERT_test_runs []];
              uuids := 1; ticks := 1 |}).2
    = [Prepare INSERT_test_runs; Run INSERT_test_runs []] ++ calls
    ∧ length calls = 1%nat
    ∧ (store_activation_result (third_call_fails (λ _, names_runes)) "run-0"
         (activation_error_result runes_case ThrownOther []) None None None None
         {| ops := [Prepare INSERT_test_runs; Run INSERT_test_runs []];
            uuids := 1; ticks := 1 |}).1
      = Threw (ThrownError "database is locked").
Proof.
  destruct (storage_commands_stop_at_the_first_failure
              (third_call_fails (λ _, names_runes))) as (_ & _ & Hstore & _).
  destruct (Hstore "run-0" (activation_error_result runes_case ThrownOther []) None None
              None None
              {| ops := [Prepare INSERT_test_runs; Run INSERT_test_runs []];
                 uuids := 1; ticks := 1 |}) as (calls & Hops & Hfault).
  exists calls. split; [exact Hops|].
  assert (Hcalls : calls = [Prepare INSERT_activation_results]).
  { vm_compute in Hops. by injection Hops as <-. }
  subst calls. split; reflexivity.
Defined.

(** The rows of a batch of two cases in the working storage: two results,
    keyed [run-1] and [run-2] and bound to the run [run-0], then the update
    of that run with two passed tests. *)
Lemma batch_rows_at_working_storage :
  ∃ results u db' calls,
    run_activation_batch (working_world (λ _, names_runes)) [runes_case; runes_case]
      empty_db = (Returned (results, u), db')
    ∧ (take 3 <$> runs_of INSERT_activation_results calls)
      = [ [SqlText "run-1"; SqlText "run-0"; SqlText "runes-state"];
          [SqlText "run-2"; SqlText "run-0"; SqlText "runes-state"] ]
    ∧ runs_of UPDATE_test_runs calls = [update_params u "run-0"]
    ∧ last calls = Some (Run UPDATE_test_runs (update_params u "run-0"))
    ∧ RunUpdate.passed_tests u = 2.
Proof.
  assert (Hff : fault_free (working_world (λ _, names_runes))) by (intros n; reflexivity).
  assert (Hne : "run-0" ≠ "") by discriminate.
  destruct (batch_writes_one_row_per_case_then_the_update
              (working_world (λ _, names_runes)) "run-0" empty_db
              (initialise_storage (working_world (λ _, names_runes)) activation None 2
                 empty_db).2 Hff Hne) as [Hactivation _].
  destruct (Hactivation [runes_case; runes_case])
    as (results & u & db' & calls & Hbatch & _ & _ & Hrows & Hupdate & Hlast).
  { vm_compute. reflexivity. }
  exists results, u, db', calls. split; [exact Hbatch|].
  assert (Hresults : ∃ r0 r1, results = [r0; r1] ∧ RunUpdate.passed_tests u = 2).
  { pose proof Hbatch as Hc. vm_compute in Hc. injection Hc as Hc1 Hc2 Hc3.
    subst results u. eexists _, _. split; reflexivity. }
  destruct Hresults as (r0 & r1 & -> & Hpassed).
  split; [|split; [exact Hupdate|split; [exact Hlast|exact Hpassed]]].
  apply (f_equal (fmap (take 3))) in Hrows. rewrite <- list_fmap_compose in Hrows.
  etrans; [|exact Hrows]. apply list_fmap_ext. intros _ params _. cbn.
  by rewrite take_take.
Defined.

(** A batch of two cases whose first result cannot be stored: both inserts
    are attempted, the second result is stored and the run is updated. *)
Lemma batch_attempts_at_failing_storage :
  ∃ results db' calls,
    run_activation_tests (third_call_fails (λ _, names_runes)) [runes_case; runes_case]
      empty_db = (Returned results, db')
    ∧ length results = 2%nat
    ∧ attempts INSERT_activation_results calls = 2%nat
    ∧ attempts UPDATE_test_runs calls = 1%nat
    ∧ length (runs_of INSERT_activation_results calls) = 1%nat
    ∧ length (runs_of UPDATE_test_runs calls) = 1%nat.
Proof.
  assert (Hne : "run-0" ≠ "") by discriminate.
  destruct (batch_attempts_every_write_despite_failures
              (third_call_fails (λ _, names_runes)) "run-0" empty_db
              (initialise_storage (third_call_fails (λ _, names_runes)) activation None 2
                 empty_db).2 Hne) as [Hactivation _].
  destruct (Hactivation [runes_case; runes_case])
    as (results & db' & calls & Hrun & Hlen & Hops & Hinsert & Hupdate).
  { vm_compute. reflexivity. }
  exists results, db', calls. split; [exact Hrun|]. split; [exact Hlen|].
  split; [exact Hinsert|]. split; [exact Hupdate|].
  pose proof Hrun as Hc. vm_compute in Hc. injection Hc as Hc1 Hc2. subst results db'.
  vm_compute in Hops. injection Hops as <-. split; reflexivity.
Defined.

(** The totals of a batch of two cases, the first of which meets a failing
    agent: the failed result adds nothing. *)
Lemma run_totals_at_flaky_agent :
  ∃ results u db',
    run_activation_batch (working_world flaky) [runes_case; runes_case] empty_db
    = (Returned (results, u), db')
    ∧ RunUpdate.total_input_tokens u = 10
    ∧ RunUpdate.total_output_tokens u = 5
    ∧ RunUpdate.passed_tests u = 1
    ∧ RunUpdate.failed_tests u = 1
    ∧ ∃ r0 r1, results = [r0; r1]
        ∧ ActivationTestResult.error r0 = Some "connection lost"
        ∧ activation_score r0 = (None, false).
Proof.
  destruct (run_totals_sum_the_metrics_of_the_results (working_world flaky)
              [runes_case; runes_case] [] empty_db)
    as [(results & u & db' & Hbatch & Hin & Hout & _ & _ & Hsum & Herrors) _].
  exists results, u, db'. split; [exact Hbatch|].
  assert (Hresults : ∃ r0 r1, results = [r0; r1]
            ∧ ActivationTestResult.error r0 = Some "connection lost"
            ∧ ActivationTestResult.metrics r1
              = Some (metrics_of (UsageData.mk 10 5 0 0 0) 15 42
                        (Qc_of_Z 105 / Qc_of_Z 1000000)%Qc)
            ∧ RunUpdate.passed_tests u = 1).
  { pose proof Hbatch as Hc. vm_compute in Hc. injection Hc as Hc1 Hc2 Hc3.
    subst results u. eexists _, _. repeat split. }
  destruct Hresults as (r0 & r1 & -> & Herror & Hmetrics & Hpassed).
  apply Forall_cons in Herrors as [Hscore _].
  rewrite Hin, Hout. unfold total_among, activation_score. cbn [fmap list_fmap foldr fst].
  rewrite Hmetrics. rewrite Hpassed in Hsum |- *. cbn [length] in Hsum.
  assert (Hscore0 : activation_score r0 = (None, false)).
  { apply Hscore. by rewrite Herror. }
  unfold activation_score in Hscore0. injection Hscore0 as -> _.
  split; [reflexivity|]. split; [reflexivity|]. split; [reflexivity|].
  split; [lia|]. exists r0, r1. split; [reflexivity|]. split; [exact Herror|].
  apply Hscore. by rewrite Herror.
Defined.

(** A case that forbids the empty string fails on an answer that holds its
    expected fact. *)
Lemma containment_at_forbidden_empty_string :
  ∃ r, test_response_quality (working_world (λ _, answers "Use onclick={handler}"))
         forbids_empty_case (answers "Use onclick={handler}") = Returned r
    ∧ QualityTestResult.error r = None
    ∧ QualityTestResult.missing_facts r = []
    ∧ In "" (QualityTestResult.forbidden_content r)
    ∧ QualityTestResult.passed r = false.
Proof.
  destruct (containment_at_the_empty_string
              (working_world (λ _, answers "Use onclick={handler}")) forbids_empty_case
              (answers "Use onclick={handler}")) as (r & Hr & Hedges).
  assert (Hfields : QualityTestResult.error r = None
                    ∧ QualityTestResult.missing_facts r = []).
  { evaluate_result Hr r. split; reflexivity. }
  destruct Hfields as [Herror Hmissing].
  destruct (Hedges Herror) as (_ & Hforbidden & _).
  destruct Hforbidden as [Hin Hpassed]; [by left|].
  exists r. repeat split; assumption.
Defined.


(** The two versions of the page on a catalog of two cases, with nothing
    selected. *)
Lemma both_pages_at_example_catalog :
  Page.selected_quality_tests example_page = []
  ∧ (BatchPage.run_all_quality_tests
       (working_world (λ _, answers "Use onclick={handler}")) example_template
       [onclick_case; forbids_empty_case] example_page empty_db).1
    = Returned (PerTestPage.run_all_quality_tests
                  (working_world (λ _, answers "Use onclick={handler}"))
                  example_template [onclick_case; forbids_empty_case] example_page).
Proof.
  split; [reflexivity|].
  apply (both_pages_show_the_same_results
           (working_world (λ _, answers "Use onclick={handler}")) example_template
           [] [onclick_case; forbids_empty_case] example_page empty_db).
  reflexivity.
Defined.

(** The same batch in the working storage and in a database that fails at
    every call. *)
Lemma results_at_broken_and_working_storage :
  (run_activation_tests (working_world flaky) [runes_case; runes_case] empty_db).1
  = (run_activation_tests (broken_database flaky) [runes_case; runes_case] empty_db).1
  ∧ (run_quality_tests (working_world flaky) [onclick_case] empty_db).1
    = (run_quality_tests (broken_database flaky) [onclick_case] empty_db).1.
Proof.
  apply (results_do_not_depend_on_the_storage (working_world flaky)
           (broken_database flaky)); intros; reflexivity.
Defined.

(** A batch in a database that fails at every call: the run cannot be
    created, and the only calls made are those of the attempt to create
    it. *)
Lemma nothing_written_at_broken_database :
  ∃ db1 results,
    run_activation_tests (broken_database (λ _, names_runes)) [runes_case; runes_case]
      empty_db = (Returned results, db1)
    ∧ length results = 2%nat
    ∧ ops db1 = [Prepare INSERT_test_runs].
Proof.
  destruct (nothing_is_written_when_no_run_is_created
              (broken_database (λ _, names_runes)) empty_db) as [Hactivation _].
  { right. eexists _, _. split; [reflexivity|]. intros. eexists. reflexivity. }
  destruct (Hactivation [runes_case; runes_case]) as (db1 & results & Hinit & Hrun & Hlen).
  exists db1, results. split; [exact Hrun|]. split; [exact Hlen|].
  vm_compute in Hinit. by injection Hinit as <-.
Defined.

(** A selection that names one test of the catalog twice and a test the
    catalog does not hold: that test is run once, with the model selected on
    the page and not with the model its case names. *)
Lemma page_selection_at_example_catalog :
  ∃ page' db' r,
    BatchPage.run_all_activation_tests (working_world (λ _, names_runes))
      example_template [runes_case; structure_case] example_page empty_db
    = (Returned page', db')
    ∧ Page.activation_results page' = [r]
    ∧ ActivationTestResult.test_id r = "structure-routes"
    ∧ test_skill_activation (working_world (λ _, names_runes))
        (activation_with_model default_model structure_case) names_runes = Returned r
    ∧ Page.current_logs page' = ActivationTestResult.logs r.
Proof.
  destruct (page_runs_the_selected_tests_with_the_selected_model
              (working_world (λ _, names_runes)) example_template
              [runes_case; structure_case] [] example_page empty_db)
    as [(page' & db' & Hrun & Hids & [Hlen Hres] & Hlogs & _) _].
  destruct (Hres 0%nat (activation_with_model default_model structure_case) eq_refl)
    as (r & Hr & Htest).
  assert (Hresults : Page.activation_results page' = [r]).
  { destruct (Page.activation_results page') as [|r' [|r'' rs]]; try discriminate Hlen.
    by injection Hr as ->. }
  exists page', db', r. split; [exact Hrun|]. split; [exact Hresults|].
  rewrite Hresults in Hids, Hlogs. split; [by injection Hids|].
  split; [exact Htest|]. rewrite Hlogs. cbn. apply app_nil_r.
Defined.
